(** * DBF.js: the message and interaction dispatch of [DiscordBot]

    A shallow embedding of [src/dbf.js] ([__message], [__interaction],
    [__loadCommands], the responder table [this.responces] and the helper
    [s]) together with the properties of the dispatch pipeline.

    Conventions of the embedding:
    - JavaScript strings are [string]s of ASCII characters;
    - instants and durations are integers of milliseconds ([Z]), as
      [Date.now()] returns them;
    - a [Collection] (a [Map]) that is searched in insertion order is an
      association list, the cooldown buckets are [gmap]s;
    - a value that may be [undefined] is an [option];
    - an exception is a [Throw] completion of the small monad below. *)

From Stdlib Require Import String Ascii List ZArith NArith QArith Bool Lia.
From Stdlib Require Import DecimalString.
From stdpp Require Import gmap strings.
Import ListNotations.

Local Open Scope string_scope.
Local Open Scope Z_scope.

(** ** JavaScript string primitives used by the dispatcher *)

Module JsString.

(** [content.startsWith(p)] *)
Definition startsWith (content p : string) : bool := String.prefix p content.

(** [content.slice(n)] for [0 <= n] *)
Fixpoint slice (n : nat) (s : string) : string :=
  match n, s with
  | O, _ => s
  | S _, EmptyString => EmptyString
  | S k, String _ r => slice k r
  end.

(** White space removed by [String.prototype.trim], on ASCII. *)
Definition is_white (c : ascii) : bool :=
  let n := nat_of_ascii c in
  ((9 <=? n) && (n <=? 13))%nat || (n =? 32)%nat.

Fixpoint trimStart (s : string) : string :=
  match s with
  | EmptyString => EmptyString
  | String c r => if is_white c then trimStart r else s
  end.

Fixpoint all_white (s : string) : bool :=
  match s with
  | EmptyString => true
  | String c r => is_white c && all_white r
  end.

Fixpoint trimEnd (s : string) : string :=
  match s with
  | EmptyString => EmptyString
  | String c r => if all_white s then EmptyString else String c (trimEnd r)
  end.

Definition trim (s : string) : string := trimEnd (trimStart s).

Definition is_space (c : ascii) : bool := (nat_of_ascii c =? 32)%nat.

(** [s.split(/ +/)]: the pieces between maximal runs of spaces; [cur] is
    the piece being read, [in_run] tells that the last character was a
    space. *)
Fixpoint split_go (in_run : bool) (cur : string) (s : string) : list string :=
  match s with
  | EmptyString => [cur]
  | String c r =>
      if is_space c
      then (if in_run then split_go true cur r else cur :: split_go true EmptyString r)
      else split_go false (cur ++ String c EmptyString) r
  end.

Definition split_spaces (s : string) : list string := split_go false EmptyString s.

Definition lower (c : ascii) : ascii :=
  let n := nat_of_ascii c in
  if ((65 <=? n) && (n <=? 90))%nat then ascii_of_nat (n + 32) else c.

Fixpoint toLowerCase (s : string) : string :=
  match s with
  | EmptyString => EmptyString
  | String c r => String (lower c) (toLowerCase r)
  end.

Fixpoint upper_go (s : string) : string :=
  match s with
  | EmptyString => EmptyString
  | String c r =>
      let n := nat_of_ascii c in
      String (if ((97 <=? n) && (n <=? 122))%nat then ascii_of_nat (n - 32) else c)
             (upper_go r)
  end.

Definition toUpperCase (s : string) : string := upper_go s.

(** [a.join(sep)] *)
Fixpoint join (sep : string) (l : list string) : string :=
  match l with
  | [] => EmptyString
  | [x] => x
  | x :: r => x ++ sep ++ join sep r
  end.

(** [l.includes(x)] on an array of strings *)
Definition includes (l : list string) (x : string) : bool :=
  existsb (String.eqb x) l.

(** Index of the first occurrence of [pat] in [s], scanning from the
    left, as [String.prototype.replace] with a string pattern finds it. *)
Fixpoint indexOf (pat s : string) : option nat :=
  if String.prefix pat s then Some O
  else match s with
       | EmptyString => None
       | String _ r => option_map S (indexOf pat r)
       end.

Fixpoint take (n : nat) (s : string) : string :=
  match n, s with
  | O, _ => EmptyString
  | S _, EmptyString => EmptyString
  | S k, String c r => String c (take k r)
  end.

(** [s.replace(pat, by)] with a string pattern and a replacement free of
    [$]: only the first occurrence is replaced. *)
Definition replace (pat by_ s : string) : string :=
  match indexOf pat s with
  | None => s
  | Some i => take i s ++ by_ ++ slice (i + String.length pat) s
  end.

(** ToString of an integer *)
Definition of_Z (z : Z) : string := NilZero.string_of_int (Z.to_int z).

(** Truthiness of a possibly undefined string *)
Definition truthy (o : option string) : bool :=
  match o with
  | Some s => negb (String.eqb s EmptyString)
  | None => false
  end.

End JsString.

(** ** Data model *)

(** Values thrown inside the dispatcher. *)
Inductive Error :=
| TypeError (what : string)
| ReferenceError (what : string)
| HandlerError (what : string).

(** How a handler invocation ends. *)
Inductive HandlerResult :=
| Returns
| Throws (e : Error).

(** [command.permissions] and [command.botPermissions]: a flag name or an
    array of flag names. *)
Inductive PermissionResolvable :=
| PermString (p : string)
| PermArray (ps : list string).

(** The permission snapshot [message.channel.permissionsFor(user)] of the
    platform client: the flags granted to the user in the channel. *)
Module Permissions.
Record t := { flags : list string }.

(** [perms.has(p)]: every requested flag is granted. *)
Definition has (perms : t) (p : PermissionResolvable) : bool :=
  match p with
  | PermString x => JsString.includes (flags perms) x
  | PermArray xs => forallb (JsString.includes (flags perms)) xs
  end.
End Permissions.

(** The fields of a [Message] read by [__message]. *)
Module Message.
Record t := {
  author_id : string;
  author_username : string;
  author_bot : bool;
  webhookID : option string;
  content : string;
  channel_type : string;
  (** [message.channel.permissionsFor(message.author)] *)
  author_perms : option Permissions.t;
  (** [message.channel.permissionsFor(message.client.user)] *)
  bot_perms : option Permissions.t
}.
End Message.

(** A command module as [__loadCommands] requires it. *)
Module Command.
Record t := {
  name : string;
  aliases : option (list string);
  args : option Z;
  usage : option string;
  cooldown : option Z;
  guildOnly : bool;
  dmsOnly : bool;
  ownersOnly : bool;
  permissions : option PermissionResolvable;
  botPermissions : option PermissionResolvable;
  blockedUsers : option (list string);
  unblockedUsers : option (list string);
  execute : option (Message.t -> list string -> HandlerResult)
}.
End Command.

(** Keys of the response catalog [data.responces]. *)
Module Key.
Inductive t :=
| command_unknown
| command_error
| command_cooldown
| command_guild_only
| command_dms_only
| command_owners_only
| command_blocked
| command_no_permission
| command_no_bot_permission
| command_incorrect_usage.
End Key.

(** [this.data]: the configuration object given to the constructor.  A
    field the caller left out is [None]. *)
Module Data.
Record t := {
  prefixes : option (list string);
  owners : option (list string);
  blockedUsers : option (list string);
  responces : option (Key.t -> option (list string))
}.
End Data.

(** A [Collection]: a [Map] in insertion order. *)
Module Collection.
Section Ops.
Context {V : Type}.

Definition t := list (string * V).

Fixpoint get (c : t) (k : string) : option V :=
  match c with
  | [] => None
  | (k', v) :: r => if String.eqb k k' then Some v else get r k
  end.

Definition has (c : t) (k : string) : bool :=
  match get c k with Some _ => true | None => false end.

(** [c.set(k, v)]: an existing key keeps its place. *)
Fixpoint set (c : t) (k : string) (v : V) : t :=
  match c with
  | [] => [(k, v)]
  | (k', v') :: r => if String.eqb k k' then (k', v) :: r else (k', v') :: set r k v
  end.

(** [c.find(fn)]: the first value, in insertion order, that satisfies [fn]. *)
Fixpoint find (c : t) (fn : V -> bool) : option V :=
  match c with
  | [] => None
  | (_, v) :: r => if fn v then Some v else find r fn
  end.
End Ops.
Arguments t : clear implicits.
End Collection.

(** The discriminant of an interaction: which of [isCommand()],
    [isButton()], [isSelectMenu()] answers [true]. *)
Inductive InteractionKind :=
| IsCommand
| IsButton
| IsSelectMenu
| IsOther.

Module Interaction.
Record t := { kind : InteractionKind; commandName : string; customId : string }.
End Interaction.

(** An interaction handler module (slash command, button or select menu). *)
Module Handler.
Record t := { execute : Interaction.t -> HandlerResult }.
End Handler.

(** The tables hung on [client] by the loaders; a table is [None] when its
    loader returned before creating it. *)
Module Client.
Record t := {
  commands : option (Collection.t Command.t);
  slash : option (Collection.t Handler.t);
  buttons : option (Collection.t Handler.t);
  selects : option (Collection.t Handler.t)
}.
End Client.

(** [__loadCommands]: the command modules found, registered under their
    [name] in the order of the directory listing. *)
Definition __loadCommands (files : list Command.t) : Collection.t Command.t :=
  fold_left (fun commands command => Collection.set commands (Command.name command) command)
            files [].

(** What the dispatcher does to the outside. *)
Inductive Action :=
| Send (key : Key.t) (data : list (string * string))
| Execute (command : string) (args : list string)
| ConsoleError (e : Error)
| ExecuteInteraction (id : string)
| Reply (ephemeral : bool) (error : Error).

(** A pending [setTimeout(() => timestamps.delete(user), delay)] armed at
    instant [armed] on the bucket of command [bucket]. *)
Record Timer := { armed : Z; delay : Z; bucket : string; user : string }.

(** The mutable world of the bot: [client.cooldowns] and the pending
    eviction timers. *)
Record World := {
  cooldowns : gmap string (gmap string Z);
  timers : list Timer
}.

(** An activation of a dispatcher: the world, [var command_name] of
    [__message] and the actions performed so far (latest last). *)
Record Frame := { world : World; command_name : string; actions : list Action }.

(** What an activation leaves behind. *)
Record Outcome := {
  escaped : option Error;
  world_of : World;
  trace : list Action
}.

(** ** The dispatcher monad: state of the activation, exceptions *)

Inductive Completion (A : Type) :=
| Normal (a : A)
| Throw (e : Error).
Arguments Normal {A} a.
Arguments Throw {A} e.

Definition M (A : Type) : Type := Frame -> Completion A * Frame.

Definition ret {A} (a : A) : M A := fun f => (Normal a, f).

Definition bind {A B} (m : M A) (k : A -> M B) : M B :=
  fun f =>
    match m f with
    | (Normal a, f') => k a f'
    | (Throw e, f') => (Throw e, f')
    end.

Definition throw {A} (e : Error) : M A := fun f => (Throw e, f).

(** [try { body } catch (error) { handler }] *)
Definition try_catch {A} (body : M A) (handler : Error -> M A) : M A :=
  fun f =>
    match body f with
    | (Normal a, f') => (Normal a, f')
    | (Throw e, f') => handler e f'
    end.

Notation "'let*' x ':=' m 'in' k" := (bind m (fun x => k))
  (at level 10, x name, m at level 100, k at level 200).
Notation "m ';;' k" := (bind m (fun _ => k))
  (at level 100, k at level 200, right associativity).

Definition get_world : M World := fun f => (Normal (world f), f).

Definition put_world (w : World) : M unit :=
  fun f => (Normal tt, {| world := w; command_name := command_name f; actions := actions f |}).

Definition get_command_name : M string := fun f => (Normal (command_name f), f).

Definition set_command_name (v : string) : M unit :=
  fun f => (Normal tt, {| world := world f; command_name := v; actions := actions f |}).

(** Perform an action on the outside. *)
Definition emit (a : Action) : M unit :=
  fun f =>
    (Normal tt,
     {| world := world f; command_name := command_name f; actions := actions f ++ [a] |}).

Definition set_cooldowns (c : gmap string (gmap string Z)) : M unit :=
  let* w := get_world in
  put_world {| cooldowns := c; timers := timers w |}.

(** [setTimeout(callback, delay)] *)
Definition setTimeout (t : Timer) : M unit :=
  let* w := get_world in
  put_world {| cooldowns := cooldowns w; timers := timers w ++ [t] |}.

(** A fresh activation in world [w]. *)
Definition fresh (w : World) : Frame := {| world := w; command_name := ""; actions := [] |}.

(** An activation run to its end; [escaped] is the exception that escapes,
    if any. *)
Definition run (m : M unit) (w : World) : Outcome :=
  let (c, f) := m (fresh w) in
  {| escaped := match c with Normal _ => None | Throw e => Some e end;
     world_of := world f;
     trace := actions f |}.

(** Reading a property of [undefined] *)
Definition defined {A} (what : string) (o : option A) : M A :=
  match o with
  | Some a => ret a
  | None => throw (TypeError what)
  end.

(** ** Helpers of the source *)

(** [function s(int) { return int == 1 ? "" : "s"; }], on the rational
    value of its argument. *)
Definition s (int : Q) : string := if Qeq_bool int 1 then "" else "s".

Definition show_error (e : Error) : string :=
  match e with
  | TypeError what => "TypeError: " ++ what
  | ReferenceError what => "ReferenceError: " ++ what
  | HandlerError what => "Error: " ++ what
  end.

(** [x.toFixed(1)] for a non-negative [x] whose nearest tenth is
    [tenths / 10]. *)
Definition toFixed1_text (tenths : N) : string :=
  JsString.of_Z (Z.of_N (tenths / 10)) ++ "." ++ JsString.of_Z (Z.of_N (tenths mod 10)).

(** [time_left.toFixed(1).replace("0.", ".").replace(".0", "")] (line 536) *)
Definition time_left_text (tenths : N) : string :=
  JsString.replace ".0" "" (JsString.replace "0." "." (toFixed1_text tenths)).

(** [parseFloat(time_left.toFixed(1))] *)
Definition parseFloat_toFixed1 (tenths : N) : Q := Qmake (Z.of_N tenths) 10.

(** ** The responder table [this.responces] (lines 215-398)

    A statement [return this.responces.key(message, data)] is embedded in
    two steps: the [Call] it makes (the catalog key and the substitutions,
    in the order of the [replace] chain) and [perform], the body of the
    responder.  A responder draws a template of its catalog entry,
    substitutes the placeholders, wraps the text in an embed and sends it to
    the channel.  The draw [Math.floor(Math.random() * length)] is in range
    exactly when the entry is a non-empty array; on a missing catalog, a
    missing entry or an empty entry the responder throws a [TypeError]. *)

Record Call := { key : Key.t; subst : list (string * string) }.

Module Responces.

Definition template (data : Data.t) (key : Key.t) : M unit :=
  let* responces := defined "this.data.responces is undefined" (Data.responces data) in
  let* entry := defined "catalog entry is undefined" (responces key) in
  match entry with
  | [] => throw (TypeError "Cannot read properties of undefined (reading 'replace')")
  | _ :: _ => ret tt
  end.

Definition perform (data : Data.t) (call : Call) : M unit :=
  template data (key call) ;;
  emit (Send (key call) (subst call)).

Definition command_unknown (message : Message.t) (command_name prefix : string) : Call :=
  {| key := Key.command_unknown;
     subst := [("{{command}}", command_name); ("{{prefix}}", prefix)] |}.

Definition command_error (message : Message.t) (error : Error) (command_name : string)
  : Call :=
  {| key := Key.command_error;
     subst := [("{{error}}", show_error error);
               ("{{author}}", Message.author_username message);
               ("{{command}}", command_name)] |}.

Definition command_cooldown (message : Message.t) (s_ time_left command_name : string)
  : Call :=
  {| key := Key.command_cooldown;
     subst := [("{{s}}", s_); ("{{cooldown}}", time_left);
               ("{{author}}", Message.author_username message);
               ("{{command}}", command_name)] |}.

Definition command_guild_only (message : Message.t) (command_name : string) : Call :=
  {| key := Key.command_guild_only;
     subst := [("{{author}}", Message.author_username message);
               ("{{command}}", command_name)] |}.

Definition command_dms_only (message : Message.t) (command_name : string) : Call :=
  {| key := Key.command_dms_only;
     subst := [("{{author}}", Message.author_username message);
               ("{{command}}", command_name)] |}.

Definition command_owners_only (message : Message.t) (s_ command_name : string) : Call :=
  {| key := Key.command_owners_only;
     subst := [("{{s}}", s_);
               ("{{author}}", Message.author_username message);
               ("{{command}}", command_name)] |}.

Definition command_blocked (message : Message.t) (command_name : string) : Call :=
  {| key := Key.command_blocked;
     subst := [("{{author}}", Message.author_username message);
               ("{{command}}", command_name)] |}.

Definition command_no_permission (message : Message.t)
    (permissions s_ command_name : string) : Call :=
  {| key := Key.command_no_permission;
     subst := [("{{permissions}}", permissions); ("{{s}}", s_);
               ("{{author}}", Message.author_username message);
               ("{{command}}", command_name)] |}.

Definition command_no_bot_permission (message : Message.t)
    (permissions s_ command_name : string) : Call :=
  {| key := Key.command_no_bot_permission;
     subst := [("{{permissions}}", permissions); ("{{s}}", s_);
               ("{{author}}", Message.author_username message);
               ("{{command}}", command_name)] |}.

Definition command_incorrect_usage (message : Message.t) (usage command_name : string)
  : Call :=
  {| key := Key.command_incorrect_usage;
     subst := [("{{usage}}", usage);
               ("{{author}}", Message.author_username message);
               ("{{command}}", command_name)] |}.

End Responces.

(** ** The tests of [__message], one definition per test of the source *)

(** Lines 488-489: every matching prefix overwrites [prefix]; [None] is the
    initial [false]. *)
Definition select_prefix (prefixes : option (list string)) (content : string)
  : option string :=
  fold_left
    (fun prefix thisPrefix =>
       if JsString.startsWith content thisPrefix then Some thisPrefix else prefix)
    (default ["!"] prefixes) None.

(** Line 492 *)
Definition raw_args (content prefix : string) : list string :=
  JsString.split_spaces (JsString.trim (JsString.slice (String.length prefix) content)).

(** Lines 505-506 *)
Definition find_owner (owners : option (list string)) (author_id : string)
  : option string :=
  fold_left
    (fun owner thisOwner => if String.eqb author_id thisOwner then Some thisOwner else owner)
    (default [] owners) None.

(** Line 508 *)
Definition resolve (commands : Collection.t Command.t) (command_name : string)
  : option Command.t :=
  match Collection.get commands command_name with
  | Some command => Some command
  | None =>
      Collection.find commands
        (fun cmd => match Command.aliases cmd with
                    | Some aliases => JsString.includes aliases command_name
                    | None => false
                    end)
  end.

(** Lines 512-518 *)
Definition blocked (data : Data.t) (command : Command.t) (author_id : string) : bool :=
  (JsString.includes (default [] (Data.blockedUsers data)) author_id
   || JsString.includes (default [] (Command.blockedUsers command)) author_id)
  && negb (JsString.includes (default [] (Command.unblockedUsers command)) author_id).

(** Line 527: [(command.cooldown || 1) * 1000] *)
Definition cooldown_amount (command : Command.t) : Z :=
  (match Command.cooldown command with
   | Some c => if c =? 0 then 1 else c
   | None => 1
   end) * 1000.

(** Lines 529-532: the milliseconds left of an active cooldown. *)
Definition remaining (timestamps : gmap string Z) (author_id : string)
    (now cooldown_amount : Z) : option Z :=
  match timestamps !! author_id with
  | Some t =>
      let expiration_time := t + cooldown_amount in
      if now <? expiration_time then Some (expiration_time - now) else None
  | None => None
  end.

(** Truthiness of [command.permissions] *)
Definition required (p : option PermissionResolvable) : option PermissionResolvable :=
  match p with
  | Some (PermString x) => if String.eqb x "" then None else p
  | Some (PermArray _) => p
  | None => None
  end.

(** Lines 555 and 569 *)
Definition lacks (perms : option Permissions.t) (p : PermissionResolvable) : bool :=
  match perms with
  | None => true
  | Some perms =>
      negb (Permissions.has perms p)
      || negb (Permissions.has perms (PermString "ADMINISTRATOR"))
  end.

Definition permissions_text (p : PermissionResolvable) : string :=
  JsString.toUpperCase
    match p with
    | PermArray ps => JsString.join ", " ps
    | PermString x => x
    end.

Definition permissions_s (p : PermissionResolvable) : string :=
  match p with
  | PermArray ps => s (inject_Z (Z.of_nat (List.length ps)))
  | PermString _ => ""
  end.

(** Line 580 *)
Definition incorrect_usage (num_args : Z) (args : list string) : bool :=
  negb (num_args =? Z.of_nat (List.length args)) && negb (num_args =? 0).

(** Line 581 *)
Definition usage_result (command : Command.t) (num_args : Z) : string :=
  if JsString.truthy (Command.usage command)
  then " " ++ default "" (Command.usage command)
  else if num_args =? 0 then ""
  else " <" ++ JsString.of_Z num_args ++ " required argument" ++ s (inject_Z num_args) ++ ">".

(** ** [__message] (lines 478-600) *)

Record Bot := { data : Data.t; client : Client.t }.

(** What the [try] block of [__message] decides: a bare [return], a
    [return this.responces.key(...)], or falling through to the handler. *)
Inductive Step :=
| Ignore
| Respond (call : Call)
| Authorize (command : Command.t) (args : list string).

(** The variables in scope of the guards of lines 512-587. *)
Module Ctx.
Record t := {
  message : Message.t;
  now : Z;
  prefix : string;
  command_name : string;
  args : list string;
  owner : option string;
  command : Command.t;
  num_args : Z
}.
End Ctx.

(** A guard is one [if (...) return this.responces.key(...)] statement:
    it yields the call of its [return], or [None] to fall through. *)
Definition Guard : Type := Ctx.t -> M (option Call).

(** Statements run in order; the first [return] ends the function. *)
Fixpoint first_failing (guards : list Guard) (ctx : Ctx.t) : M (option Call) :=
  match guards with
  | [] => ret None
  | guard :: rest =>
      let* r := guard ctx in
      match r with
      | Some call => ret (Some call)
      | None => first_failing rest ctx
      end
  end.

Section Dispatch.

(** The host's [Number.prototype.toFixed]: [toFixed1 ms] is the number of
    tenths that [(ms / 1000).toFixed(1)] shows. *)
Variable toFixed1 : Z -> N.

Variable bot : Bot.

(** Lines 523-526: the bucket of the command, created when missing. *)
Definition bucket_of (command : Command.t) : M (gmap string Z) :=
  let* w := get_world in
  match cooldowns w !! Command.name command with
  | Some _ => ret tt
  | None => set_cooldowns (<[Command.name command := ∅]> (cooldowns w))
  end ;;
  let* w := get_world in
  ret (default ∅ (cooldowns w !! Command.name command)).

(** Lines 512-521 *)
Definition guard_blocked : Guard := fun ctx =>
  if blocked (data bot) (Ctx.command ctx) (Message.author_id (Ctx.message ctx))
  then ret (Some (Responces.command_blocked (Ctx.message ctx) (Ctx.command_name ctx)))
  else ret None.

(** Lines 523-540 *)
Definition guard_cooldown : Guard := fun ctx =>
  let* timestamps := bucket_of (Ctx.command ctx) in
  match remaining timestamps (Message.author_id (Ctx.message ctx))
                  (Ctx.now ctx) (cooldown_amount (Ctx.command ctx)) with
  | Some time_left =>
      ret (Some (Responces.command_cooldown (Ctx.message ctx)
                   (s (parseFloat_toFixed1 (toFixed1 time_left)))
                   (time_left_text (toFixed1 time_left))
                   (Ctx.command_name ctx)))
  | None => ret None
  end.

(** Line 542 *)
Definition guard_guild_only : Guard := fun ctx =>
  if Command.guildOnly (Ctx.command ctx)
     && negb (String.eqb (Message.channel_type (Ctx.message ctx)) "text")
  then ret (Some (Responces.command_guild_only (Ctx.message ctx) (Ctx.command_name ctx)))
  else ret None.

(** Line 543 *)
Definition guard_dms_only : Guard := fun ctx =>
  if Command.dmsOnly (Ctx.command ctx)
     && negb (String.eqb (Message.channel_type (Ctx.message ctx)) "dm")
  then ret (Some (Responces.command_dms_only (Ctx.message ctx) (Ctx.command_name ctx)))
  else ret None.

(** Lines 545-550 *)
Definition guard_owners_only : Guard := fun ctx =>
  if Command.ownersOnly (Ctx.command ctx) && negb (JsString.truthy (Ctx.owner ctx))
  then
    let* owners := defined "this.data.owners is undefined" (Data.owners (data bot)) in
    ret (Some (Responces.command_owners_only (Ctx.message ctx)
                 (s (inject_Z (Z.of_nat (List.length owners))))
                 (Ctx.command_name ctx)))
  else ret None.

(** Lines 552-564 *)
Definition guard_permissions : Guard := fun ctx =>
  match required (Command.permissions (Ctx.command ctx)) with
  | Some p =>
      if lacks (Message.author_perms (Ctx.message ctx)) p
      then ret (Some (Responces.command_no_permission (Ctx.message ctx)
                        (permissions_text p) (permissions_s p) (Ctx.command_name ctx)))
      else ret None
  | None => ret None
  end.

(** Lines 566-578 *)
Definition guard_bot_permissions : Guard := fun ctx =>
  match required (Command.botPermissions (Ctx.command ctx)) with
  | Some p =>
      if lacks (Message.bot_perms (Ctx.message ctx)) p
      then ret (Some (Responces.command_no_bot_permission (Ctx.message ctx)
                        (permissions_text p) (permissions_s p) (Ctx.command_name ctx)))
      else ret None
  | None => ret None
  end.

(** Lines 580-587 *)
Definition guard_usage : Guard := fun ctx =>
  if incorrect_usage (Ctx.num_args ctx) (Ctx.args ctx)
  then ret (Some (Responces.command_incorrect_usage (Ctx.message ctx)
                    (Ctx.prefix ctx ++ Ctx.command_name ctx
                       ++ usage_result (Ctx.command ctx) (Ctx.num_args ctx))
                    (Ctx.command_name ctx)))
  else ret None.

(** The guards in the order of the source. *)
Definition before_cooldown : list Guard := [guard_blocked].
Definition before_owners_only : list Guard :=
  before_cooldown ++ [guard_cooldown; guard_guild_only; guard_dms_only].
Definition before_permissions : list Guard := before_owners_only ++ [guard_owners_only].
Definition before_usage : list Guard :=
  before_permissions ++ [guard_permissions; guard_bot_permissions].
Definition chain : list Guard := before_usage ++ [guard_usage].

(** Lines 505-510: the variables the guards read. *)
Definition ctx_of (message : Message.t) (now : Z) (prefix command_name : string)
    (args : list string) (command : Command.t) : Ctx.t :=
  {| Ctx.message := message; Ctx.now := now; Ctx.prefix := prefix;
     Ctx.command_name := command_name; Ctx.args := args;
     Ctx.owner := find_owner (Data.owners (data bot)) (Message.author_id message);
     Ctx.command := command;
     Ctx.num_args := default 0 (Command.args command) |}.

(** Lines 490-587 for the selected [prefix], with the guards [stages]
    after the resolution of the command: the statement at which the
    [try] block returns, or the fall through to line 589. *)
Definition from_prefix (stages : list Guard) (message : Message.t) (now : Z)
    (prefix : string) : M Step :=
  if String.eqb prefix "" then ret Ignore
  else
    match raw_args (Message.content message) prefix with
    | [] => throw (TypeError "Cannot read properties of undefined (reading 'toLowerCase')")
    | first :: args =>
        set_command_name (JsString.toLowerCase first) ;;
        let* command_name := get_command_name in
        if String.eqb command_name "" then ret Ignore
        else
          let* commands :=
            defined "client.commands is undefined" (Client.commands (client bot)) in
          if negb (Collection.has commands command_name)
          then ret (Respond (Responces.command_unknown message command_name prefix))
          else
            let* command :=
              defined "command is undefined" (resolve commands command_name) in
            let* r :=
              first_failing stages
                (ctx_of message now prefix command_name args command) in
            match r with
            | Some call => ret (Respond call)
            | None => ret (Authorize command args)
            end
    end.

(** Lines 485-587 *)
Definition guards_with (stages : list Guard) (message : Message.t) (now : Z) : M Step :=
  if Message.author_bot message then ret Ignore
  else if JsString.truthy (Message.webhookID message) then ret Ignore
  else
    match select_prefix (Data.prefixes (data bot)) (Message.content message) with
    | None => ret Ignore
    | Some prefix => from_prefix stages message now prefix
    end.

Definition guards : Message.t -> Z -> M Step := guards_with chain.

(** Lines 589-590 *)
Definition start_cooldown (command : Command.t) (author_id : string) (now : Z) : M unit :=
  let* w := get_world in
  set_cooldowns
    (<[Command.name command :=
         <[author_id := now]> (default ∅ (cooldowns w !! Command.name command))]>
       (cooldowns w)) ;;
  setTimeout {| armed := now; delay := cooldown_amount command;
                bucket := Command.name command; user := author_id |}.

(** Line 592 *)
Definition run_handler (command : Command.t) (message : Message.t) (args : list string)
  : M unit :=
  let* execute := defined "command.execute is not a function" (Command.execute command) in
  emit (Execute (Command.name command) args) ;;
  match execute message args with
  | Returns => ret tt
  | Throws e => throw e
  end.

(** The body of the [try] block, lines 485-592. *)
Definition try_block (message : Message.t) (now : Z) : M unit :=
  let* step := guards message now in
  match step with
  | Ignore => ret tt
  | Respond call => Responces.perform (data bot) call
  | Authorize command args =>
      start_cooldown command (Message.author_id message) now ;;
      run_handler command message args
  end.

(** Lines 593-599 *)
Definition catch_block (message : Message.t) (error : Error) : M unit :=
  emit (ConsoleError error) ;;
  let* command_name := get_command_name in
  Responces.perform (data bot) (Responces.command_error message error command_name).

(** [__message(message)] run at instant [now] in world [w]; the hook
    [this.onmessage] is the empty default. *)
Definition __message (message : Message.t) (now : Z) (w : World) : Outcome :=
  run (try_catch (try_block message now) (catch_block message)) w.

End Dispatch.

(** ** [__interaction] (lines 612-646) *)

(** The identifiers bound where the [catch] block of the command branch
    runs: the parameter, the two [const]s and the catch parameter.  The
    file is strict-mode code (line 6, and a class body always is), so
    assigning to any other identifier throws a [ReferenceError]. *)
Definition interaction_scope : list string :=
  ["interaction"; "responces"; "command"; "error"].

Definition assign (scope : list string) (x : string) : M unit :=
  if JsString.includes scope x then ret tt
  else throw (ReferenceError (x ++ " is not defined")).

Section Interactions.

Variable bot : Bot.

Definition invoke (id : string) (h : Handler.t) (interaction : Interaction.t) : M unit :=
  emit (ExecuteInteraction id) ;;
  match Handler.execute h interaction with
  | Returns => ret tt
  | Throws e => throw e
  end.

Definition interaction_body (interaction : Interaction.t) : M unit :=
  match Interaction.kind interaction with
  | IsCommand =>
      let* slash := defined "client.slash is undefined" (Client.slash (client bot)) in
      match Collection.get slash (Interaction.commandName interaction) with
      | None => ret tt
      | Some command =>
          try_catch
            (invoke (Interaction.commandName interaction) command interaction)
            (fun error =>
               emit (ConsoleError error) ;;
               (* msg = responces.command_error[...].replace(...) *)
               Responces.template (data bot) Key.command_error ;;
               assign interaction_scope "msg" ;;
               (* embed = new this.discord.MessageEmbed()... *)
               assign interaction_scope "embed" ;;
               emit (Reply true error))
      end
  | IsButton =>
      let* buttons := defined "client.buttons is undefined" (Client.buttons (client bot)) in
      match Collection.get buttons (Interaction.customId interaction) with
      | None => ret tt
      | Some button =>
          try_catch
            (invoke (Interaction.customId interaction) button interaction)
            (fun error => emit (ConsoleError error))
      end
  | IsSelectMenu =>
      let* selects := defined "client.selects is undefined" (Client.selects (client bot)) in
      match Collection.get selects (Interaction.customId interaction) with
      | None => ret tt
      | Some select =>
          try_catch
            (invoke (Interaction.customId interaction) select interaction)
            (fun error => emit (ConsoleError error))
      end
  | IsOther => ret tt
  end.

(** [__interaction(interaction)]: how the returned promise settles and the
    world it leaves; the hook [this.oninteraction] is the empty default. *)
Definition __interaction (interaction : Interaction.t) (w : World) : Outcome :=
  run (interaction_body interaction) w.

End Interactions.

(** ** Eviction timers *)

(** The callback of a timer: [timestamps.delete(message.author.id)]. *)
Definition fire (t : Timer) (w : World) : World :=
  {| cooldowns := alter (delete (user t)) (bucket t) (cooldowns w);
     timers := timers w |}.

(** The cooldown record of a user for a command. *)
Definition record (w : World) (command_name author_id : string) : option Z :=
  match cooldowns w !! command_name with
  | Some timestamps => timestamps !! author_id
  | None => None
  end.

(** ** Observations on a trace *)



Definition is_reply (a : Action) : bool :=
  match a with Reply _ _ => true | _ => false end.

Definition replies (tr : list Action) : nat := List.length (List.filter is_reply tr).

(** ** Sample configuration: the defaults of the constructor (lines 43-140) *)

Definition default_responces (key : Key.t) : option (list string) :=
  Some
    match key with
    | Key.command_unknown => ["This command doesn't exist"]
    | Key.command_error => ["Something went wrong: ```{{error}}```"]
    | Key.command_cooldown =>
        ["Please wait `{{cooldown}}` second{{s}} before using this command again"]
    | Key.command_guild_only => ["This command can only be used in a server"]
    | Key.command_dms_only => ["This command can only be used in DMs"]
    | Key.command_owners_only => ["Only bot owners can use this command"]
    | Key.command_blocked => ["You are blocked from using this command"]
    | Key.command_no_permission => ["You don't have permission to use this command"]
    | Key.command_no_bot_permission => ["I don't have permission to use this command"]
    | Key.command_incorrect_usage => ["Please use this command correctly: `{{usage}}`"]
    end.

Definition default_data : Data.t :=
  {| Data.prefixes := Some ["!"];
     Data.owners := Some [];
     Data.blockedUsers := Some [];
     Data.responces := Some default_responces |}.

Definition empty_world : World := {| cooldowns := ∅; timers := [] |}.

(** Rounding to the nearest tenth of a second, ties upwards: what
    [toFixed(1)] shows whenever [ms / 1000] is not half-way between two
    tenths. *)
Definition half_up (ms : Z) : N := Z.to_N ((ms + 50) / 100).

(** ** Sample commands, messages and bots *)

Definition returns : Message.t -> list string -> HandlerResult := fun _ _ => Returns.
Definition throws : Message.t -> list string -> HandlerResult :=
  fun _ _ => Throws (HandlerError "boom").

(** A command module that only sets [name] and [execute]. *)
Definition plain (name : string) (execute : Message.t -> list string -> HandlerResult)
  : Command.t :=
  {| Command.name := name; Command.aliases := None; Command.args := None;
     Command.usage := None; Command.cooldown := None;
     Command.guildOnly := false; Command.dmsOnly := false; Command.ownersOnly := false;
     Command.permissions := None; Command.botPermissions := None;
     Command.blockedUsers := None; Command.unblockedUsers := None;
     Command.execute := Some execute |}.

(** [{ name: "help", aliases: ["h"], execute }] *)
Definition help : Command.t :=
  {| Command.name := "help"; Command.aliases := Some ["h"]; Command.args := None;
     Command.usage := None; Command.cooldown := None;
     Command.guildOnly := false; Command.dmsOnly := false; Command.ownersOnly := false;
     Command.permissions := None; Command.botPermissions := None;
     Command.blockedUsers := None; Command.unblockedUsers := None;
     Command.execute := Some returns |}.

(** [{ name: "kick", permissions: ["KICK_MEMBERS"], execute }] *)
Definition kick : Command.t :=
  {| Command.name := "kick"; Command.aliases := None; Command.args := None;
     Command.usage := None; Command.cooldown := None;
     Command.guildOnly := false; Command.dmsOnly := false; Command.ownersOnly := false;
     Command.permissions := Some (PermArray ["KICK_MEMBERS"]);
     Command.botPermissions := None;
     Command.blockedUsers := None; Command.unblockedUsers := None;
     Command.execute := Some returns |}.

(** [{ name: "eval", ownersOnly: true, permissions: ["X"], execute }] *)
Definition eval_cmd : Command.t :=
  {| Command.name := "eval"; Command.aliases := None; Command.args := None;
     Command.usage := None; Command.cooldown := None;
     Command.guildOnly := false; Command.dmsOnly := false; Command.ownersOnly := true;
     Command.permissions := Some (PermArray ["X"]);
     Command.botPermissions := None;
     Command.blockedUsers := None; Command.unblockedUsers := None;
     Command.execute := Some returns |}.

(** [{ name: "ban", args: 2, cooldown: 3, execute }] *)
Definition ban : Command.t :=
  {| Command.name := "ban"; Command.aliases := None; Command.args := Some 2;
     Command.usage := None; Command.cooldown := Some 3;
     Command.guildOnly := false; Command.dmsOnly := false; Command.ownersOnly := false;
     Command.permissions := None; Command.botPermissions := None;
     Command.blockedUsers := None; Command.unblockedUsers := None;
     Command.execute := Some returns |}.

(** [{ name: "daily", cooldown: 30, execute }] *)
Definition daily : Command.t :=
  {| Command.name := "daily"; Command.aliases := None; Command.args := None;
     Command.usage := None; Command.cooldown := Some 30;
     Command.guildOnly := false; Command.dmsOnly := false; Command.ownersOnly := false;
     Command.permissions := None; Command.botPermissions := None;
     Command.blockedUsers := None; Command.unblockedUsers := None;
     Command.execute := Some returns |}.

Definition sample_commands : Collection.t Command.t :=
  __loadCommands [help; kick; eval_cmd; ban; daily; plain "crash" throws].

Definition ping_slash : Handler.t :=
  {| Handler.execute := fun _ => Throws (HandlerError "boom") |}.

Definition sample_client : Client.t :=
  {| Client.commands := Some sample_commands;
     Client.slash := Some [("ping", ping_slash)];
     Client.buttons := Some [("ok", ping_slash)];
     Client.selects := Some [("pick", ping_slash)] |}.

Definition sample_bot : Bot := {| data := default_data; client := sample_client |}.

(** A bot configured with the two prefixes [!] and [!!], in this order. *)
Definition two_prefix_bot : Bot :=
  {| data := {| Data.prefixes := Some ["!"; "!!"]; Data.owners := Some [];
                Data.blockedUsers := Some []; Data.responces := Some default_responces |};
     client := sample_client |}.

(** A bot configured without [owners]: [new DiscordBot({ ..., prefixes:
    ["!"], responces })]; the constructor keeps [data] as it is given. *)
Definition ownerless_bot : Bot :=
  {| data := {| Data.prefixes := Some ["!"]; Data.owners := None;
                Data.blockedUsers := Some []; Data.responces := Some default_responces |};
     client := sample_client |}.

(** A guild text message of user [u1], who holds the flags [flags]. *)
Definition text_from (flags : list string) (content : string) : Message.t :=
  {| Message.author_id := "u1"; Message.author_username := "alice";
     Message.author_bot := false; Message.webhookID := None;
     Message.content := content; Message.channel_type := "text";
     Message.author_perms := Some {| Permissions.flags := flags |};
     Message.bot_perms := Some {| Permissions.flags := ["ADMINISTRATOR"] |} |}.

Definition text (content : string) : Message.t := text_from [] content.

Definition from_bot (content : string) : Message.t :=
  {| Message.author_id := "b1"; Message.author_username := "robot";
     Message.author_bot := true; Message.webhookID := None;
     Message.content := content; Message.channel_type := "text";
     Message.author_perms := None; Message.bot_perms := None |}.

Definition ping_interaction (kind : InteractionKind) (id : string) : Interaction.t :=
  {| Interaction.kind := kind; Interaction.commandName := id; Interaction.customId := id |}.

(** ** The duration rule in the words of the specification

    "Formatted to one decimal place, then a trailing [.0] is dropped and a
    leading [0.] collapsed to [.]". *)

Fixpoint ends_with (suffix s : string) : bool :=
  String.eqb suffix s
  || match s with
     | EmptyString => false
     | String _ r => ends_with suffix r
     end.

Definition drop_trailing (suffix s : string) : string :=
  if ends_with suffix s
  then JsString.take (String.length s - String.length suffix) s
  else s.

Definition collapse_leading (lead by_ s : string) : string :=
  if String.prefix lead s then by_ ++ JsString.slice (String.length lead) s else s.

Definition duration_text_spec (tenths : N) : string :=
  collapse_leading "0." "." (drop_trailing ".0" (toFixed1_text tenths)).

(** The condition under which [__message] returns without acting
    (lines 485, 486, 490 and 496). *)
Definition ignored (bot : Bot) (message : Message.t) : bool :=
  Message.author_bot message
  || JsString.truthy (Message.webhookID message)
  || match select_prefix (Data.prefixes (data bot)) (Message.content message) with
     | None => true
     | Some prefix =>
         String.eqb prefix ""
         || match raw_args (Message.content message) prefix with
            | [] => false
            | first :: _ => String.eqb (JsString.toLowerCase first) ""
            end
     end.

(** The outcome of an activation that did nothing. *)
Definition nothing (w : World) : Outcome := {| escaped := None; world_of := w; trace := [] |}.

(** The [TypeError] a responder of [key] throws, if the catalog is such
    that it throws. *)
Definition template_error (data : Data.t) (key : Key.t) : option Error :=
  match Data.responces data with
  | Some responces =>
      match responces key with
      | Some (_ :: _) => None
      | Some [] => Some (TypeError "Cannot read properties of undefined (reading 'replace')")
      | None => Some (TypeError "catalog entry is undefined")
      end
  | None => Some (TypeError "this.data.responces is undefined")
  end.

(** The catalog holds at least one template for [key]. *)
Definition renders (data : Data.t) (key : Key.t) : bool :=
  match template_error data key with
  | None => true
  | Some _ => false
  end.

Definition add_action (f : Frame) (a : Action) : Frame :=
  {| world := world f; command_name := command_name f; actions := actions f ++ [a] |}.

(** The outcome of an activation whose [try] block threw [error] in world
    [w] after the actions [before], with [command_name] as it then was. *)
Definition caught (bot : Bot) (message : Message.t) (error : Error)
    (command_name : string) (w : World) (before : list Action) : Outcome :=
  match template_error (data bot) Key.command_error with
  | None =>
      {| escaped := None; world_of := w;
         trace := before
                  ++ [ConsoleError error;
                      Send Key.command_error
                        (subst (Responces.command_error message error command_name))] |}
  | Some e =>
      {| escaped := Some e; world_of := w; trace := before ++ [ConsoleError error] |}
  end.

(** The world after lines 589-590. *)
Definition started (command : Command.t) (author_id : string) (now : Z) (w : World)
  : World :=
  {| cooldowns :=
       <[Command.name command :=
           <[author_id := now]> (default ∅ (cooldowns w !! Command.name command))]>
         (cooldowns w);
     timers := timers w ++ [{| armed := now; delay := cooldown_amount command;
                               bucket := Command.name command; user := author_id |}] |}.

(** The rejection decided by a run of the guards, if any. *)
Definition rejection_of (r : Completion Step * Frame) : option Key.t :=
  match r with
  | (Normal (Respond call), _) => Some (key call)
  | _ => None
  end.

(** Two worlds with the same timers and the same cooldown records. *)
Definition same_records (w w' : World) : Prop :=
  timers w' = timers w /\
  forall command_name author_id, record w' command_name author_id = record w command_name author_id.

(** A computation that keeps a relation between the frame it starts in
    and the frame it ends in. *)
Definition preserves {A} (P : Frame -> Frame -> Prop) (m : M A) : Prop :=
  forall f c f', m f = (c, f') -> P f f'.

(** No action performed, no timer armed, the cooldown records left alone. *)
Definition quietly (f f' : Frame) : Prop :=
  actions f' = actions f /\ same_records (world f) (world f').

(** [var command_name] left alone. *)
Definition steadily (f f' : Frame) : Prop := command_name f' = command_name f.

(** How the guards of a list conclude for a command. *)
Definition conclude (command : Command.t) (args : list string)
    (r : Completion (option Call) * Frame) : Completion Step * Frame :=
  match r with
  | (Normal (Some call), f) => (Normal (Respond call), f)
  | (Normal None, f) => (Normal (Authorize command args), f)
  | (Throw e, f) => (Throw e, f)
  end.


(** ** Further sample data *)

(** [{ name: "nowhere", guildOnly: true, dmsOnly: true, execute }] *)
Definition nowhere : Command.t :=
  {| Command.name := "nowhere"; Command.aliases := None; Command.args := None;
     Command.usage := None; Command.cooldown := None;
     Command.guildOnly := true; Command.dmsOnly := true; Command.ownersOnly := false;
     Command.permissions := None; Command.botPermissions := None;
     Command.blockedUsers := None; Command.unblockedUsers := None;
     Command.execute := Some returns |}.

(** [{ name: "purge", botPermissions: "MANAGE_MESSAGES", blockedUsers: ["u2"], execute }] *)
Definition purge : Command.t :=
  {| Command.name := "purge"; Command.aliases := None; Command.args := None;
     Command.usage := None; Command.cooldown := Some 0;
     Command.guildOnly := false; Command.dmsOnly := false; Command.ownersOnly := false;
     Command.permissions := None;
     Command.botPermissions := Some (PermString "MANAGE_MESSAGES");
     Command.blockedUsers := Some ["u2"]; Command.unblockedUsers := None;
     Command.execute := Some returns |}.

(** A bot whose owners are [u1] and [u9], with [u3] on the global
    block-list. *)
Definition owned_bot : Bot :=
  {| data := {| Data.prefixes := Some ["!"]; Data.owners := Some ["u1"; "u9"];
                Data.blockedUsers := Some ["u3"]; Data.responces := Some default_responces |};
     client := {| Client.commands :=
                    Some (__loadCommands [help; eval_cmd; nowhere; purge]);
                  Client.slash := None; Client.buttons := None; Client.selects := None |} |}.

(** A guild text message of user [author_id]; the bot holds [bot_flags]. *)
Definition text_of (author_id : string) (bot_flags : list string) (content : string)
  : Message.t :=
  {| Message.author_id := author_id; Message.author_username := "someone";
     Message.author_bot := false; Message.webhookID := None;
     Message.content := content; Message.channel_type := "text";
     Message.author_perms := Some {| Permissions.flags := ["X"; "ADMINISTRATOR"] |};
     Message.bot_perms := Some {| Permissions.flags := bot_flags |} |}.

(** ** The worlds a running bot can be in

    Between two activations the world changes by the dispatch of a message
    or by the callback of an eviction timer that was armed before.  The
    instants at which timers fire are left open: every property of all
    reachable worlds holds however late or early the timers fire. *)

Inductive step (toFixed1 : Z -> N) (bot : Bot) : World -> World -> Prop :=
| step_message message now w :
    step toFixed1 bot w (world_of (__message toFixed1 bot message now w))
| step_timer t w :
    In t (timers w) -> step toFixed1 bot w (fire t w).

Inductive reachable (toFixed1 : Z -> N) (bot : Bot) : World -> Prop :=
| reachable_start : reachable toFixed1 bot empty_world
| reachable_step w w' :
    reachable toFixed1 bot w -> step toFixed1 bot w w' -> reachable toFixed1 bot w'.

(** A step that neither evicts nor overwrites the cooldown record of the
    user [author_id] for the command [name]: the dispatch of a message
    that is not an authorized invocation of that command by that user, or
    the callback of a timer of another bucket or of another user. *)
Inductive keeps_record (toFixed1 : Z -> N) (bot : Bot) (name author_id : string)
  : World -> World -> Prop :=
| keeps_message message now w :
    (forall command args f1,
       guards toFixed1 bot message now (fresh w) = (Normal (Authorize command args), f1) ->
       Command.name command <> name \/ Message.author_id message <> author_id) ->
    keeps_record toFixed1 bot name author_id w
      (world_of (__message toFixed1 bot message now w))
| keeps_timer t w :
    In t (timers w) ->
    bucket t <> name \/ user t <> author_id ->
    keeps_record toFixed1 bot name author_id w (fire t w).

(** The worlds reached by such steps. *)
Inductive undisturbed (toFixed1 : Z -> N) (bot : Bot) (name author_id : string)
  : World -> World -> Prop :=
| undisturbed_refl w : undisturbed toFixed1 bot name author_id w w
| undisturbed_step w w' w'' :
    undisturbed toFixed1 bot name author_id w w' ->
    keeps_record toFixed1 bot name author_id w' w'' ->
    undisturbed toFixed1 bot name author_id w w''.

(** Every cooldown record was written together with a timer that evicts it. *)
Definition backed (w : World) : Prop :=
  forall command_name author_id t,
    record w command_name author_id = Some t ->
    exists amount,
      In {| armed := t; delay := amount; bucket := command_name; user := author_id |}
         (timers w).

(** A guard that only ever answers with the catalog key [k]. *)
Definition emits (guard : Guard) (k : Key.t) : Prop :=
  forall ctx f call f', guard ctx f = (Normal (Some call), f') -> key call = k.

(** The frame after lines 523-526: the bucket of [name] exists. *)
Definition with_bucket (name : string) (f : Frame) : Frame :=
  match cooldowns (world f) !! name with
  | Some _ => f
  | None =>
      {| world := {| cooldowns := <[name := ∅]> (cooldowns (world f));
                     timers := timers (world f) |};
         command_name := command_name f;
         actions := actions f |}
  end.

(** ** Words

    A string without a space character, and the two ways a string can fail
    to be the space-separated list of its words. *)

Fixpoint spaceless (s : string) : bool :=
  match s with
  | EmptyString => true
  | String c r => negb (JsString.is_space c) && spaceless r
  end.

Fixpoint ends_in_space (s : string) : bool :=
  match s with
  | EmptyString => false
  | String c EmptyString => JsString.is_space c
  | String _ r => ends_in_space r
  end.

Definition starts_with_space (s : string) : bool :=
  match s with
  | EmptyString => false
  | String c _ => JsString.is_space c
  end.

(** A non-empty string without a space. *)
Definition word (s : string) : Prop := s <> "" /\ spaceless s = true.

(** ** [String.prototype.replace] with a global regular expression

    Every [replace] of the responders and of [__status] has the form
    [text.replace(/{{name}}/g, value)]: the pattern is a literal, non-empty
    text without capture groups, matched left to right without overlap,
    and [value] is converted to a string in which [$$], [$&], [$`] and
    [$'] are substitution patterns. *)

Module JsReplace.

(** The text put in place of one match [matched] found between [before]
    and [after]: GetSubstitution for a match without captures. *)
Fixpoint expand (matched before after : string) (value : string) : string :=
  match value with
  | EmptyString => EmptyString
  | String c rest =>
      if Ascii.eqb c "$"
      then
        match rest with
        | EmptyString => String c EmptyString
        | String d rest' =>
            if Ascii.eqb d "$" then String "$" (expand matched before after rest')
            else if Ascii.eqb d "&" then matched ++ expand matched before after rest'
            else if Ascii.eqb d "`" then before ++ expand matched before after rest'
            else if Ascii.eqb d "'" then after ++ expand matched before after rest'
            else String c (expand matched before after rest)
        end
      else String c (expand matched before after rest)
  end.

(** [before] is the text already read, [skip] the number of characters
    still to drop of a match that was replaced. *)
Fixpoint replace_go (pattern value : string) (before : string) (skip : nat) (text : string)
  : string :=
  match text with
  | EmptyString => EmptyString
  | String c rest =>
      match skip with
      | S k => replace_go pattern value (before ++ String c EmptyString) k rest
      | O =>
          if String.prefix pattern text
          then
            expand pattern before (JsString.slice (String.length pattern) text) value
            ++ replace_go pattern value (before ++ String c EmptyString)
                 (String.length pattern - 1) rest
          else String c (replace_go pattern value (before ++ String c EmptyString) O rest)
      end
  end.

(** [text.replace(/pattern/g, value)] for a literal, non-empty [pattern] *)
Definition replace_all (pattern value text : string) : string :=
  replace_go pattern value EmptyString O text.

(** A value without [$]: it is inserted as it is. *)
Fixpoint plain (value : string) : bool :=
  match value with
  | EmptyString => true
  | String c rest => negb (Ascii.eqb c "$") && plain rest
  end.

End JsReplace.

(** The description of the embed a responder sends when it draws
    [template]: the [replace] chain of the call, applied in order. *)
Definition describe (template : string) (call : Call) : string :=
  fold_left (fun text placeholder =>
               JsReplace.replace_all (fst placeholder) (snd placeholder) text)
            (subst call) template.

(** ** Start-up: [__log], [__status], the loaders and [__ready]
    (lines 412-415, 456-466, 652-827) *)

(** One entry of [data.statuses]. *)
Module Status.
Record t := {
  name : option string;
  type : option string;
  url : option string;
  status : option string
}.
End Status.

(** The argument of [client.user.setPresence]. *)
Module Presence.
Record t := {
  activity_name : string;
  activity_type : string;
  activity_url : option string;
  status : string
}.
End Presence.

(** The fields of [this.data] read at start-up, besides those of [Data.t];
    a flag is [true] when the field is truthy. *)
Module Settings.
Record t := {
  path : option string;
  commandsPath : option string;
  eventsPath : option string;
  buttonsPath : option string;
  selectMenusPath : option string;
  slashPath : option string;
  slash : bool;
  dev : bool;
  logging : option bool;
  devId : option string;
  version : option string;
  token : option string;
  statuses : option (list Status.t);
  statusInterval : option Z;
  (** [data.restApi] is given (the class of a REST client) *)
  restApi : bool
}.
End Settings.

(** An event module, a button or select menu module and a slash command
    module, as the loaders [require] them. *)
Module EventModule.
Record t := { name : string; once : bool }.
End EventModule.

Module Component.
Record t := { id : string; execute : Interaction.t -> HandlerResult }.
End Component.

Module Slash.
Record t := { data_name : string; execute : Interaction.t -> HandlerResult }.
End Slash.

(** The file system: [fs.readdirSync], which throws on a missing folder
    ([None]), and [require] at each of the types the loaders expect,
    which throws the error of a module that does not load. *)
Module Disk.
Record t := {
  readdirSync : string -> option (list string);
  require_command : string -> Error + Command.t;
  require_event : string -> Error + EventModule.t;
  require_component : string -> Error + Component.t;
  require_slash : string -> Error + Slash.t
}.
End Disk.

(** What [client] shows of the platform. *)
Module ClientUser.
Record t := {
  id : string;
  username : string;
  guilds : Z;
  channels : Z;
  users : Z
}.
End ClientUser.

(** The state the start-up code works on. *)
Module Runtime.
Record t := {
  client : Client.t;
  world : World;
  (** [console.log] and [console.error] *)
  logged : list string;
  errors : list Error;
  (** [client.on] and [client.once]: event name and [once] *)
  listeners : list (string * bool);
  presence : option Presence.t;
  (** [setInterval]: the delays of the status loops armed *)
  intervals : list Z;
  (** REST [put]: route and names of the commands in the body *)
  requests : list (string * list string)
}.
End Runtime.

(** [x || fallback] on a possibly undefined string *)
Definition or_else (o : option string) (fallback : string) : string :=
  if JsString.truthy o then default fallback o else fallback.

(** [files.filter(file => file.endsWith(".js"))] *)
Definition js_files (names : list string) : list string :=
  List.filter (ends_with ".js") names.

(** The modules the loop [for (const file of files)] of a loader has
    required when it ends or is left: [require(path + "/" + file)] throws
    at the first file that does not load, in no [try] of the loader. *)
Fixpoint require_all {A} (require : string -> Error + A) (path : string)
    (files : list string) : list A * option Error :=
  match files with
  | [] => ([], None)
  | file :: rest =>
      match require (path ++ "/" ++ file) with
      | inl error => ([], Some error)
      | inr loaded =>
          let (modules, failure) := require_all require path rest in
          (loaded :: modules, failure)
      end
  end.

(** A statement after one that may have thrown. *)
Definition and_then (r : option Error * Runtime.t)
    (next : Runtime.t -> option Error * Runtime.t) : option Error * Runtime.t :=
  match r with
  | (Some error, rt) => (Some error, rt)
  | (None, rt) => next rt
  end.

Section Startup.

Variable data : Data.t.
Variable settings : Settings.t.
Variable disk : Disk.t.
Variable user : ClientUser.t.

(** [__log(message)] (lines 412-415): the lines written to the console. *)
Definition __log (message : string) : list string :=
  if Settings.dev settings && default true (Settings.logging settings)
  then ["[DBF] => " ++ message]
  else [].

Definition log_lines (messages : list string) : list string :=
  List.concat (List.map __log messages).

(** The lines a loader logs over the [.js] files [files]: nothing when
    there is none, else a header, two lines for each module required,
    named [names], and a footer unless a [require] threw. *)
Definition registering (what plural : string) (files names : list string)
    (failure : option Error) : list string :=
  if (List.length files <? 1)%nat then []
  else
    log_lines
      ([("Registering " ++ plural)%string]
         ++ List.concat
              (List.map (fun name =>
                           [("Registering " ++ what ++ " " ++ name)%string;
                            ("Successfully registered " ++ what ++ " " ++ name)%string])
                        names)
         ++ match failure with
            | None => [("All " ++ plural ++ " have been registered")%string]
            | Some _ => []
            end)%list.

(** A line feed *)
Definition nl : string := String (Ascii.ascii_of_nat 10) EmptyString.

(** [!this.data.prefixes ? "!" : this.data.prefixes[0]], as a string *)
Definition first_prefix : string :=
  match Data.prefixes data with
  | None => "!"
  | Some [] => "undefined"
  | Some (prefix :: _) => prefix
  end.

(** The [replace] chain of lines 657-662. *)
Definition status_name (name : string) : string :=
  JsReplace.replace_all "{{users}}" (JsString.of_Z (ClientUser.users user))
    (JsReplace.replace_all "{{channels}}" (JsString.of_Z (ClientUser.channels user))
       (JsReplace.replace_all "{{servers}}" (JsString.of_Z (ClientUser.guilds user))
          (JsReplace.replace_all "{{prefix}}" first_prefix
             (JsReplace.replace_all "{{name}}" (ClientUser.username user) name)))).

(** [__status()] (lines 652-670) for the draw [draw] of [Math.random]:
    the presence set, or the error thrown. *)
Definition __status (draw : nat) : Error + Presence.t :=
  match Settings.statuses settings with
  | None => inl (TypeError "Cannot read properties of undefined (reading 'length')")
  | Some statuses =>
      match nth_error statuses (draw mod List.length statuses) with
      | None => inl (TypeError "Cannot read properties of undefined (reading 'name')")
      | Some status =>
          match Status.name status with
          | None => inl (TypeError "Cannot read properties of undefined (reading 'replace')")
          | Some name =>
              inr {| Presence.activity_name :=
                       let shown := status_name name in
                       if String.eqb shown "" then first_prefix ++ "help" else shown;
                     Presence.activity_type := or_else (Status.type status) "PLAYING";
                     Presence.activity_url :=
                       if JsString.truthy (Status.url status) then Status.url status else None;
                     Presence.status := or_else (Status.status status) "online" |}
          end
      end
  end.

(** The table a loader builds: each module, in the order of the files,
    set under its key. *)
Definition table {A V} (key_of : A -> string) (value_of : A -> V) (modules : list A)
  : Collection.t V :=
  fold_left (fun t m => Collection.set t (key_of m) (value_of m)) modules [].

(** [__loadCommands(path)] (lines 677-699): the error thrown, if any, and
    the runtime left.  [client.cooldowns] is a new collection: the timers
    armed before keep the buckets of the old one, which nothing reads any
    more, so none of them is a timer of the new world. *)
Definition loadCommands_at (path : string) (rt : Runtime.t) : option Error * Runtime.t :=
  match Disk.readdirSync disk path with
  | None => (None, rt)
  | Some names =>
      let files := js_files names in
      let (modules, failure) := require_all (Disk.require_command disk) path files in
      (failure,
       {| Runtime.client :=
            {| Client.commands := Some (__loadCommands modules);
               Client.slash := Client.slash (Runtime.client rt);
               Client.buttons := Client.buttons (Runtime.client rt);
               Client.selects := Client.selects (Runtime.client rt) |};
          Runtime.world := empty_world;
          Runtime.logged :=
            (Runtime.logged rt
             ++ registering "command" "commands" files (List.map Command.name modules)
                  failure)%list;
          Runtime.errors := Runtime.errors rt;
          Runtime.listeners := Runtime.listeners rt;
          Runtime.presence := Runtime.presence rt;
          Runtime.intervals := Runtime.intervals rt;
          Runtime.requests := Runtime.requests rt |})
  end.

(** [__registerEvents(path)] (lines 706-726) *)
Definition __registerEvents (path : string) (rt : Runtime.t) : option Error * Runtime.t :=
  match Disk.readdirSync disk path with
  | None => (None, rt)
  | Some names =>
      let files := js_files names in
      let (modules, failure) := require_all (Disk.require_event disk) path files in
      (failure,
       {| Runtime.client := Runtime.client rt;
          Runtime.world := Runtime.world rt;
          Runtime.logged :=
            (Runtime.logged rt
             ++ registering "event" "events" files (List.map EventModule.name modules)
                  failure)%list;
          Runtime.errors := Runtime.errors rt;
          Runtime.listeners :=
            (Runtime.listeners rt
             ++ List.map (fun event => (EventModule.name event, EventModule.once event))
                  modules)%list;
          Runtime.presence := Runtime.presence rt;
          Runtime.intervals := Runtime.intervals rt;
          Runtime.requests := Runtime.requests rt |})
  end.

Definition handler_of (component : Component.t) : Handler.t :=
  {| Handler.execute := Component.execute component |}.

(** [__registerButtons(path)] (lines 733-754) *)
Definition __registerButtons (path : string) (rt : Runtime.t) : option Error * Runtime.t :=
  match Disk.readdirSync disk path with
  | None => (None, rt)
  | Some names =>
      let files := js_files names in
      let (modules, failure) := require_all (Disk.require_component disk) path files in
      (failure,
       {| Runtime.client :=
            {| Client.commands := Client.commands (Runtime.client rt);
               Client.slash := Client.slash (Runtime.client rt);
               Client.buttons := Some (table Component.id handler_of modules);
               Client.selects := Client.selects (Runtime.client rt) |};
          Runtime.world := Runtime.world rt;
          Runtime.logged :=
            (Runtime.logged rt
             ++ registering "button" "buttons" files (List.map Component.id modules)
                  failure)%list;
          Runtime.errors := Runtime.errors rt;
          Runtime.listeners := Runtime.listeners rt;
          Runtime.presence := Runtime.presence rt;
          Runtime.intervals := Runtime.intervals rt;
          Runtime.requests := Runtime.requests rt |})
  end.

(** [__registerSelectMenus(path)] (lines 761-782) *)
Definition __registerSelectMenus (path : string) (rt : Runtime.t)
  : option Error * Runtime.t :=
  match Disk.readdirSync disk path with
  | None => (None, rt)
  | Some names =>
      let files := js_files names in
      let (modules, failure) := require_all (Disk.require_component disk) path files in
      (failure,
       {| Runtime.client :=
            {| Client.commands := Client.commands (Runtime.client rt);
               Client.slash := Client.slash (Runtime.client rt);
               Client.buttons := Client.buttons (Runtime.client rt);
               Client.selects := Some (table Component.id handler_of modules) |};
          Runtime.world := Runtime.world rt;
          Runtime.logged :=
            (Runtime.logged rt
             ++ registering "select menu" "select menus" files
                  (List.map Component.id modules) failure)%list;
          Runtime.errors := Runtime.errors rt;
          Runtime.listeners := Runtime.listeners rt;
          Runtime.presence := Runtime.presence rt;
          Runtime.intervals := Runtime.intervals rt;
          Runtime.requests := Runtime.requests rt |})
  end.

Definition slash_handler (command : Slash.t) : Handler.t :=
  {| Handler.execute := Slash.execute command |}.

(** [__deployCommands(path, rest, version, dev, devId)] (lines 793-827),
    called with [rest = this.data.restApi || null], up to the first
    [await]: the request is sent, its answer comes later.  The body is in
    a [try] whose [catch] writes the error to the console: the error of a
    module that does not load, thrown after the modules before it were
    set, or, without a class to construct, the error of [new rest(...)],
    thrown after the table was filled. *)
Definition __deployCommands (path : string) (dev : bool) (devId : string)
    (rt : Runtime.t) : Runtime.t :=
  if negb (Settings.slash settings) then rt
  else
    match Disk.readdirSync disk path with
    | None => rt
    | Some names =>
        let files := js_files names in
        let (modules, failure) := require_all (Disk.require_slash disk) path files in
        let body := List.map Slash.data_name modules in
        let route :=
          if negb dev
          then "/applications/" ++ ClientUser.id user ++ "/commands"
          else "/applications/" ++ ClientUser.id user ++ "/guilds/" ++ devId ++ "/commands" in
        {| Runtime.client :=
             {| Client.commands := Client.commands (Runtime.client rt);
                Client.slash := Some (table Slash.data_name slash_handler modules);
                Client.buttons := Client.buttons (Runtime.client rt);
                Client.selects := Client.selects (Runtime.client rt) |};
           Runtime.world := Runtime.world rt;
           Runtime.logged := Runtime.logged rt;
           Runtime.errors :=
             (Runtime.errors rt
              ++ match failure with
                 | Some error => [error]
                 | None =>
                     if Settings.restApi settings then []
                     else [TypeError "rest is not a constructor"]
                 end)%list;
           Runtime.listeners := Runtime.listeners rt;
           Runtime.presence := Runtime.presence rt;
           Runtime.intervals := Runtime.intervals rt;
           Runtime.requests :=
             (Runtime.requests rt
              ++ match failure with
                 | Some _ => []
                 | None => if Settings.restApi settings then [(route, body)] else []
                 end)%list |}
    end.

(** The rest of the asynchronous function of lines 813-823, once the
    request is answered: with nothing ([None]) or with a rejection. *)
Definition deployed (dev : bool) (answer : option Error) (rt : Runtime.t) : Runtime.t :=
  {| Runtime.client := Runtime.client rt;
     Runtime.world := Runtime.world rt;
     Runtime.logged :=
       (Runtime.logged rt
        ++ match answer with
           | None =>
               __log (if negb dev
                      then "Successfully registered application commands globally"
                      else "Successfully registered application commands for development guild")
           | Some _ => []
           end)%list;
     Runtime.errors :=
       (Runtime.errors rt
        ++ match answer with None => [] | Some error => [error] end)%list;
     Runtime.listeners := Runtime.listeners rt;
     Runtime.presence := Runtime.presence rt;
     Runtime.intervals := Runtime.intervals rt;
     Runtime.requests := Runtime.requests rt |}.

(** The folder a loader is given: [(data.path || ".") + "/" + (folder || name)] *)
Definition folder (configured : option string) (name : string) : string :=
  or_else (Settings.path settings) "." ++ "/" ++ or_else configured name.

(** [__ready()] (lines 456-466) for the draw [draw] of the first
    [__status]; the hook [this.onready] is the empty default.  The result
    is the error thrown, if any, and the runtime left: nothing here is in
    a [try], so the first statement that throws ends [__ready]. *)
Definition __ready (draw : nat) (rt : Runtime.t) : option Error * Runtime.t :=
  match __status draw with
  | inl error => (Some error, rt)
  | inr presence =>
      let rt1 :=
        {| Runtime.client := Runtime.client rt;
           Runtime.world := Runtime.world rt;
           Runtime.logged := Runtime.logged rt;
           Runtime.errors := Runtime.errors rt;
           Runtime.listeners := Runtime.listeners rt;
           Runtime.presence := Some presence;
           Runtime.intervals :=
             (Runtime.intervals rt
              ++ [match Settings.statusInterval settings with
                  | Some i => if i =? 0 then 15000 else i
                  | None => 15000
                  end])%list;
           Runtime.requests := Runtime.requests rt |} in
      and_then (loadCommands_at (folder (Settings.commandsPath settings) "commands") rt1)
        (fun rt2 =>
      and_then (__registerEvents (folder (Settings.eventsPath settings) "events") rt2)
        (fun rt3 =>
      and_then (__registerButtons (folder (Settings.buttonsPath settings) "buttons") rt3)
        (fun rt4 =>
      and_then
        (__registerSelectMenus (folder (Settings.selectMenusPath settings) "selects") rt4)
        (fun rt5 =>
      let rt6 :=
        __deployCommands (folder (Settings.slashPath settings) "slash")
          (Settings.dev settings) (default "" (Settings.devId settings)) rt5 in
      (None,
       {| Runtime.client := Runtime.client rt6;
          Runtime.world := Runtime.world rt6;
          Runtime.logged :=
            (Runtime.logged rt6
             ++ [(nl ++ "[DBF] => Bot (" ++ ClientUser.username user
                  ++ ") has successfully started" ++ nl)%string])%list;
          Runtime.errors := Runtime.errors rt6;
          Runtime.listeners := Runtime.listeners rt6;
          Runtime.presence := Runtime.presence rt6;
          Runtime.intervals := Runtime.intervals rt6;
          Runtime.requests := Runtime.requests rt6 |})))))
  end.

End Startup.

(** ** A sample project *)

(** A project whose folders hold two command scripts and a text file, one
    button, no select menu and one slash command; there is no [events]
    folder. *)
Definition sample_disk : Disk.t :=
  {| Disk.readdirSync := fun path =>
       if String.eqb path "./commands" then Some ["help.js"; "notes.txt"; "eval.js"]
       else if String.eqb path "./buttons" then Some ["ok.js"]
       else if String.eqb path "./selects" then Some []
       else if String.eqb path "./slash" then Some ["ping.js"]
       else None;
     Disk.require_command := fun file =>
       inr (if String.eqb file "./commands/help.js" then help else eval_cmd);
     Disk.require_event := fun _ =>
       inr {| EventModule.name := "guildCreate"; EventModule.once := false |};
     Disk.require_component := fun _ =>
       inr {| Component.id := "ok";
              Component.execute := fun _ => Throws (HandlerError "boom") |};
     Disk.require_slash := fun _ =>
       inr {| Slash.data_name := "ping"; Slash.execute := fun _ => Returns |} |}.


(** The sample project with a second button script, [late.js], that does
    not load. *)
Definition broken_disk : Disk.t :=
  {| Disk.readdirSync := fun path =>
       if String.eqb path "./buttons" then Some ["ok.js"; "late.js"]
       else Disk.readdirSync sample_disk path;
     Disk.require_command := Disk.require_command sample_disk;
     Disk.require_event := Disk.require_event sample_disk;
     Disk.require_component := fun file =>
       if String.eqb file "./buttons/late.js"
       then inl (HandlerError "Unexpected end of input")
       else Disk.require_component sample_disk file;
     Disk.require_slash := Disk.require_slash sample_disk |}.

(** [{ slash: true, statuses: [{ name: "{{prefix}}help on {{servers}} servers" }] }] *)
Definition sample_settings : Settings.t :=
  {| Settings.path := None; Settings.commandsPath := None; Settings.eventsPath := None;
     Settings.buttonsPath := None; Settings.selectMenusPath := None;
     Settings.slashPath := None; Settings.slash := true; Settings.dev := false;
     Settings.logging := None; Settings.devId := None; Settings.version := None;
     Settings.token := None;
     Settings.statuses :=
       Some [{| Status.name := Some "{{prefix}}help on {{servers}} servers";
                Status.type := None; Status.url := None; Status.status := None |}];
     Settings.statusInterval := None; Settings.restApi := false |}.

(** The same without [statuses] and without [slash]. *)
Definition bare_settings : Settings.t :=
  {| Settings.path := None; Settings.commandsPath := None; Settings.eventsPath := None;
     Settings.buttonsPath := None; Settings.selectMenusPath := None;
     Settings.slashPath := None; Settings.slash := false; Settings.dev := true;
     Settings.logging := None; Settings.devId := None; Settings.version := None;
     Settings.token := None; Settings.statuses := None;
     Settings.statusInterval := None; Settings.restApi := false |}.

Definition sample_user : ClientUser.t :=
  {| ClientUser.id := "42"; ClientUser.username := "Robo"; ClientUser.guilds := 3;
     ClientUser.channels := 12; ClientUser.users := 100 |}.

(** The runtime when the [ready] event arrives: no table yet. *)
Definition at_login : Runtime.t :=
  {| Runtime.client := {| Client.commands := None; Client.slash := None;
                          Client.buttons := None; Client.selects := None |};
     Runtime.world := empty_world; Runtime.logged := []; Runtime.errors := [];
     Runtime.listeners := [("ready", true); ("messageCreate", false);
                           ("interactionCreate", false)];
     Runtime.presence := None; Runtime.intervals := []; Runtime.requests := [] |}.

(** The bot as [__message] and [__interaction] see it in a runtime. *)
Definition bot_of (data : Data.t) (rt : Runtime.t) : Bot :=
  {| data := data; client := Runtime.client rt |}.

(** [{ dev: true, logging: false, statuses: [{ name: "" }] }] *)
Definition quiet_settings : Settings.t :=
  {| Settings.path := None; Settings.commandsPath := None; Settings.eventsPath := None;
     Settings.buttonsPath := None; Settings.selectMenusPath := None;
     Settings.slashPath := None; Settings.slash := false; Settings.dev := true;
     Settings.logging := Some false; Settings.devId := None; Settings.version := None;
     Settings.token := None;
     Settings.statuses :=
       Some [{| Status.name := Some ""; Status.type := None; Status.url := None;
                Status.status := None |}];
     Settings.statusInterval := None; Settings.restApi := false |}.

(** [__log] writes nothing: [data.dev] is falsy or [data.logging] is. *)
Definition silent (settings : Settings.t) : bool :=
  negb (Settings.dev settings && default true (Settings.logging settings)).

(** The line [__ready] writes last. *)
Definition started_line (user : ClientUser.t) : string :=
  nl ++ "[DBF] => Bot (" ++ ClientUser.username user ++ ") has successfully started" ++ nl.

(** A line written by [__log]. *)
Definition log_line (line : string) : Prop := String.prefix "[DBF] => " line = true.

(** What the loaders of commands, events, buttons and select menus leave
    alone, and what they add to: listeners and lines of [__log]. *)
Definition extends (settings : Settings.t) (rt rt' : Runtime.t) : Prop :=
  Runtime.presence rt' = Runtime.presence rt /\
  Runtime.intervals rt' = Runtime.intervals rt /\
  Runtime.requests rt' = Runtime.requests rt /\
  Runtime.errors rt' = Runtime.errors rt /\
  Client.slash (Runtime.client rt') = Client.slash (Runtime.client rt) /\
  (exists added, Runtime.listeners rt' = (Runtime.listeners rt ++ added)%list) /\
  (exists lines,
     Runtime.logged rt' = (Runtime.logged rt ++ lines)%list
     /\ Forall log_line lines
     /\ (silent settings = true -> lines = [])).

(** The error of a module of the project that does not load. *)
Definition load_error (disk : Disk.t) (error : Error) : Prop :=
  exists file,
    Disk.require_command disk file = inl error
    \/ Disk.require_event disk file = inl error
    \/ Disk.require_component disk file = inl error.

(** The runtime after the first two statements of [__ready] that change
    it: the presence [shown] is set and the status loop armed. *)
Definition status_set (settings : Settings.t) (shown : Presence.t) (rt : Runtime.t)
  : Runtime.t :=
  {| Runtime.client := Runtime.client rt;
     Runtime.world := Runtime.world rt;
     Runtime.logged := Runtime.logged rt;
     Runtime.errors := Runtime.errors rt;
     Runtime.listeners := Runtime.listeners rt;
     Runtime.presence := Some shown;
     Runtime.intervals :=
       (Runtime.intervals rt
        ++ [match Settings.statusInterval settings with
            | Some i => if i =? 0 then 15000 else i
            | None => 15000
            end])%list;
     Runtime.requests := Runtime.requests rt |}.

(** * Properties *)

(** ** What the guards preserve *)

Lemma same_records_refl w : same_records w w.
Proof. split; reflexivity. Qed.

Lemma same_records_trans w1 w2 w3 :
  same_records w1 w2 -> same_records w2 w3 -> same_records w1 w3.
Proof.
  intros [T1 R1] [T2 R2]. split; [congruence|].
  intros c u. now rewrite R2, R1.
Qed.

Lemma record_new_bucket w name c u :
  cooldowns w !! name = None ->
  record {| cooldowns := <[name := ∅]> (cooldowns w); timers := timers w |} c u = record w c u.
Proof.
  intros H. unfold record. simpl.
  destruct (decide (name = c)) as [->|Hne].
  - rewrite lookup_insert_eq, H. apply lookup_empty.
  - now rewrite lookup_insert_ne.
Qed.

Section Preserved.

Variable P : Frame -> Frame -> Prop.
Hypothesis P_refl : forall f, P f f.
Hypothesis P_trans : forall f1 f2 f3, P f1 f2 -> P f2 f3 -> P f1 f3.
Hypothesis P_bucket : forall command, preserves P (bucket_of command).

Lemma preserves_ret {A} (a : A) : preserves P (ret a).
Proof. intros f c f' [= <- <-]. apply P_refl. Qed.

Lemma preserves_throw {A} e : preserves P (@throw A e).
Proof. intros f c f' [= <- <-]. apply P_refl. Qed.

Lemma preserves_bind {A B} (m : M A) (k : A -> M B) :
  preserves P m -> (forall a, preserves P (k a)) -> preserves P (bind m k).
Proof.
  intros Hm Hk f c f'. unfold bind.
  destruct (m f) as [[a|e] f1] eqn:E; intros H.
  - eapply P_trans; [exact (Hm _ _ _ E) | exact (Hk a _ _ _ H)].
  - injection H as <- <-. exact (Hm _ _ _ E).
Qed.

Lemma preserves_defined {A} what (o : option A) : preserves P (defined what o).
Proof. destruct o; [apply preserves_ret | apply preserves_throw]. Qed.

Lemma preserves_get_command_name : preserves P get_command_name.
Proof. intros f c f' [= <- <-]. apply P_refl. Qed.

Ltac preserves_step :=
  match goal with
  | |- preserves _ (bind _ _) => apply preserves_bind; [| intros ?]
  | |- preserves _ (if ?b then _ else _) => destruct b
  | |- preserves _ (match ?o with Some _ => _ | None => _ end) => destruct o
  | |- preserves _ (ret _) => apply preserves_ret
  | |- preserves _ (throw _) => apply preserves_throw
  | |- preserves _ (defined _ _) => apply preserves_defined
  | |- preserves _ (bucket_of _) => apply P_bucket
  end.

Lemma preserves_guard_blocked bot ctx : preserves P (guard_blocked bot ctx).
Proof. unfold guard_blocked. repeat preserves_step. Qed.

Lemma preserves_guard_cooldown toFixed1 ctx : preserves P (guard_cooldown toFixed1 ctx).
Proof. unfold guard_cooldown. repeat preserves_step. Qed.

Lemma preserves_guard_guild_only ctx : preserves P (guard_guild_only ctx).
Proof. unfold guard_guild_only. repeat preserves_step. Qed.

Lemma preserves_guard_dms_only ctx : preserves P (guard_dms_only ctx).
Proof. unfold guard_dms_only. repeat preserves_step. Qed.

Lemma preserves_guard_owners_only bot ctx : preserves P (guard_owners_only bot ctx).
Proof. unfold guard_owners_only. repeat preserves_step. Qed.

Lemma preserves_guard_permissions ctx : preserves P (guard_permissions ctx).
Proof. unfold guard_permissions. repeat preserves_step. Qed.

Lemma preserves_guard_bot_permissions ctx : preserves P (guard_bot_permissions ctx).
Proof. unfold guard_bot_permissions. repeat preserves_step. Qed.

Lemma preserves_guard_usage ctx : preserves P (guard_usage ctx).
Proof. unfold guard_usage. repeat preserves_step. Qed.

Lemma preserves_first_failing (stages : list Guard) ctx :
  Forall (fun g => forall ctx, preserves P (g ctx)) stages ->
  preserves P (first_failing stages ctx).
Proof.
  induction 1 as [|g rest Hg _ IH]; simpl.
  - apply preserves_ret.
  - apply preserves_bind; [apply Hg|].
    intros [call|]; [apply preserves_ret | exact IH].
Qed.

Lemma preserves_chain toFixed1 bot :
  Forall (fun g : Guard => forall ctx, preserves P (g ctx)) (chain toFixed1 bot).
Proof.
  unfold chain, before_usage, before_permissions, before_owners_only, before_cooldown.
  simpl.
  repeat (apply List.Forall_cons;
          [intros ctx;
           auto using preserves_guard_blocked, preserves_guard_cooldown,
             preserves_guard_guild_only, preserves_guard_dms_only,
             preserves_guard_owners_only, preserves_guard_permissions,
             preserves_guard_bot_permissions, preserves_guard_usage |]).
  apply List.Forall_nil.
Qed.

Lemma preserves_guards_with bot stages message now :
  (forall v, preserves P (set_command_name v)) ->
  Forall (fun g : Guard => forall ctx, preserves P (g ctx)) stages ->
  preserves P (guards_with bot stages message now).
Proof.
  intros Hset H. unfold guards_with, from_prefix.
  repeat first
    [ preserves_step
    | match goal with
      | |- preserves _ (match ?l with [] => _ | _ :: _ => _ end) => destruct l
      | |- preserves _ (set_command_name _) => apply Hset
      | |- preserves _ get_command_name => apply preserves_get_command_name
      | |- preserves _ (first_failing _ _) => apply preserves_first_failing, H
      end ].
Qed.

End Preserved.

Lemma quietly_refl f : quietly f f.
Proof. split; [reflexivity | apply same_records_refl]. Qed.

Lemma quietly_trans f1 f2 f3 : quietly f1 f2 -> quietly f2 f3 -> quietly f1 f3.
Proof.
  intros [A1 R1] [A2 R2]. split; [congruence | eapply same_records_trans; eassumption].
Qed.

Lemma quietly_bucket command : preserves quietly (bucket_of command).
Proof.
  intros f c f'. unfold bucket_of, bind, get_world, set_cooldowns, put_world, ret.
  destruct (cooldowns (world f) !! Command.name command) eqn:E; simpl.
  - intros [= <- <-]. apply quietly_refl.
  - intros [= <- <-]. split; [reflexivity|]. simpl.
    split; [reflexivity|]. intros c' u. now apply record_new_bucket.
Qed.

Lemma steadily_refl f : steadily f f.
Proof. reflexivity. Qed.

Lemma steadily_trans f1 f2 f3 : steadily f1 f2 -> steadily f2 f3 -> steadily f1 f3.
Proof. unfold steadily. congruence. Qed.

Lemma steadily_bucket command : preserves steadily (bucket_of command).
Proof.
  intros f c f'. unfold bucket_of, bind, get_world, set_cooldowns, put_world, ret.
  destruct (cooldowns (world f) !! Command.name command); simpl;
    intros [= <- <-]; reflexivity.
Qed.

Lemma quiet_guards_with bot stages message now :
  Forall (fun g : Guard => forall ctx, preserves quietly (g ctx)) stages ->
  preserves quietly (guards_with bot stages message now).
Proof.
  apply preserves_guards_with; [exact quietly_refl | exact quietly_trans |].
  intros v f c f' [= <- <-]. split; [reflexivity | apply same_records_refl].
Qed.

Lemma quiet_chain toFixed1 bot :
  Forall (fun g : Guard => forall ctx, preserves quietly (g ctx)) (chain toFixed1 bot).
Proof.
  apply preserves_chain; [exact quietly_refl | exact quietly_trans | exact quietly_bucket].
Qed.

Lemma steady_chain toFixed1 bot :
  Forall (fun g : Guard => forall ctx, preserves steadily (g ctx)) (chain toFixed1 bot).
Proof.
  apply preserves_chain; [exact steadily_refl | exact steadily_trans | exact steadily_bucket].
Qed.

(** ** Responders *)

Lemma template_eq data key f :
  Responces.template data key f
  = (match template_error data key with None => Normal tt | Some e => Throw e end, f).
Proof.
  unfold template_error, Responces.template, bind, defined, ret, throw.
  destruct (Data.responces data) as [responces|]; [|reflexivity].
  destruct (responces key) as [[|t l]|]; reflexivity.
Qed.

Lemma perform_eq data call f :
  Responces.perform data call f
  = match template_error data (key call) with
    | None => (Normal tt, add_action f (Send (key call) (subst call)))
    | Some e => (Throw e, f)
    end.
Proof.
  unfold Responces.perform, bind. rewrite template_eq.
  destruct (template_error data (key call)); reflexivity.
Qed.

Lemma run_caught bot message (body : M unit) w c f1 :
  body (fresh w) = (c, f1) ->
  run (try_catch body (catch_block bot message)) w
  = match c with
    | Normal _ => {| escaped := None; world_of := world f1; trace := actions f1 |}
    | Throw error => caught bot message error (command_name f1) (world f1) (actions f1)
    end.
Proof.
  intros E. unfold run, try_catch. rewrite E.
  destruct c as [[]|error]; [reflexivity|].
  unfold catch_block, bind, emit, get_command_name, caught. simpl.
  rewrite perform_eq. simpl.
  destruct (template_error (data bot) Key.command_error); simpl; [reflexivity|].
  now rewrite <- app_assoc.
Qed.

(** [__message] in terms of the decision of its guards. *)
Lemma message_outcome toFixed1 bot message now w c f1 :
  guards toFixed1 bot message now (fresh w) = (c, f1) ->
  __message toFixed1 bot message now w
  = match c with
    | Throw error => caught bot message error (command_name f1) (world f1) []
    | Normal Ignore => nothing (world f1)
    | Normal (Respond call) =>
        match template_error (data bot) (key call) with
        | None => {| escaped := None; world_of := world f1;
                     trace := [Send (key call) (subst call)] |}
        | Some e => caught bot message e (command_name f1) (world f1) []
        end
    | Normal (Authorize command args) =>
        let w2 := started command (Message.author_id message) now (world f1) in
        match Command.execute command with
        | None =>
            caught bot message (TypeError "command.execute is not a function")
                   (command_name f1) w2 []
        | Some execute =>
            match execute message args with
            | Returns => {| escaped := None; world_of := w2;
                            trace := [Execute (Command.name command) args] |}
            | Throws e =>
                caught bot message e (command_name f1) w2
                       [Execute (Command.name command) args]
            end
        end
    end.
Proof.
  intros E.
  assert (A1 : actions f1 = []).
  { apply (quiet_guards_with bot (chain toFixed1 bot)) in E as [E _];
      [exact E | apply quiet_chain]. }
  unfold __message.
  destruct (try_block toFixed1 bot message now (fresh w)) as [c' f2] eqn:T.
  rewrite (run_caught _ _ _ _ _ _ T).
  unfold try_block, bind in T. rewrite E in T.
  destruct c as [[|call|command args]|error].
  - injection T as <- <-. unfold nothing. now rewrite A1.
  - rewrite perform_eq in T.
    destruct (template_error (data bot) (key call)); injection T as <- <-; simpl;
      now rewrite A1.
  - unfold start_cooldown, run_handler, bind, get_world, set_cooldowns, put_world,
      setTimeout, defined, emit, ret, throw in T. simpl in T.
    destruct (Command.execute command) as [execute|]; simpl in T.
    + destruct (execute message args); injection T as <- <-; simpl; now rewrite A1.
    + injection T as <- <-. simpl. now rewrite A1.
  - injection T as <- <-. now rewrite A1.
Qed.

(** ** Ignored events *)

Lemma guards_when_ignored bot stages message now f :
  ignored bot message = true ->
  exists cn, guards_with bot stages message now f
             = (Normal Ignore,
                {| world := world f; command_name := cn; actions := actions f |}).
Proof.
  unfold ignored, guards_with, from_prefix. destruct f as [w cn acts]. simpl.
  destruct (Message.author_bot message); [eauto|].
  destruct (JsString.truthy (Message.webhookID message)); [eauto|]. simpl.
  destruct (select_prefix _ _) as [prefix|]; [|eauto].
  destruct (String.eqb prefix ""); [eauto|]. simpl.
  destruct (raw_args _ prefix) as [|first args]; [discriminate|].
  unfold bind, set_command_name, get_command_name. simpl.
  intros ->. eauto.
Qed.


Lemma message_ignored toFixed1 bot message now w :
  ignored bot message = true -> __message toFixed1 bot message now w = nothing w.
Proof.
  intros I.
  destruct (guards_when_ignored bot (chain toFixed1 bot) message now (fresh w) I) as [cn G].
  fold (guards toFixed1 bot) in G.
  now rewrite (message_outcome _ _ _ _ _ _ _ G).
Qed.

(** ** Terminal actions of one event *)



(** ** Running a prefix of the guards *)

Lemma first_failing_app (earlier later : list Guard) ctx f :
  first_failing (earlier ++ later) ctx f
  = match first_failing earlier ctx f with
    | (Normal None, f') => first_failing later ctx f'
    | r => r
    end.
Proof.
  revert f. induction earlier as [|g rest IH]; intros f; simpl; [reflexivity|].
  unfold bind. destruct (g ctx f) as [[[call|]|e] f']; try reflexivity. apply IH.
Qed.

(** The first failing guard short-circuits the later ones. *)
Lemma first_failing_short_circuit (earlier later : list Guard) guard ctx f f1 f2 call :
  first_failing earlier ctx f = (Normal None, f1) ->
  guard ctx f1 = (Normal (Some call), f2) ->
  first_failing (earlier ++ guard :: later) ctx f = (Normal (Some call), f2).
Proof.
  intros E G. rewrite first_failing_app, E. simpl. unfold bind. now rewrite G.
Qed.

(** An invocation that passes the guards [earlier] goes on with the
    guards that follow, in the same context. *)
Lemma guards_with_continue bot (earlier later : list Guard) message now f command args f1 :
  Forall (fun g : Guard => forall ctx, preserves steadily (g ctx)) earlier ->
  guards_with bot earlier message now f = (Normal (Authorize command args), f1) ->
  exists prefix,
    select_prefix (Data.prefixes (data bot)) (Message.content message) = Some prefix /\
    guards_with bot (earlier ++ later) message now f
    = conclude command args
        (first_failing later
           (ctx_of bot message now prefix (command_name f1) args command) f1).
Proof.
  intros S. unfold guards_with, from_prefix.
  destruct (Message.author_bot message); [discriminate|].
  destruct (JsString.truthy (Message.webhookID message)); [discriminate|].
  destruct (select_prefix _ _) as [prefix|]; [|discriminate].
  destruct (String.eqb prefix ""); [discriminate|].
  destruct (raw_args _ prefix) as [|first rest]; [discriminate|].
  unfold bind, set_command_name, get_command_name. simpl.
  destruct (String.eqb (JsString.toLowerCase first) ""); [discriminate|].
  destruct (defined _ (Client.commands (client bot)) _) as [[commands|e] f2] eqn:D1;
    [|discriminate].
  destruct (negb (Collection.has commands _)); [discriminate|].
  destruct (defined _ (resolve commands _) _) as [[command'|e] f3] eqn:D2; [|discriminate].
  assert (N2 : command_name f2 = JsString.toLowerCase first).
  { unfold defined in D1. destruct (Client.commands (client bot)); [|discriminate].
    now injection D1 as _ <-. }
  assert (N3 : command_name f3 = JsString.toLowerCase first).
  { unfold defined in D2. destruct (resolve commands _); [|discriminate].
    injection D2 as _ <-. exact N2. }
  rewrite first_failing_app.
  destruct (first_failing earlier _ f3) as [[[call|]|e] f4] eqn:F; try discriminate.
  intros [= -> -> ->]. exists prefix. split; [reflexivity|].
  assert (N4 : command_name f1 = JsString.toLowerCase first).
  { rewrite <- N3.
    exact (preserves_first_failing steadily steadily_refl steadily_trans _ _ S _ _ _ F). }
  rewrite N4.
  destruct (first_failing later _ f1) as [[[call|]|e] f5]; reflexivity.
Qed.

Lemma chain_from_owners_only toFixed1 bot :
  chain toFixed1 bot
  = (before_owners_only toFixed1 bot
     ++ [guard_owners_only bot; guard_permissions; guard_bot_permissions; guard_usage])%list.
Proof. reflexivity. Qed.

Lemma steady_prefix toFixed1 bot (earlier later : list Guard) :
  chain toFixed1 bot = (earlier ++ later)%list ->
  Forall (fun g : Guard => forall ctx, preserves steadily (g ctx)) earlier.
Proof.
  intros E. pose proof (steady_chain toFixed1 bot) as H. rewrite E in H.
  now apply List.Forall_app in H as [H _].
Qed.

(** ** The arity guard *)

(** C7: for an invocation that passes every guard before the arity guard,
    with declared arity [n]: when [n] is not zero the invocation is
    rejected with [command_incorrect_usage] exactly when the number of
    arguments differs from [n], and is authorized when it equals [n]; when
    [n] is zero it is authorized whatever the number of arguments. *)
Theorem arity_guard toFixed1 bot message now f command args f1 :
  guards_with bot (before_usage toFixed1 bot) message now f
  = (Normal (Authorize command args), f1) ->
  let n := default 0 (Command.args command) in
  (n <> 0 ->
   (rejection_of (guards toFixed1 bot message now f) = Some Key.command_incorrect_usage
    <-> Z.of_nat (List.length args) <> n)) /\
  (n <> 0 -> Z.of_nat (List.length args) = n ->
   guards toFixed1 bot message now f = (Normal (Authorize command args), f1)) /\
  (n = 0 -> guards toFixed1 bot message now f = (Normal (Authorize command args), f1)).
Proof.
  intros E n.
  destruct (guards_with_continue bot _ [guard_usage] _ _ _ _ _ _
              (steady_prefix toFixed1 bot _ [guard_usage] eq_refl) E) as (prefix & _ & G).
  change (guards_with bot (before_usage toFixed1 bot ++ [guard_usage])%list)
    with (guards toFixed1 bot) in G.
  rewrite G. clear G. simpl. unfold bind, guard_usage, incorrect_usage. simpl.
  fold n.
  destruct (Z.eqb_spec n (Z.of_nat (List.length args))) as [L|L];
    destruct (Z.eqb_spec n 0) as [Z0|Z0]; simpl.
  all: repeat split; intros; simpl in *;
    solve [reflexivity | discriminate | contradiction | lia].
Qed.

(** ** Guard precedence *)

Lemma find_owner_not_in owners author_id :
  ~ In author_id owners -> find_owner (Some owners) author_id = None.
Proof.
  unfold find_owner. simpl.
  assert (G : forall acc, ~ In author_id owners ->
            fold_left (fun owner thisOwner =>
                         if String.eqb author_id thisOwner then Some thisOwner else owner)
                      owners acc = acc).
  { induction owners as [|o rest IH]; intros acc H; simpl; [reflexivity|].
    destruct (String.eqb_spec author_id o) as [->|_].
    - exfalso. apply H. now left.
    - apply IH. intros I. apply H. now right. }
  apply G.
Qed.

(** With [data.owners] configured: for an invocation that passes every
    guard before the owners-only guard, of an owners-only command with a
    required user permission, by an invoker who is not in the owners list
    and who fails the user permission test, the guards answer
    [command_owners_only], not [command_no_permission], although the
    permission guard alone would reject. *)
Lemma owners_only_precedes_permissions toFixed1 bot message now f command args f1 owners p :
  guards_with bot (before_owners_only toFixed1 bot) message now f
  = (Normal (Authorize command args), f1) ->
  Command.ownersOnly command = true ->
  Data.owners (data bot) = Some owners ->
  ~ In (Message.author_id message) owners ->
  required (Command.permissions command) = Some p ->
  lacks (Message.author_perms message) p = true ->
  guards toFixed1 bot message now f
  = (Normal (Respond (Responces.command_owners_only message
                        (s (inject_Z (Z.of_nat (List.length owners))))
                        (command_name f1))), f1)
  /\ rejection_of (guards toFixed1 bot message now f) = Some Key.command_owners_only
  /\ rejection_of (guards toFixed1 bot message now f) <> Some Key.command_no_permission
  /\ forall ctx, Ctx.command ctx = command -> Ctx.message ctx = message ->
       exists call, guard_permissions ctx f1 = (Normal (Some call), f1)
                    /\ key call = Key.command_no_permission.
Proof.
  intros E OO DO NI RP LP.
  destruct (guards_with_continue bot _
              [guard_owners_only bot; guard_permissions; guard_bot_permissions; guard_usage]
              _ _ _ _ _ _
              (steady_prefix toFixed1 bot _ _ (chain_from_owners_only toFixed1 bot)) E)
    as (prefix & _ & G).
  rewrite <- chain_from_owners_only in G. fold (guards toFixed1 bot) in G.
  assert (R : guards toFixed1 bot message now f
              = (Normal (Respond (Responces.command_owners_only message
                                    (s (inject_Z (Z.of_nat (List.length owners))))
                                    (command_name f1))), f1)).
  { rewrite G. simpl. unfold bind, guard_owners_only. simpl.
    rewrite OO, DO, (find_owner_not_in _ _ NI). reflexivity. }
  split; [exact R|]. rewrite R. simpl.
  split; [reflexivity|]. split; [discriminate|].
  intros ctx Hc Hm. unfold guard_permissions. rewrite Hc, Hm, RP, LP.
  eexists. split; reflexivity.
Qed.

(** Without [data.owners], line 547 reads [length] of [undefined]: the
    owners-only guard throws where it was to answer. *)
Lemma owners_only_needs_owners_list toFixed1 bot message now f command args f1 :
  guards_with bot (before_owners_only toFixed1 bot) message now f
  = (Normal (Authorize command args), f1) ->
  Command.ownersOnly command = true ->
  Data.owners (data bot) = None ->
  guards toFixed1 bot message now f
  = (Throw (TypeError "this.data.owners is undefined"), f1).
Proof.
  intros E OO DO.
  destruct (guards_with_continue bot _
              [guard_owners_only bot; guard_permissions; guard_bot_permissions; guard_usage]
              _ _ _ _ _ _
              (steady_prefix toFixed1 bot _ _ (chain_from_owners_only toFixed1 bot)) E)
    as (prefix & _ & G).
  rewrite <- chain_from_owners_only in G. fold (guards toFixed1 bot) in G.
  rewrite G. simpl. unfold bind, guard_owners_only, find_owner. simpl.
  rewrite OO, DO. reflexivity.
Qed.

(** C8 fails on the code for a bot configured without [data.owners]: the
    owners-only command [eval], which requires the permission [X], is
    invoked by a user who is no owner and lacks [X]; every guard before
    the owners-only guard passes, the owners-only guard fails, and where
    the claim has the rejection [command_owners_only] the guards throw
    the [TypeError] of line 547, which the [catch] answers with
    [command_error]: no rejection is decided. *)
Theorem owners_only_without_owners_list_errors :
  Data.owners (data ownerless_bot) = None /\
  Command.ownersOnly eval_cmd = true /\
  find_owner (Data.owners (data ownerless_bot)) (Message.author_id (text "!eval 1")) = None /\
  required (Command.permissions eval_cmd) = Some (PermArray ["X"]) /\
  lacks (Message.author_perms (text "!eval 1")) (PermArray ["X"]) = true /\
  fst (guards_with ownerless_bot (before_owners_only half_up ownerless_bot) (text "!eval 1") 0
         (fresh empty_world))
  = Normal (Authorize eval_cmd ["1"]) /\
  fst (guards half_up ownerless_bot (text "!eval 1") 0 (fresh empty_world))
  = Throw (TypeError "this.data.owners is undefined") /\
  rejection_of (guards half_up ownerless_bot (text "!eval 1") 0 (fresh empty_world)) = None /\
  trace (__message half_up ownerless_bot (text "!eval 1") 0 empty_world)
  = [ConsoleError (TypeError "this.data.owners is undefined");
     Send Key.command_error
       (subst (Responces.command_error (text "!eval 1")
                 (TypeError "this.data.owners is undefined") "eval"))].
Proof. repeat split; vm_compute; reflexivity. Qed.

(** ** Cooldown records *)

Lemma world_after toFixed1 bot message now w c f1 :
  guards toFixed1 bot message now (fresh w) = (c, f1) ->
  world_of (__message toFixed1 bot message now w)
  = match c with
    | Normal (Authorize command args) =>
        started command (Message.author_id message) now (world f1)
    | _ => world f1
    end.
Proof.
  intros E. rewrite (message_outcome _ _ _ _ _ _ _ E). unfold caught, nothing.
  destruct c as [[|call|command args]|error]; simpl.
  - reflexivity.
  - destruct (template_error (data bot) (key call));
      [destruct (template_error (data bot) Key.command_error)|]; reflexivity.
  - destruct (Command.execute command) as [execute|];
      [destruct (execute message args)|];
      try destruct (template_error (data bot) Key.command_error); reflexivity.
  - destruct (template_error (data bot) Key.command_error); reflexivity.
Qed.

Lemma record_started command author_id now w :
  record (started command author_id now w) (Command.name command) author_id = Some now.
Proof. unfold record, started. simpl. rewrite lookup_insert_eq. apply lookup_insert_eq. Qed.

Lemma bucket_started command author_id now w :
  default ∅ (cooldowns (started command author_id now w) !! Command.name command)
    !! author_id = Some now.
Proof. unfold started. simpl. rewrite lookup_insert_eq. simpl. apply lookup_insert_eq. Qed.

Lemma record_fired t w : record (fire t w) (bucket t) (user t) = None.
Proof.
  unfold record, fire. simpl. rewrite lookup_alter_eq.
  destruct (cooldowns w !! bucket t); simpl; [apply lookup_delete_eq | reflexivity].
Qed.

(** An invocation authorized by a list of guards is authorized by every
    initial part of the list. *)
Lemma guards_with_initial bot (earlier later : list Guard) message now f command args f1 :
  guards_with bot (earlier ++ later) message now f = (Normal (Authorize command args), f1) ->
  exists f0, guards_with bot earlier message now f = (Normal (Authorize command args), f0).
Proof.
  unfold guards_with, from_prefix.
  destruct (Message.author_bot message); [discriminate|].
  destruct (JsString.truthy (Message.webhookID message)); [discriminate|].
  destruct (select_prefix _ _) as [prefix|]; [|discriminate].
  destruct (String.eqb prefix ""); [discriminate|].
  destruct (raw_args _ prefix) as [|first rest]; [discriminate|].
  unfold bind, set_command_name, get_command_name. simpl.
  destruct (String.eqb (JsString.toLowerCase first) ""); [discriminate|].
  destruct (defined _ (Client.commands (client bot)) _) as [[commands|e] f2]; [|discriminate].
  destruct (negb (Collection.has commands _)); [discriminate|].
  destruct (defined _ (resolve commands _) _) as [[command'|e] f3]; [|discriminate].
  rewrite first_failing_app.
  destruct (first_failing earlier _ f3) as [[[call|]|e] f4]; try discriminate.
  destruct (first_failing later _ f4) as [[[call|]|e] f5]; try discriminate.
  intros [= -> -> ->]. eauto.
Qed.

(** Up to the block-list guard the decision depends neither on the
    instant nor on the world. *)
Lemma guards_before_cooldown_anywhere bot message now f command args f0 now' w' :
  guards_with bot (before_cooldown bot) message now f
  = (Normal (Authorize command args), f0) ->
  guards_with bot (before_cooldown bot) message now' (fresh w')
  = (Normal (Authorize command args),
     {| world := w'; command_name := command_name f0; actions := [] |}).
Proof.
  unfold guards_with, from_prefix.
  destruct (Message.author_bot message); [discriminate|].
  destruct (JsString.truthy (Message.webhookID message)); [discriminate|].
  destruct (select_prefix _ _) as [prefix|]; [|discriminate].
  destruct (String.eqb prefix ""); [discriminate|].
  destruct (raw_args _ prefix) as [|first rest]; [discriminate|].
  unfold bind, set_command_name, get_command_name. simpl.
  destruct (String.eqb (JsString.toLowerCase first) ""); [discriminate|].
  destruct (Client.commands (client bot)) as [commands|]; [|discriminate]. simpl.
  destruct (negb (Collection.has commands _)); [discriminate|].
  destruct (resolve commands _) as [command'|]; [|discriminate]. simpl.
  unfold bind, guard_blocked. simpl.
  destruct (blocked _ _ _); [discriminate|]. simpl.
  intros [= -> -> <-]. reflexivity.
Qed.

(** During the cooldown the same invocation is answered with
    [command_cooldown]. *)
Lemma redispatch_on_cooldown toFixed1 bot message now w command args f1 eps :
  guards toFixed1 bot message now (fresh w) = (Normal (Authorize command args), f1) ->
  0 <= eps < cooldown_amount command ->
  rejection_of
    (guards toFixed1 bot message (now + eps)
       (fresh (world_of (__message toFixed1 bot message now w))))
  = Some Key.command_cooldown.
Proof.
  intros E H. rewrite (world_after _ _ _ _ _ _ _ E).
  set (w2 := started command (Message.author_id message) now (world f1)).
  destruct (guards_with_initial bot (before_cooldown bot)
              [guard_cooldown toFixed1; guard_guild_only; guard_dms_only;
               guard_owners_only bot; guard_permissions; guard_bot_permissions; guard_usage]
              _ _ _ _ _ _ E) as [f0 E0].
  pose proof (guards_before_cooldown_anywhere _ _ _ _ _ _ _ (now + eps) w2 E0) as E2.
  destruct (guards_with_continue bot (before_cooldown bot)
              [guard_cooldown toFixed1; guard_guild_only; guard_dms_only;
               guard_owners_only bot; guard_permissions; guard_bot_permissions; guard_usage]
              _ _ _ _ _ _
              (steady_prefix toFixed1 bot (before_cooldown bot) _ eq_refl) E2)
    as (prefix & _ & G).
  change (guards_with bot (before_cooldown bot ++ _)) with (guards toFixed1 bot) in G.
  rewrite G. clear G. simpl.
  unfold bind, guard_cooldown, bucket_of, bind, get_world, set_cooldowns, put_world, ret.
  simpl. rewrite lookup_insert_eq. simpl. rewrite lookup_insert_eq. simpl.
  unfold remaining. rewrite lookup_insert_eq.
  destruct (Z.ltb_spec (now + eps) (now + cooldown_amount command)); [reflexivity | lia].
Qed.

(** After the cooldown the same invocation is no longer answered with
    [command_cooldown]. *)
Lemma redispatch_after_cooldown toFixed1 bot message now w command args f1 eps :
  guards toFixed1 bot message now (fresh w) = (Normal (Authorize command args), f1) ->
  0 <= eps ->
  rejection_of
    (guards toFixed1 bot message (now + cooldown_amount command + eps)
       (fresh (world_of (__message toFixed1 bot message now w))))
  <> Some Key.command_cooldown.
Proof.
  intros E H. rewrite (world_after _ _ _ _ _ _ _ E).
  set (w2 := started command (Message.author_id message) now (world f1)).
  destruct (guards_with_initial bot (before_cooldown bot)
              [guard_cooldown toFixed1; guard_guild_only; guard_dms_only;
               guard_owners_only bot; guard_permissions; guard_bot_permissions; guard_usage]
              _ _ _ _ _ _ E) as [f0 E0].
  pose proof (guards_before_cooldown_anywhere _ _ _ _ _ _ _
                (now + cooldown_amount command + eps) w2 E0) as E2.
  destruct (guards_with_continue bot (before_cooldown bot)
              [guard_cooldown toFixed1; guard_guild_only; guard_dms_only;
               guard_owners_only bot; guard_permissions; guard_bot_permissions; guard_usage]
              _ _ _ _ _ _
              (steady_prefix toFixed1 bot (before_cooldown bot) _ eq_refl) E2)
    as (prefix & _ & G).
  change (guards_with bot (before_cooldown bot ++ _)) with (guards toFixed1 bot) in G.
  rewrite G. clear G. simpl.
  unfold bind, guard_cooldown, bucket_of, bind, get_world, set_cooldowns, put_world, ret.
  simpl. rewrite lookup_insert_eq. simpl. rewrite lookup_insert_eq. simpl.
  unfold remaining. rewrite lookup_insert_eq.
  destruct (Z.ltb_spec (now + cooldown_amount command + eps)
                       (now + cooldown_amount command)); [lia|].
  unfold guard_guild_only, guard_dms_only, guard_owners_only, guard_permissions,
    guard_bot_permissions, guard_usage, bind, defined, ret, throw. simpl.
  repeat match goal with
         | |- context [if ?b then _ else _] => destruct b; simpl
         | |- context [match ?o with Some _ => _ | None => _ end] => destruct o; simpl
         end; discriminate.
Qed.

(** ** Prefix selection *)

Lemma select_prefix_none prefixes content acc :
  Forall (fun q => JsString.startsWith content q = false) prefixes ->
  fold_left (fun prefix thisPrefix =>
               if JsString.startsWith content thisPrefix then Some thisPrefix else prefix)
            prefixes acc = acc.
Proof.
  intros H. revert acc. induction H as [|q rest Hq _ IH]; intros acc; simpl; [reflexivity|].
  rewrite Hq. apply IH.
Qed.

Lemma select_prefix_last prefixes content before p after :
  default ["!"] prefixes = (before ++ p :: after)%list ->
  JsString.startsWith content p = true ->
  Forall (fun q => JsString.startsWith content q = false) after ->
  select_prefix prefixes content = Some p.
Proof.
  intros E Hp Ha. unfold select_prefix. rewrite E, fold_left_app. simpl.
  rewrite Hp. now apply select_prefix_none.
Qed.

(** C3, as the code has it: for a message that is not from a bot or a
    webhook, the last configured prefix, in declaration order, that is a
    literal prefix of the text is the one selected, and lines 490-587 run
    with it; when no configured prefix matches, nothing is selected and the
    event is ignored without any action. *)
Theorem last_matching_prefix_selected toFixed1 bot message now w :
  Message.author_bot message = false ->
  JsString.truthy (Message.webhookID message) = false ->
  let content := Message.content message in
  let prefixes := default ["!"] (Data.prefixes (data bot)) in
  (forall before p after,
     prefixes = (before ++ p :: after)%list ->
     JsString.startsWith content p = true ->
     Forall (fun q => JsString.startsWith content q = false) after ->
     select_prefix (Data.prefixes (data bot)) content = Some p /\
     forall f, guards toFixed1 bot message now f
               = from_prefix bot (chain toFixed1 bot) message now p f) /\
  (Forall (fun q => JsString.startsWith content q = false) prefixes ->
   select_prefix (Data.prefixes (data bot)) content = None /\
   __message toFixed1 bot message now w = nothing w).
Proof.
  intros B W content prefixes. split.
  - intros before p after E Hp Ha.
    pose proof (select_prefix_last _ _ _ _ _ E Hp Ha) as S.
    split; [exact S|]. intros f. unfold guards, guards_with.
    fold content. now rewrite B, W, S.
  - intros H.
    assert (S : select_prefix (Data.prefixes (data bot)) content = None).
    { unfold select_prefix. now apply select_prefix_none. }
    split; [exact S|].
    apply message_ignored.
    unfold ignored. fold content. rewrite S. apply orb_true_r.
Qed.

Lemma last_matching_prefix_selected_witness :
  select_prefix (Some ["!"; "!!"]) "!!help" = Some "!!" /\
  raw_args "!!help" "!!" = ["help"] /\
  __message half_up two_prefix_bot (text "?help") 0 empty_world = nothing empty_world.
Proof.
  pose proof (last_matching_prefix_selected half_up two_prefix_bot (text "!!help") 0
                empty_world eq_refl eq_refl) as [H _].
  pose proof (last_matching_prefix_selected half_up two_prefix_bot (text "?help") 0
                empty_world eq_refl eq_refl) as [_ N].
  split; [|split].
  - apply (H ["!"] "!!" []); [reflexivity | reflexivity | constructor].
  - reflexivity.
  - apply N. repeat constructor.
Defined.

(** C3 fails as stated: with the prefixes [!] and [!!] and the text
    [!!help], the first matching prefix is [!], the selected one is [!!],
    and the command run is [help]. *)
Lemma first_matching_prefix_not_selected :
  List.find (JsString.startsWith "!!help") ["!"; "!!"] = Some "!" /\
  select_prefix (Some ["!"; "!!"]) "!!help" = Some "!!" /\
  trace (__message half_up two_prefix_bot (text "!!help") 0 empty_world)
  = [Execute "help" []] /\
  raw_args "!!help" "!" = ["!help"].
Proof. repeat split; vm_compute; reflexivity. Qed.

(** ** From the decision of the guards to the response *)

Lemma rejection_sent toFixed1 bot message now w call f1 :
  guards toFixed1 bot message now (fresh w) = (Normal (Respond call), f1) ->
  renders (data bot) (key call) = true ->
  __message toFixed1 bot message now w
  = {| escaped := None; world_of := world f1; trace := [Send (key call) (subst call)] |}.
Proof.
  intros E R. rewrite (message_outcome _ _ _ _ _ _ _ E).
  unfold renders in R. now destruct (template_error (data bot) (key call)).
Qed.

(** ** Dropped messages *)

(** C10: a message whose author is a bot, or that carries a webhook id,
    is dropped: no response, no handler run, no exception, the world
    (cooldowns and timers) unchanged, and the guards return at once
    whatever guards follow. *)
Theorem bot_or_webhook_dropped toFixed1 bot message now w :
  Message.author_bot message = true \/ JsString.truthy (Message.webhookID message) = true ->
  __message toFixed1 bot message now w = nothing w
  /\ forall stages f, guards_with bot stages message now f = (Normal Ignore, f).
Proof.
  intros H. split.
  - apply message_ignored. unfold ignored.
    destruct H as [-> | ->]; [reflexivity|].
    now rewrite orb_true_r.
  - intros stages f. unfold guards_with.
    destruct (Message.author_bot message); [reflexivity|].
    destruct H as [H|H]; [discriminate|]. now rewrite H.
Qed.

Lemma bot_or_webhook_dropped_witness :
  __message half_up sample_bot (from_bot "!help") 0 empty_world = nothing empty_world.
Proof.
  apply (bot_or_webhook_dropped half_up sample_bot (from_bot "!help") 0 empty_world).
  left. reflexivity.
Defined.

(** ** Aliases *)

(** A token that is not the name of a registered command is unknown,
    whatever the aliases of the registered commands. *)
Lemma unknown_unless_name bot stages message now prefix commands f :
  String.eqb prefix "" = false ->
  Client.commands (client bot) = Some commands ->
  forall first args,
    raw_args (Message.content message) prefix = first :: args ->
    String.eqb (JsString.toLowerCase first) "" = false ->
    Collection.has commands (JsString.toLowerCase first) = false ->
    rejection_of (from_prefix bot stages message now prefix f) = Some Key.command_unknown.
Proof.
  intros P C first args R N H. unfold from_prefix.
  rewrite P, R. unfold bind, set_command_name, get_command_name. simpl.
  rewrite N, C. simpl. rewrite H. reflexivity.
Qed.

(** C2 at the command [help] with alias [h]: [!help] runs the handler,
    [!h] is answered with [command_unknown]. *)
Theorem alias_dispatch_is_unknown :
  Command.aliases help = Some ["h"] /\
  Collection.get sample_commands "help" = Some help /\
  trace (__message half_up sample_bot (text "!help") 0 empty_world) = [Execute "help" []] /\
  trace (__message half_up sample_bot (text "!h") 0 empty_world)
  = [Send Key.command_unknown [("{{command}}", "h"); ("{{prefix}}", "!")]].
Proof. repeat split; vm_compute; reflexivity. Qed.

(** ** The user permission guard *)

(** Whoever lacks the [ADMINISTRATOR] flag fails the test of line 555. *)
Lemma lacks_without_administrator perms p :
  Permissions.has perms (PermString "ADMINISTRATOR") = false ->
  lacks (Some perms) p = true.
Proof. intros H. unfold lacks. rewrite H. apply orb_true_r. Qed.

(** C1 at the command [kick], which requires [KICK_MEMBERS], invoked by a
    user whose snapshot holds exactly [KICK_MEMBERS]: the invocation is
    answered with [command_no_permission]. *)
Theorem holder_of_required_permission_rejected :
  Command.permissions kick = Some (PermArray ["KICK_MEMBERS"]) /\
  Permissions.has {| Permissions.flags := ["KICK_MEMBERS"] |} (PermArray ["KICK_MEMBERS"])
  = true /\
  __message half_up sample_bot (text_from ["KICK_MEMBERS"] "!kick bob") 0 empty_world
  = {| escaped := None;
       world_of := {| cooldowns := {["kick" := ∅]}; timers := [] |};
       trace := [Send Key.command_no_permission
                   [("{{permissions}}", "KICK_MEMBERS"); ("{{s}}", "");
                    ("{{author}}", "alice"); ("{{command}}", "kick")]] |}.
Proof. repeat split; vm_compute; reflexivity. Qed.

(** ** The text of a remaining cooldown *)

(** Below ten seconds the replacements of line 536 do what the rule says. *)
Lemma time_left_text_below_ten tenths :
  (0 < tenths < 100)%N -> time_left_text tenths = duration_text_spec tenths.
Proof.
  intros H.
  assert (A : forallb (fun t => String.eqb (time_left_text (N.of_nat t))
                                           (duration_text_spec (N.of_nat t)))
                      (seq 1 99) = true) by (vm_compute; reflexivity).
  rewrite forallb_forall in A.
  specialize (A (N.to_nat tenths)). rewrite N2Nat.id in A.
  apply String.eqb_eq, A, in_seq. lia.
Qed.

(** C4 at 10.5 seconds: [toFixed(1)] shows [10.5], the rule of the
    specification keeps [10.5], line 536 renders [1.5], and this is the
    text the cooldown response of [daily] carries 19.5 seconds after a
    dispatch. *)
Theorem time_left_text_from_ten_seconds :
  toFixed1_text 105 = "10.5" /\
  duration_text_spec 105 = "10.5" /\
  time_left_text 105 = "1.5" /\
  trace (__message half_up sample_bot (text "!daily") 19500
           (world_of (__message half_up sample_bot (text "!daily") 0 empty_world)))
  = [Send Key.command_cooldown
       [("{{s}}", "s"); ("{{cooldown}}", "1.5");
        ("{{author}}", "alice"); ("{{command}}", "daily")]].
Proof. repeat split; vm_compute; reflexivity. Qed.

(** ** Interactions *)

Lemma interaction_without_handler bot interaction w :
  match Interaction.kind interaction with
  | IsCommand =>
      exists slash, Client.slash (client bot) = Some slash
                    /\ Collection.get slash (Interaction.commandName interaction) = None
  | IsButton =>
      exists buttons, Client.buttons (client bot) = Some buttons
                      /\ Collection.get buttons (Interaction.customId interaction) = None
  | IsSelectMenu =>
      exists selects, Client.selects (client bot) = Some selects
                      /\ Collection.get selects (Interaction.customId interaction) = None
  | IsOther => True
  end ->
  __interaction bot interaction w = nothing w.
Proof.
  unfold __interaction, interaction_body, run, bind.
  destruct (Interaction.kind interaction); [| | |reflexivity];
    intros (table & -> & H); simpl; rewrite H; reflexivity.
Qed.

Lemma button_or_select_error_logged bot interaction w table h e :
  (Interaction.kind interaction = IsButton /\ Client.buttons (client bot) = Some table
   \/ Interaction.kind interaction = IsSelectMenu /\ Client.selects (client bot) = Some table) ->
  Collection.get table (Interaction.customId interaction) = Some h ->
  Handler.execute h interaction = Throws e ->
  __interaction bot interaction w
  = {| escaped := None; world_of := w;
       trace := [ExecuteInteraction (Interaction.customId interaction); ConsoleError e] |}.
Proof.
  intros [[K T]|[K T]] G X;
    unfold __interaction, interaction_body, run, bind, try_catch, invoke;
    rewrite K, T; simpl; rewrite G; simpl; unfold bind; simpl; rewrite X; reflexivity.
Qed.

(** No interaction is ever replied to: the assignment to the undeclared
    [msg] throws before [interaction.reply] is reached. *)
Lemma interaction_never_replied bot interaction w :
  replies (trace (__interaction bot interaction w)) = 0%nat.
Proof.
  unfold __interaction, interaction_body, run, bind, try_catch, invoke.
  destruct (Interaction.kind interaction); simpl.
  - destruct (Client.slash (client bot)) as [slash|]; simpl; [|reflexivity].
    destruct (Collection.get slash _) as [command|]; simpl; [|reflexivity].
    unfold bind. simpl.
    destruct (Handler.execute command interaction); simpl; [reflexivity|].
    rewrite template_eq.
    destruct (template_error (data bot) Key.command_error); reflexivity.
  - destruct (Client.buttons (client bot)) as [buttons|]; simpl; [|reflexivity].
    destruct (Collection.get buttons _) as [button|]; simpl; [|reflexivity].
    unfold bind. simpl. destruct (Handler.execute button interaction); reflexivity.
  - destruct (Client.selects (client bot)) as [selects|]; simpl; [|reflexivity].
    destruct (Collection.get selects _) as [select|]; simpl; [|reflexivity].
    unfold bind. simpl. destruct (Handler.execute select interaction); reflexivity.
  - reflexivity.
Qed.

(** C9 at the slash command [ping], whose handler throws: the error is
    logged, the assignment to the undeclared [msg] throws a
    [ReferenceError] that escapes, and no reply is made. *)
Theorem command_interaction_error_not_replied :
  Collection.get [("ping", ping_slash)] "ping" = Some ping_slash /\
  Handler.execute ping_slash (ping_interaction IsCommand "ping")
  = Throws (HandlerError "boom") /\
  __interaction sample_bot (ping_interaction IsCommand "ping") empty_world
  = {| escaped := Some (ReferenceError "msg is not defined");
       world_of := empty_world;
       trace := [ExecuteInteraction "ping"; ConsoleError (HandlerError "boom")] |}.
Proof. repeat split; vm_compute; reflexivity. Qed.

(** ** The theorems at sample events *)



Lemma arity_guard_witness :
  fst (guards_with sample_bot (before_usage half_up sample_bot) (text "!ban a") 0
         (fresh empty_world))
  = Normal (Authorize ban ["a"]) /\
  Command.args ban = Some 2 /\
  rejection_of (guards half_up sample_bot (text "!ban a") 0 (fresh empty_world))
  = Some Key.command_incorrect_usage.
Proof.
  assert (G : guards_with sample_bot (before_usage half_up sample_bot) (text "!ban a") 0
                (fresh empty_world)
              = (Normal (Authorize ban ["a"]),
                 snd (guards_with sample_bot (before_usage half_up sample_bot)
                        (text "!ban a") 0 (fresh empty_world))))
    by (vm_compute; reflexivity).
  destruct (arity_guard half_up sample_bot (text "!ban a") 0 (fresh empty_world)
              ban ["a"] _ G) as (Mismatch & _ & _).
  split; [now rewrite G|]. split; [reflexivity|].
  apply Mismatch; simpl; lia.
Defined.

Lemma owners_only_precedes_permissions_witness :
  fst (guards_with sample_bot (before_owners_only half_up sample_bot) (text "!eval 1") 0
         (fresh empty_world))
  = Normal (Authorize eval_cmd ["1"]) /\
  rejection_of (guards half_up sample_bot (text "!eval 1") 0 (fresh empty_world))
  = Some Key.command_owners_only.
Proof.
  assert (G : guards_with sample_bot (before_owners_only half_up sample_bot)
                (text "!eval 1") 0 (fresh empty_world)
              = (Normal (Authorize eval_cmd ["1"]),
                 snd (guards_with sample_bot (before_owners_only half_up sample_bot)
                        (text "!eval 1") 0 (fresh empty_world))))
    by (vm_compute; reflexivity).
  split; [now rewrite G|].
  apply (owners_only_precedes_permissions half_up sample_bot (text "!eval 1") 0
           (fresh empty_world) eval_cmd ["1"] _ [] (PermArray ["X"]) G);
    [reflexivity | reflexivity | simpl; intros H; exact H | reflexivity | reflexivity].
Defined.

(** * Further properties *)

(** ** What an authorization implies *)

Lemma find_owner_some owners author_id o :
  find_owner owners author_id = Some o -> o = author_id /\ In author_id (default [] owners).
Proof.
  unfold find_owner.
  assert (G : forall l acc,
            fold_left (fun owner thisOwner =>
                         if String.eqb author_id thisOwner then Some thisOwner else owner)
                      l acc = Some o ->
            acc = Some o \/ (o = author_id /\ In author_id l)).
  { induction l as [|x l IH]; intros acc H; simpl in H; [now left|].
    destruct (IH _ H) as [E|[E I]].
    - destruct (String.eqb_spec author_id x) as [->|_].
      + injection E as <-. right. split; [reflexivity | now left].
      + now left.
    - right. split; [exact E | now right]. }
  intros H. destruct (G _ _ H) as [E|E]; [discriminate | exact E].
Qed.

(** Everything the guards have tested when they authorize. *)
Lemma authorized_inversion toFixed1 bot message now f command args f1 :
  guards toFixed1 bot message now f = (Normal (Authorize command args), f1) ->
  Message.author_bot message = false /\
  JsString.truthy (Message.webhookID message) = false /\
  exists prefix first commands,
    select_prefix (Data.prefixes (data bot)) (Message.content message) = Some prefix /\
    String.eqb prefix "" = false /\
    raw_args (Message.content message) prefix = first :: args /\
    String.eqb (JsString.toLowerCase first) "" = false /\
    command_name f1 = JsString.toLowerCase first /\
    Client.commands (client bot) = Some commands /\
    Collection.get commands (JsString.toLowerCase first) = Some command /\
    blocked (data bot) command (Message.author_id message) = false /\
    remaining (default ∅ (cooldowns (world f) !! Command.name command))
              (Message.author_id message) now (cooldown_amount command) = None /\
    Command.guildOnly command
      && negb (String.eqb (Message.channel_type message) "text") = false /\
    Command.dmsOnly command
      && negb (String.eqb (Message.channel_type message) "dm") = false /\
    Command.ownersOnly command
      && negb (JsString.truthy
                 (find_owner (Data.owners (data bot)) (Message.author_id message))) = false /\
    (forall p, required (Command.permissions command) = Some p ->
               lacks (Message.author_perms message) p = false) /\
    (forall p, required (Command.botPermissions command) = Some p ->
               lacks (Message.bot_perms message) p = false) /\
    incorrect_usage (default 0 (Command.args command)) args = false.
Proof.
  unfold guards, guards_with, from_prefix.
  destruct (Message.author_bot message); [discriminate|].
  destruct (JsString.truthy (Message.webhookID message)); [discriminate|].
  destruct (select_prefix _ _) as [prefix|]; [|discriminate].
  destruct (String.eqb prefix "") eqn:P; [discriminate|].
  destruct (raw_args _ prefix) as [|first rest] eqn:R; [discriminate|].
  unfold bind, set_command_name, get_command_name. simpl.
  destruct (String.eqb (JsString.toLowerCase first) "") eqn:N; [discriminate|].
  destruct (Client.commands (client bot)) as [commands|] eqn:C; [|discriminate]. simpl.
  unfold Collection.has, resolve.
  destruct (Collection.get commands (JsString.toLowerCase first)) as [command'|] eqn:G;
    [|discriminate]. simpl.
  unfold bind, guard_blocked, guard_cooldown, guard_guild_only, guard_dms_only,
    guard_owners_only, guard_permissions, guard_bot_permissions, guard_usage,
    bucket_of, bind, get_world, set_cooldowns, put_world, defined, ret, throw. simpl.
  destruct (blocked _ _ _) eqn:B; [discriminate|]. simpl.
  destruct (cooldowns (world f) !! Command.name command') as [ts|] eqn:L; simpl;
    [rewrite L | rewrite lookup_insert_eq]; simpl.
  all: destruct (remaining _ _ _ _) eqn:Rm; [discriminate|]; simpl.
  all: destruct (Command.guildOnly command' && _) eqn:GO; [discriminate|]; simpl.
  all: destruct (Command.dmsOnly command' && _) eqn:DO; [discriminate|]; simpl.
  all: destruct (Command.ownersOnly command' && _) eqn:OO;
    [destruct (Data.owners (data bot)); discriminate|]; simpl.
  all: destruct (required (Command.permissions command')) as [p|] eqn:RP; simpl;
    [destruct (lacks (Message.author_perms message) p) eqn:LP; [discriminate|]; simpl|].
  all: destruct (required (Command.botPermissions command')) as [q|] eqn:RQ; simpl;
    [destruct (lacks (Message.bot_perms message) q) eqn:LQ; [discriminate|]; simpl|].
  all: destruct (incorrect_usage _ _) eqn:U; [discriminate|]; simpl.
  all: intros [= -> -> <-]; simpl.
  all: repeat split; exists prefix, first, commands; rewrite L; simpl.
  all: repeat split; try assumption; try reflexivity; congruence.
Qed.
(** ** Guards the handler can never get past *)

(** X1: a command that is both [guildOnly] and [dmsOnly] is never
    authorized, whatever the channel: line 542 rejects it outside a [text]
    channel and line 543 outside a [dm] channel. *)
Theorem guild_and_dms_only_never_authorized toFixed1 bot message now f command args f1 :
  Command.guildOnly command = true ->
  Command.dmsOnly command = true ->
  guards toFixed1 bot message now f <> (Normal (Authorize command args), f1).
Proof.
  intros GO DO E.
  destruct (authorized_inversion _ _ _ _ _ _ _ _ E)
    as (_ & _ & prefix & first & commands & _ & _ & _ & _ & _ & _ & _ & _ & _ & G & D & _).
  rewrite GO in G. rewrite DO in D. simpl in G, D.
  apply negb_false_iff, String.eqb_eq in G. apply negb_false_iff, String.eqb_eq in D.
  congruence.
Qed.

Lemma guild_and_dms_only_never_authorized_witness :
  rejection_of (guards half_up owned_bot (text_of "u1" [] "!nowhere") 0 (fresh empty_world))
  = Some Key.command_dms_only /\
  forall f1,
    guards half_up owned_bot (text_of "u1" [] "!nowhere") 0 (fresh empty_world)
    <> (Normal (Authorize nowhere []), f1).
Proof.
  split; [vm_compute; reflexivity|]. intros f1.
  apply (guild_and_dms_only_never_authorized half_up owned_bot (text_of "u1" [] "!nowhere") 0
           (fresh empty_world) nowhere [] f1); reflexivity.
Defined.

(** X2: the handler of an [ownersOnly] command is only reached by an
    author whose id is in [data.owners] (and is not the empty string). *)
Theorem owners_only_authorizes_owners toFixed1 bot message now f command args f1 :
  guards toFixed1 bot message now f = (Normal (Authorize command args), f1) ->
  Command.ownersOnly command = true ->
  In (Message.author_id message) (default [] (Data.owners (data bot)))
  /\ Message.author_id message <> "".
Proof.
  intros E OO.
  destruct (authorized_inversion _ _ _ _ _ _ _ _ E)
    as (_ & _ & prefix & first & commands & _ & _ & _ & _ & _ & _ & _ & _ & _ & _ & _ & O & _).
  rewrite OO in O. simpl in O. apply negb_false_iff in O.
  destruct (find_owner _ _) as [o|] eqn:F; [|discriminate].
  destruct (find_owner_some _ _ _ F) as [-> I]. split; [exact I|].
  intros Z0. rewrite Z0 in O. discriminate.
Qed.

Lemma owners_only_authorizes_owners_witness :
  fst (guards half_up owned_bot (text_of "u1" [] "!eval 1") 0 (fresh empty_world))
  = Normal (Authorize eval_cmd ["1"]) /\
  In "u1" ["u1"; "u9"].
Proof.
  assert (G : guards half_up owned_bot (text_of "u1" [] "!eval 1") 0 (fresh empty_world)
              = (Normal (Authorize eval_cmd ["1"]),
                 snd (guards half_up owned_bot (text_of "u1" [] "!eval 1") 0
                        (fresh empty_world))))
    by (vm_compute; reflexivity).
  split; [now rewrite G|].
  apply (owners_only_authorizes_owners half_up owned_bot (text_of "u1" [] "!eval 1") 0
           (fresh empty_world) eval_cmd ["1"] _ G).
  reflexivity.
Defined.

(** X3: the handler of a command with [botPermissions] is only reached
    when the permission snapshot of the bot exists and holds the required
    flags and [ADMINISTRATOR] (line 569). *)
Theorem bot_permissions_authorize_administrators toFixed1 bot message now f command args f1 p :
  guards toFixed1 bot message now f = (Normal (Authorize command args), f1) ->
  required (Command.botPermissions command) = Some p ->
  exists perms,
    Message.bot_perms message = Some perms /\
    Permissions.has perms p = true /\
    Permissions.has perms (PermString "ADMINISTRATOR") = true.
Proof.
  intros E RP.
  destruct (authorized_inversion _ _ _ _ _ _ _ _ E)
    as (_ & _ & prefix & first & commands & _ & _ & _ & _ & _ & _ & _ & _ & _ & _ & _ & _
        & _ & B & _).
  specialize (B p RP). unfold lacks in B.
  destruct (Message.bot_perms message) as [perms|]; [|discriminate].
  apply orb_false_iff in B as [B1 B2].
  apply negb_false_iff in B1. apply negb_false_iff in B2. eauto.
Qed.

Lemma bot_permissions_authorize_administrators_witness :
  fst (guards half_up owned_bot
         (text_of "u1" ["MANAGE_MESSAGES"; "ADMINISTRATOR"] "!purge") 0 (fresh empty_world))
  = Normal (Authorize purge []) /\
  rejection_of (guards half_up owned_bot (text_of "u1" ["MANAGE_MESSAGES"] "!purge") 0
                  (fresh empty_world))
  = Some Key.command_no_bot_permission /\
  exists perms,
    Some {| Permissions.flags := ["MANAGE_MESSAGES"; "ADMINISTRATOR"] |} = Some perms /\
    Permissions.has perms (PermString "MANAGE_MESSAGES") = true /\
    Permissions.has perms (PermString "ADMINISTRATOR") = true.
Proof.
  assert (G : guards half_up owned_bot
                (text_of "u1" ["MANAGE_MESSAGES"; "ADMINISTRATOR"] "!purge") 0
                (fresh empty_world)
              = (Normal (Authorize purge []),
                 snd (guards half_up owned_bot
                        (text_of "u1" ["MANAGE_MESSAGES"; "ADMINISTRATOR"] "!purge") 0
                        (fresh empty_world))))
    by (vm_compute; reflexivity).
  split; [now rewrite G|]. split; [vm_compute; reflexivity|].
  apply (bot_permissions_authorize_administrators half_up owned_bot
           (text_of "u1" ["MANAGE_MESSAGES"; "ADMINISTRATOR"] "!purge") 0
           (fresh empty_world) purge [] _ (PermString "MANAGE_MESSAGES") G).
  reflexivity.
Defined.
(** ** The block-list guard *)

Lemma includes_In l x : JsString.includes l x = true <-> In x l.
Proof.
  unfold JsString.includes. rewrite existsb_exists. split.
  - intros (y & I & E). apply String.eqb_eq in E. now subst.
  - intros I. exists x. split; [exact I | apply String.eqb_refl].
Qed.

(** The resolution of the command touches neither the world nor the trace. *)
Lemma resolution_pure bot message now f c f1 :
  guards_with bot [] message now f = (c, f1) ->
  world f1 = world f /\ actions f1 = actions f.
Proof.
  intros E.
  apply (preserves_guards_with
           (fun f f' => world f' = world f /\ actions f' = actions f)) in E; [exact E|..].
  - intros g. split; reflexivity.
  - intros f2 f3 f4 [W1 A1] [W2 A2]. split; congruence.
  - intros v f2 c2 f3 [= <- <-]. split; reflexivity.
  - apply List.Forall_nil.
Qed.

(** The catalog key of each guard. *)
Lemma emits_guard_blocked bot : emits (guard_blocked bot) Key.command_blocked.
Proof.
  intros ctx f call f'. unfold guard_blocked, ret.
  destruct (blocked _ _ _); intros [= <- <-]; reflexivity.
Qed.

Lemma emits_guard_cooldown toFixed1 : emits (guard_cooldown toFixed1) Key.command_cooldown.
Proof.
  intros ctx f call f'. unfold guard_cooldown, bind.
  destruct (bucket_of (Ctx.command ctx) f) as [[timestamps|e] f2]; [|discriminate].
  unfold ret. destruct (remaining _ _ _ _); intros [= <- <-]; reflexivity.
Qed.

Lemma emits_guard_guild_only : emits guard_guild_only Key.command_guild_only.
Proof.
  intros ctx f call f'. unfold guard_guild_only, ret.
  destruct (_ && _); intros [= <- <-]; reflexivity.
Qed.

Lemma emits_guard_dms_only : emits guard_dms_only Key.command_dms_only.
Proof.
  intros ctx f call f'. unfold guard_dms_only, ret.
  destruct (_ && _); intros [= <- <-]; reflexivity.
Qed.

Lemma emits_guard_owners_only bot : emits (guard_owners_only bot) Key.command_owners_only.
Proof.
  intros ctx f call f'. unfold guard_owners_only, bind, defined, ret, throw.
  destruct (_ && _); [destruct (Data.owners (data bot))|]; intros [= <- <-]; reflexivity.
Qed.

Lemma emits_guard_permissions : emits guard_permissions Key.command_no_permission.
Proof.
  intros ctx f call f'. unfold guard_permissions, ret.
  destruct (required _) as [p|]; [destruct (lacks _ p)|]; intros [= <- <-]; reflexivity.
Qed.

Lemma emits_guard_bot_permissions :
  emits guard_bot_permissions Key.command_no_bot_permission.
Proof.
  intros ctx f call f'. unfold guard_bot_permissions, ret.
  destruct (required _) as [p|]; [destruct (lacks _ p)|]; intros [= <- <-]; reflexivity.
Qed.

Lemma emits_guard_usage : emits guard_usage Key.command_incorrect_usage.
Proof.
  intros ctx f call f'. unfold guard_usage, ret.
  destruct (incorrect_usage _ _); intros [= <- <-]; reflexivity.
Qed.

(** The answer of a list of guards carries the key of one of them. *)
Lemma first_failing_key (stages : list (Guard * Key.t)) ctx f call f' :
  Forall (fun gk => emits (fst gk) (snd gk)) stages ->
  first_failing (map fst stages) ctx f = (Normal (Some call), f') ->
  In (key call) (map snd stages).
Proof.
  intros H. revert f. induction H as [|[g k] rest Hg _ IH]; intros f; simpl.
  - discriminate.
  - unfold bind. destruct (g ctx f) as [[[c|]|e] f2] eqn:G.
    + intros [= <- <-]. left. symmetry. exact (Hg _ _ _ _ G).
    + intros E. right. exact (IH _ E).
    + discriminate.
Qed.

Lemma first_failing_cons (guard : Guard) (rest : list Guard) ctx f :
  first_failing (guard :: rest) ctx f
  = match guard ctx f with
    | (Normal (Some call), f') => (Normal (Some call), f')
    | (Normal None, f') => first_failing rest ctx f'
    | (Throw e, f') => (Throw e, f')
    end.
Proof.
  simpl. unfold bind. destruct (guard ctx f) as [[[call|]|e] f']; reflexivity.
Qed.

Lemma guard_blocked_eq bot ctx f :
  guard_blocked bot ctx f
  = (Normal (if blocked (data bot) (Ctx.command ctx) (Message.author_id (Ctx.message ctx))
             then Some (Responces.command_blocked (Ctx.message ctx) (Ctx.command_name ctx))
             else None), f).
Proof. unfold guard_blocked. destruct (blocked _ _ _); reflexivity. Qed.

(** The guards after the block-list guard, with their keys. *)
Lemma keys_after_blocked toFixed1 bot ctx f call f' :
  first_failing
    [guard_cooldown toFixed1; guard_guild_only; guard_dms_only; guard_owners_only bot;
     guard_permissions; guard_bot_permissions; guard_usage] ctx f
  = (Normal (Some call), f') ->
  In (key call)
     [Key.command_cooldown; Key.command_guild_only; Key.command_dms_only;
      Key.command_owners_only; Key.command_no_permission; Key.command_no_bot_permission;
      Key.command_incorrect_usage].
Proof.
  apply (first_failing_key
           [(guard_cooldown toFixed1, Key.command_cooldown);
            (guard_guild_only, Key.command_guild_only);
            (guard_dms_only, Key.command_dms_only);
            (guard_owners_only bot, Key.command_owners_only);
            (guard_permissions, Key.command_no_permission);
            (guard_bot_permissions, Key.command_no_bot_permission);
            (guard_usage, Key.command_incorrect_usage)]).
  repeat (apply List.Forall_cons;
          [simpl; auto using emits_guard_cooldown, emits_guard_guild_only,
             emits_guard_dms_only, emits_guard_owners_only, emits_guard_permissions,
             emits_guard_bot_permissions, emits_guard_usage |]).
  apply List.Forall_nil.
Qed.

(** X4: once the token resolves to a command, an author on the bot's or
    on the command's block-list who is not on the command's allow-list is
    answered with [command_blocked], before the cooldown bucket is created
    or read; every other author passes this guard, so that being on the
    allow-list overrides both block-lists. *)
Theorem block_list_guard toFixed1 bot message now f command args f1 :
  guards_with bot [] message now f = (Normal (Authorize command args), f1) ->
  let author_id := Message.author_id message in
  let listed :=
    In author_id (default [] (Data.blockedUsers (data bot)))
    \/ In author_id (default [] (Command.blockedUsers command)) in
  let allowed := In author_id (default [] (Command.unblockedUsers command)) in
  world f1 = world f /\
  (listed -> ~ allowed ->
   guards toFixed1 bot message now f
   = (Normal (Respond (Responces.command_blocked message (command_name f1))), f1)) /\
  (~ listed \/ allowed ->
   rejection_of (guards toFixed1 bot message now f) <> Some Key.command_blocked).
Proof.
  intros E author_id listed allowed.
  split; [exact (proj1 (resolution_pure _ _ _ _ _ _ E))|].
  destruct (guards_with_continue bot [] (chain toFixed1 bot) _ _ _ _ _ _
              (List.Forall_nil _) E) as (prefix & _ & G).
  change (guards_with bot ([] ++ chain toFixed1 bot)) with (guards toFixed1 bot) in G.
  rewrite G. clear G.
  assert (B : blocked (data bot) command author_id = true <-> listed /\ ~ allowed).
  { unfold blocked, listed, allowed.
    rewrite andb_true_iff, orb_true_iff, negb_true_iff, !includes_In.
    rewrite <- not_true_iff_false, includes_In. tauto. }
  change (chain toFixed1 bot)
    with (guard_blocked bot
          :: [guard_cooldown toFixed1; guard_guild_only; guard_dms_only;
              guard_owners_only bot; guard_permissions; guard_bot_permissions;
              guard_usage]).
  rewrite first_failing_cons, guard_blocked_eq.
  cbn [ctx_of Ctx.command Ctx.message Ctx.command_name]. fold author_id.
  destruct (blocked (data bot) command author_id) eqn:Bl.
  - split; [reflexivity|]. intros H. exfalso. destruct (proj1 B eq_refl). tauto.
  - split.
    + intros L NA. discriminate (proj2 B (conj L NA)).
    + intros _.
      match goal with
      | |- context [first_failing ?l ?c ?g] =>
          destruct (first_failing l c g) as [[[call|]|e] f2] eqn:F
      end; simpl; try discriminate.
      apply keys_after_blocked in F. intros [= K]. rewrite K in F.
      simpl in F. intuition discriminate.
Qed.

Lemma block_list_guard_witness :
  fst (guards_with owned_bot [] (text_of "u2" ["ADMINISTRATOR"] "!purge") 0 (fresh empty_world))
  = Normal (Authorize purge []) /\
  rejection_of (guards half_up owned_bot (text_of "u2" ["ADMINISTRATOR"] "!purge") 0
                  (fresh empty_world))
  = Some Key.command_blocked /\
  rejection_of (guards half_up owned_bot (text_of "u3" ["ADMINISTRATOR"] "!help") 0
                  (fresh empty_world))
  = Some Key.command_blocked.
Proof.
  assert (G : guards_with owned_bot [] (text_of "u2" ["ADMINISTRATOR"] "!purge") 0
                (fresh empty_world)
              = (Normal (Authorize purge []),
                 snd (guards_with owned_bot [] (text_of "u2" ["ADMINISTRATOR"] "!purge") 0
                        (fresh empty_world))))
    by (vm_compute; reflexivity).
  split; [now rewrite G|]. split; [|vm_compute; reflexivity].
  destruct (block_list_guard half_up owned_bot (text_of "u2" ["ADMINISTRATOR"] "!purge") 0
              (fresh empty_world) purge [] _ G) as (_ & Blocked & _).
  rewrite Blocked; [reflexivity | right; simpl; now left | simpl; intros H; exact H].
Defined.
(** ** Unknown tokens *)

(** X5: a message that is not ignored and whose case-folded first token is
    not the key of a registered command is answered, when the catalog has
    a [command_unknown] template, with exactly one [command_unknown]
    response that carries the case-folded token and the selected prefix;
    the world is left as it was. *)
Theorem unknown_token_answered toFixed1 bot message now w commands prefix first rest :
  ignored bot message = false ->
  Client.commands (client bot) = Some commands ->
  select_prefix (Data.prefixes (data bot)) (Message.content message) = Some prefix ->
  raw_args (Message.content message) prefix = first :: rest ->
  Collection.has commands (JsString.toLowerCase first) = false ->
  renders (data bot) Key.command_unknown = true ->
  __message toFixed1 bot message now w
  = {| escaped := None; world_of := w;
       trace := [Send Key.command_unknown
                   [("{{command}}", JsString.toLowerCase first); ("{{prefix}}", prefix)]] |}.
Proof.
  intros I C S R H Rn.
  assert (G : guards toFixed1 bot message now (fresh w)
              = (Normal (Respond (Responces.command_unknown message
                                    (JsString.toLowerCase first) prefix)),
                 {| world := w; command_name := JsString.toLowerCase first;
                    actions := [] |})).
  { unfold ignored in I. unfold guards, guards_with, from_prefix.
    rewrite S, R in *.
    destruct (Message.author_bot message); [discriminate|].
    destruct (JsString.truthy (Message.webhookID message)); [discriminate|].
    simpl in I. apply orb_false_iff in I as [P N].
    rewrite P. unfold bind, set_command_name, get_command_name. simpl.
    rewrite N, C. simpl. rewrite H. reflexivity. }
  rewrite (rejection_sent _ _ _ _ _ _ _ G Rn). reflexivity.
Qed.

Lemma unknown_token_answered_witness :
  __message half_up sample_bot (text "!  FOO bar") 7 empty_world
  = {| escaped := None; world_of := empty_world;
       trace := [Send Key.command_unknown [("{{command}}", "foo"); ("{{prefix}}", "!")]] |}.
Proof.
  apply (unknown_token_answered half_up sample_bot (text "!  FOO bar") 7 empty_world
           sample_commands "!" "FOO" ["bar"]); reflexivity.
Defined.

(** ** What one dispatch leaves alone *)

Lemma record_started_other command author_id now w c u :
  c <> Command.name command \/ u <> author_id ->
  record (started command author_id now w) c u = record w c u.
Proof.
  intros H. unfold record, started. simpl.
  destruct (decide (Command.name command = c)) as [<-|Hc].
  - rewrite lookup_insert_eq.
    destruct H as [H|H]; [congruence|].
    rewrite lookup_insert_ne by congruence.
    destruct (cooldowns w !! Command.name command); [reflexivity | apply lookup_empty].
  - now rewrite lookup_insert_ne.
Qed.

(** X6: one activation of [__message] never changes the cooldown record
    of another user, changes the record of the author only for the command
    the guards authorize, and arms at most one timer, leaving the timers
    armed before in place. *)
Theorem dispatch_frame toFixed1 bot message now w :
  let o := __message toFixed1 bot message now w in
  (forall c u, u <> Message.author_id message ->
     record (world_of o) c u = record w c u) /\
  (forall command args f1,
     guards toFixed1 bot message now (fresh w) = (Normal (Authorize command args), f1) ->
     forall c u, c <> Command.name command -> record (world_of o) c u = record w c u) /\
  (exists armed_now,
     timers (world_of o) = (timers w ++ armed_now)%list /\ (List.length armed_now <= 1)%nat).
Proof.
  intros o. subst o.
  destruct (guards toFixed1 bot message now (fresh w)) as [c f1] eqn:E.
  rewrite (world_after _ _ _ _ _ _ _ E).
  assert (Q : same_records w (world f1)).
  { apply (quiet_guards_with bot (chain toFixed1 bot)) in E as [_ Q];
      [exact Q | apply quiet_chain]. }
  destruct Q as [QT QR].
  split; [|split].
  - intros c' u Hu.
    destruct c as [[|call|command args]|error]; try apply QR.
    rewrite record_started_other by now right. apply QR.
  - intros command args f2 [= -> <-] c' u Hc.
    rewrite record_started_other by now left. apply QR.
  - destruct c as [[|call|command args]|error];
      try (exists []; rewrite app_nil_r; split; [exact QT | simpl; lia]).
    eexists [_]. unfold started. simpl. rewrite QT. split; [reflexivity | simpl; lia].
Qed.

Lemma dispatch_frame_witness :
  record (world_of (__message half_up sample_bot (text "!ban a b") 5
                      (world_of (__message half_up sample_bot (text "!help") 0 empty_world))))
         "help" "u1" = Some 0.
Proof.
  assert (G : guards half_up sample_bot (text "!ban a b") 5
                (fresh (world_of (__message half_up sample_bot (text "!help") 0 empty_world)))
              = (Normal (Authorize ban ["a"; "b"]),
                 snd (guards half_up sample_bot (text "!ban a b") 5
                        (fresh (world_of (__message half_up sample_bot (text "!help") 0
                                            empty_world))))))
    by (vm_compute; reflexivity).
  destruct (dispatch_frame half_up sample_bot (text "!ban a b") 5
              (world_of (__message half_up sample_bot (text "!help") 0 empty_world)))
    as (_ & Other & _).
  rewrite (Other ban ["a"; "b"] _ G "help" "u1"); [vm_compute; reflexivity | discriminate].
Defined.

(** ** A cooldown cannot be switched off *)

Lemma cooldown_amount_positive command :
  (forall c, Command.cooldown command = Some c -> 0 <= c) -> 0 < cooldown_amount command.
Proof.
  intros H. unfold cooldown_amount.
  destruct (Command.cooldown command) as [c|]; [|lia].
  specialize (H c eq_refl). destruct (Z.eqb_spec c 0); lia.
Qed.

(** X7: whatever non-negative [cooldown] a command declares, also [0] or
    none at all, the same invocation repeated at the very instant of an
    authorized dispatch is answered with [command_cooldown]:
    [command.cooldown || 1] turns a cooldown of zero into one second. *)
Theorem repeated_at_once_rejected toFixed1 bot message now w command args f1 :
  guards toFixed1 bot message now (fresh w) = (Normal (Authorize command args), f1) ->
  (forall c, Command.cooldown command = Some c -> 0 <= c) ->
  1000 <= cooldown_amount command /\
  rejection_of
    (guards toFixed1 bot message now
       (fresh (world_of (__message toFixed1 bot message now w))))
  = Some Key.command_cooldown.
Proof.
  intros E H. pose proof (cooldown_amount_positive command H) as P.
  split.
  - unfold cooldown_amount in *. destruct (Command.cooldown command) as [c|]; [|lia].
    specialize (H c eq_refl). destruct (Z.eqb_spec c 0); lia.
  - pose proof (redispatch_on_cooldown toFixed1 bot message now w command args f1 0 E) as R.
    rewrite Z.add_0_r in R. apply R. lia.
Qed.

Lemma repeated_at_once_rejected_witness :
  Command.cooldown purge = Some 0 /\
  rejection_of
    (guards half_up owned_bot (text_of "u1" ["ADMINISTRATOR"; "MANAGE_MESSAGES"] "!purge") 3
       (fresh (world_of (__message half_up owned_bot
                           (text_of "u1" ["ADMINISTRATOR"; "MANAGE_MESSAGES"] "!purge") 3
                           empty_world))))
  = Some Key.command_cooldown.
Proof.
  assert (G : guards half_up owned_bot
                (text_of "u1" ["ADMINISTRATOR"; "MANAGE_MESSAGES"] "!purge") 3
                (fresh empty_world)
              = (Normal (Authorize purge []),
                 snd (guards half_up owned_bot
                        (text_of "u1" ["ADMINISTRATOR"; "MANAGE_MESSAGES"] "!purge") 3
                        (fresh empty_world))))
    by (vm_compute; reflexivity).
  split; [reflexivity|].
  apply (repeated_at_once_rejected half_up owned_bot
           (text_of "u1" ["ADMINISTRATOR"; "MANAGE_MESSAGES"] "!purge") 3 empty_world
           purge [] _ G).
  intros c [= <-]. lia.
Defined.
(** ** Records and timers in every reachable world *)

Lemma record_fire t w c u :
  record (fire t w) c u
  = if decide (bucket t = c /\ user t = u) then None else record w c u.
Proof.
  unfold record, fire. simpl. rewrite lookup_alter.
  destruct (decide (bucket t = c)) as [<-|Hc].
  - destruct (cooldowns w !! bucket t) as [ts|]; simpl.
    + destruct (decide (user t = u)) as [<-|Hu].
      * rewrite lookup_delete_eq. now rewrite decide_True.
      * rewrite lookup_delete_ne by exact Hu. rewrite decide_False; [reflexivity | tauto].
    + now destruct (decide _).
  - rewrite decide_False; [reflexivity | tauto].
Qed.

(** X8: in every world a running bot can reach from the empty one, by
    dispatching messages and by firing armed eviction timers in any order
    and at any instants, each cooldown record [(command, user) -> t] has a
    timer for that command and user that was armed at [t]: no record is
    left without its eviction. *)
Theorem records_are_backed toFixed1 bot w :
  reachable toFixed1 bot w -> backed w.
Proof.
  induction 1 as [|w w' _ IH S].
  - intros c u t. unfold record, empty_world. simpl. rewrite lookup_empty. discriminate.
  - destruct S as [message now w | t w I].
    + destruct (guards toFixed1 bot message now (fresh w)) as [c f1] eqn:E.
      rewrite (world_after _ _ _ _ _ _ _ E).
      assert (Q : same_records w (world f1)).
      { apply (quiet_guards_with bot (chain toFixed1 bot)) in E as [_ Q];
          [exact Q | apply quiet_chain]. }
      destruct Q as [QT QR].
      assert (B1 : backed (world f1)).
      { intros c' u t R. rewrite QR in R. destruct (IH _ _ _ R) as [a I].
        exists a. now rewrite QT. }
      destruct c as [[|call|command args]|error]; try exact B1.
      intros c' u t R.
      destruct (decide (c' = Command.name command /\ u = Message.author_id message))
        as [[-> ->]|N].
      * rewrite record_started in R. injection R as <-.
        exists (cooldown_amount command). unfold started. simpl.
        apply in_or_app. right. now left.
      * rewrite record_started_other in R.
        -- destruct (B1 _ _ _ R) as [a I]. exists a. unfold started. simpl.
           apply in_or_app. now left.
        -- destruct (decide (c' = Command.name command)); [right | left]; tauto.
    + intros c u x R. rewrite record_fire in R.
      destruct (decide _); [discriminate|]. exact (IH _ _ _ R).
Qed.

Lemma records_are_backed_witness :
  exists amount,
    In {| armed := 0; delay := amount; bucket := "help"; user := "u1" |}
       (timers (world_of (__message half_up sample_bot (text "!ban a b") 5
                            (world_of (__message half_up sample_bot (text "!help") 0
                                         empty_world))))).
Proof.
  apply (records_are_backed half_up sample_bot).
  - apply reachable_step
      with (w := world_of (__message half_up sample_bot (text "!help") 0 empty_world)).
    + apply reachable_step with (w := empty_world);
        [apply reachable_start | apply step_message].
    + apply step_message.
  - vm_compute. reflexivity.
Defined.

(** ** A fired timer *)

Lemma bucket_of_eq command f :
  bucket_of command f
  = (Normal (default ∅ (cooldowns (world f) !! Command.name command)),
     with_bucket (Command.name command) f).
Proof.
  unfold bucket_of, with_bucket, bind, get_world, set_cooldowns, put_world, ret.
  destruct (cooldowns (world f) !! Command.name command) eqn:L; simpl.
  - now rewrite L.
  - now rewrite lookup_insert_eq.
Qed.

Lemma guard_cooldown_eq toFixed1 ctx f :
  guard_cooldown toFixed1 ctx f
  = (Normal
       match remaining (default ∅ (cooldowns (world f) !! Command.name (Ctx.command ctx)))
                       (Message.author_id (Ctx.message ctx)) (Ctx.now ctx)
                       (cooldown_amount (Ctx.command ctx)) with
       | Some time_left =>
           Some (Responces.command_cooldown (Ctx.message ctx)
                   (s (parseFloat_toFixed1 (toFixed1 time_left)))
                   (time_left_text (toFixed1 time_left))
                   (Ctx.command_name ctx))
       | None => None
       end,
     with_bucket (Command.name (Ctx.command ctx)) f).
Proof.
  unfold guard_cooldown, bind. rewrite bucket_of_eq.
  destruct (remaining _ _ _ _); reflexivity.
Qed.

(** The guards after the cooldown guard, with their keys. *)
Lemma keys_after_cooldown bot ctx f call f' :
  first_failing
    [guard_guild_only; guard_dms_only; guard_owners_only bot;
     guard_permissions; guard_bot_permissions; guard_usage] ctx f
  = (Normal (Some call), f') ->
  In (key call)
     [Key.command_guild_only; Key.command_dms_only;
      Key.command_owners_only; Key.command_no_permission; Key.command_no_bot_permission;
      Key.command_incorrect_usage].
Proof.
  apply (first_failing_key
           [(guard_guild_only, Key.command_guild_only);
            (guard_dms_only, Key.command_dms_only);
            (guard_owners_only bot, Key.command_owners_only);
            (guard_permissions, Key.command_no_permission);
            (guard_bot_permissions, Key.command_no_bot_permission);
            (guard_usage, Key.command_incorrect_usage)]).
  repeat (apply List.Forall_cons;
          [simpl; auto using emits_guard_guild_only,
             emits_guard_dms_only, emits_guard_owners_only, emits_guard_permissions,
             emits_guard_bot_permissions, emits_guard_usage |]).
  apply List.Forall_nil.
Qed.

(** X9: the callback of an eviction timer deletes the record of its user
    in its bucket whichever dispatch wrote that record, also a later one
    than the dispatch that armed the timer; once it has run, an invocation
    of that command by that user is not answered with [command_cooldown],
    at whatever instant. *)
Theorem fired_timer_ends_cooldown toFixed1 bot message now w command args f0 t now' :
  guards_with bot (before_cooldown bot) message now (fresh w)
  = (Normal (Authorize command args), f0) ->
  bucket t = Command.name command ->
  user t = Message.author_id message ->
  record (fire t w) (Command.name command) (Message.author_id message) = None /\
  rejection_of (guards toFixed1 bot message now' (fresh (fire t w)))
  <> Some Key.command_cooldown.
Proof.
  intros E Hb Hu. split; [rewrite <- Hb, <- Hu; apply record_fired|].
  pose proof (guards_before_cooldown_anywhere _ _ _ _ _ _ _ now' (fire t w) E) as E2.
  destruct (guards_with_continue bot (before_cooldown bot)
              [guard_cooldown toFixed1; guard_guild_only; guard_dms_only;
               guard_owners_only bot; guard_permissions; guard_bot_permissions; guard_usage]
              _ _ _ _ _ _
              (steady_prefix toFixed1 bot (before_cooldown bot) _ eq_refl) E2)
    as (prefix & _ & G).
  change (guards_with bot (before_cooldown bot ++ _)) with (guards toFixed1 bot) in G.
  rewrite G. clear G.
  rewrite first_failing_cons, guard_cooldown_eq.
  cbn [ctx_of Ctx.command Ctx.message Ctx.command_name Ctx.now world].
  assert (R : remaining (default ∅ (cooldowns (fire t w) !! Command.name command))
                        (Message.author_id message) now' (cooldown_amount command) = None).
  { unfold remaining, fire. simpl. rewrite <- Hb, <- Hu, lookup_alter_eq.
    destruct (cooldowns w !! bucket t); simpl; [now rewrite lookup_delete_eq|].
    now rewrite lookup_empty. }
  rewrite R.
  match goal with
  | |- context [first_failing ?l ?c ?g] =>
      destruct (first_failing l c g) as [[[call|]|e] f2] eqn:F
  end; simpl; try discriminate.
  apply keys_after_cooldown in F. intros [= K]. rewrite K in F.
  simpl in F. intuition discriminate.
Qed.

Lemma fired_timer_ends_cooldown_witness :
  record (world_of (__message half_up sample_bot (text "!help") 0 empty_world)) "help" "u1"
  = Some 0 /\
  rejection_of
    (guards half_up sample_bot (text "!help") 1
       (fresh (fire {| armed := 0; delay := 1000; bucket := "help"; user := "u1" |}
                    (world_of (__message half_up sample_bot (text "!help") 0 empty_world)))))
  <> Some Key.command_cooldown.
Proof.
  assert (G : guards_with sample_bot (before_cooldown sample_bot) (text "!help") 0
                (fresh (world_of (__message half_up sample_bot (text "!help") 0 empty_world)))
              = (Normal (Authorize help []),
                 snd (guards_with sample_bot (before_cooldown sample_bot) (text "!help") 0
                        (fresh (world_of (__message half_up sample_bot (text "!help") 0
                                            empty_world))))))
    by (vm_compute; reflexivity).
  split; [vm_compute; reflexivity|].
  apply (fired_timer_ends_cooldown half_up sample_bot (text "!help") 0 _ help [] _
           {| armed := 0; delay := 1000; bucket := "help"; user := "u1" |} 1 G);
    reflexivity.
Defined.
(** ** Tokens *)

Lemma space_is_white c : JsString.is_space c = true -> JsString.is_white c = true.
Proof.
  unfold JsString.is_space, JsString.is_white. intros H.
  rewrite H. apply orb_true_r.
Qed.

Lemma trimStart_starts s : starts_with_space (JsString.trimStart s) = false.
Proof.
  induction s as [|c r IH]; simpl; [reflexivity|].
  destruct (JsString.is_white c) eqn:W; [exact IH|]. simpl.
  destruct (JsString.is_space c) eqn:S; [|reflexivity].
  apply space_is_white in S. congruence.
Qed.

Lemma trimEnd_empty s : JsString.trimEnd s = "" -> JsString.all_white s = true.
Proof.
  destruct s as [|c r]; [reflexivity|]. cbn [JsString.trimEnd].
  destruct (JsString.all_white (String c r)); [reflexivity | discriminate].
Qed.

Lemma trimEnd_ends s : ends_in_space (JsString.trimEnd s) = false.
Proof.
  induction s as [|c r IH]; [reflexivity|]. cbn [JsString.trimEnd].
  destruct (JsString.all_white (String c r)) eqn:A; [reflexivity|].
  cbn [ends_in_space]. destruct (JsString.trimEnd r) as [|c' r'] eqn:T; [|exact IH].
  apply trimEnd_empty in T. cbn [JsString.all_white] in A. rewrite T, andb_true_r in A.
  destruct (JsString.is_space c) eqn:S; [|reflexivity].
  apply space_is_white in S. congruence.
Qed.

Lemma trimEnd_starts s :
  starts_with_space s = false -> starts_with_space (JsString.trimEnd s) = false.
Proof.
  destruct s as [|c r]; [reflexivity|]. cbn [JsString.trimEnd].
  destruct (JsString.all_white (String c r)); [reflexivity | exact (fun H => H)].
Qed.

Lemma split_go_nonempty in_run cur s : JsString.split_go in_run cur s <> [].
Proof.
  revert in_run cur. induction s as [|c r IH]; intros in_run cur; simpl; [discriminate|].
  destruct (JsString.is_space c); [destruct in_run|]; try apply IH. discriminate.
Qed.

Lemma spaceless_app a b : spaceless (a ++ b) = spaceless a && spaceless b.
Proof.
  induction a as [|c r IH]; [reflexivity|].
  change (spaceless (String c (r ++ b)) = spaceless (String c r) && spaceless b).
  simpl. now rewrite IH, andb_assoc.
Qed.

Lemma split_go_spaceless in_run cur s :
  spaceless cur = true ->
  Forall (fun token => spaceless token = true) (JsString.split_go in_run cur s).
Proof.
  revert in_run cur. induction s as [|c r IH]; intros in_run cur H; simpl.
  - now constructor.
  - destruct (JsString.is_space c) eqn:S.
    + destruct in_run; [now apply IH|]. constructor; [exact H | now apply IH].
    + apply IH. rewrite spaceless_app, H. simpl. now rewrite S.
Qed.

Lemma app_not_empty (a : string) c : (a ++ String c "")%string <> "".
Proof. destruct a; discriminate. Qed.

(** No token is empty when the text neither ends in a space nor, at the
    start of a token, begins with one. *)
Lemma split_go_words in_run cur s :
  ends_in_space s = false ->
  (s = "" -> cur <> "") ->
  (in_run = false -> cur = "" -> starts_with_space s = false) ->
  Forall (fun token => token <> "") (JsString.split_go in_run cur s).
Proof.
  revert in_run cur. induction s as [|c r IH]; intros in_run cur E N S; simpl.
  - constructor; [now apply N | constructor].
  - assert (Er : JsString.is_space c = true -> r <> "" /\ ends_in_space r = false).
    { intros Sp. destruct r as [|c' r']; [simpl in E; congruence|].
      split; [discriminate | exact E]. }
    assert (Er' : ends_in_space r = false).
    { destruct r as [|c' r']; [reflexivity | exact E]. }
    destruct (JsString.is_space c) eqn:Sp.
    + destruct (Er eq_refl) as [Rn Re]. destruct in_run.
      * apply IH; [exact Re | intros Z; contradiction | discriminate].
      * constructor.
        -- intros Z. specialize (S eq_refl Z). simpl in S. congruence.
        -- apply IH; [exact Re | intros Z; contradiction | discriminate].
    + apply IH; [exact Er' | intros _; apply app_not_empty |].
      intros _ Z. now apply app_not_empty in Z.
Qed.

(** X10: whatever the text and the prefix, tokenizing (line 492) yields a
    first token, so that line 493 never reads [undefined]; no token
    contains a space; an argument is never empty; and the first token is
    empty only when there is no argument. *)
Theorem tokens_are_words content prefix :
  exists first args,
    raw_args content prefix = first :: args /\
    spaceless first = true /\
    Forall word args /\
    (first = "" -> args = []).
Proof.
  unfold raw_args, JsString.split_spaces.
  set (t := JsString.trim (JsString.slice (String.length prefix) content)).
  assert (Te : ends_in_space t = false) by apply trimEnd_ends.
  assert (Ts : starts_with_space t = false) by apply trimEnd_starts, trimStart_starts.
  pose proof (split_go_spaceless false "" t eq_refl) as Sp.
  destruct (JsString.split_go false "" t) as [|first args] eqn:G;
    [now apply split_go_nonempty in G|].
  exists first, args. split; [reflexivity|].
  inversion Sp as [|? ? S1 S2]; subst. split; [exact S1|].
  destruct t as [|c r] eqn:T.
  - simpl in G. injection G as <- <-. split; [constructor | reflexivity].
  - assert (W : Forall (fun token => token <> "") (JsString.split_go false "" (String c r))).
    { apply split_go_words; [exact Te | discriminate | intros _ _; exact Ts]. }
    rewrite G in W. inversion W as [|? ? W1 W2]; subst. split.
    + clear - S2 W2. induction args as [|a l IH]; constructor.
      * inversion S2; inversion W2; subst. split; assumption.
      * inversion S2; inversion W2; subst. now apply IH.
    + intros Z. contradiction.
Qed.

Lemma tokens_are_words_witness :
  exists first args,
    raw_args "!  Ban   alice  7 " "!" = first :: args /\
    spaceless first = true /\
    Forall word args /\
    (first = "" -> args = []).
Proof. exact (tokens_are_words "!  Ban   alice  7 " "!"). Defined.

(** ** Joining and splitting *)

Lemma append_nil_r (a : string) : (a ++ "")%string = a.
Proof.
  induction a as [|c r IH]; [reflexivity|].
  change (String c (r ++ "") = String c r). now rewrite IH.
Qed.

Lemma append_assoc (a b c : string) : ((a ++ b) ++ c)%string = (a ++ (b ++ c))%string.
Proof.
  induction a as [|x r IH]; [reflexivity|].
  change (String x ((r ++ b) ++ c) = String x (r ++ (b ++ c))). now rewrite IH.
Qed.

Lemma split_go_word cur token s :
  spaceless token = true ->
  JsString.split_go false cur (token ++ s) = JsString.split_go false (cur ++ token) s.
Proof.
  revert cur. induction token as [|c r IH]; intros cur H; simpl.
  - now rewrite append_nil_r.
  - simpl in H. apply andb_true_iff in H as [Hc Hr].
    apply negb_true_iff in Hc. rewrite Hc, IH by exact Hr.
    f_equal. now rewrite append_assoc.
Qed.

Lemma split_go_after_run token s :
  word token ->
  JsString.split_go true "" (token ++ s) = JsString.split_go false "" (token ++ s).
Proof.
  intros [N H]. destruct token as [|c r]; [contradiction|]. simpl.
  simpl in H. apply andb_true_iff in H as [Hc _]. apply negb_true_iff in Hc.
  now rewrite Hc.
Qed.

Lemma split_go_join token rest :
  word token -> Forall word rest ->
  JsString.split_go false "" (JsString.join " " (token :: rest)) = token :: rest.
Proof.
  intros W R. revert token W. induction R as [|next rest Wn _ IH]; intros token W.
  - simpl. rewrite <- (append_nil_r token) at 1.
    rewrite split_go_word by apply W. reflexivity.
  - change (JsString.join " " (token :: next :: rest))
      with (token ++ String " " (JsString.join " " (next :: rest)))%string.
    rewrite split_go_word by apply W. simpl. f_equal.
    specialize (IH next Wn).
    destruct rest as [|third rest'].
    + simpl in *. rewrite <- (append_nil_r next) at 1.
      rewrite split_go_after_run by exact Wn. rewrite append_nil_r. exact IH.
    + change (JsString.join " " (next :: third :: rest'))
        with (next ++ String " " (JsString.join " " (third :: rest')))%string in *.
      rewrite split_go_after_run by exact Wn. exact IH.
Qed.

(** X11: splitting on runs of spaces undoes joining with single spaces:
    a non-empty list of words, joined and split again, is the list
    itself. *)
Theorem split_join_words tokens :
  tokens <> [] -> Forall word tokens ->
  JsString.split_spaces (JsString.join " " tokens) = tokens.
Proof.
  intros N W. destruct tokens as [|token rest]; [contradiction|].
  inversion W; subst. now apply split_go_join.
Qed.

Lemma split_join_words_witness :
  JsString.split_spaces (JsString.join " " ["ban"; "a"; "b"]) = ["ban"; "a"; "b"].
Proof.
  apply split_join_words; [discriminate|].
  repeat constructor; discriminate.
Defined.
(** ** Placeholders *)

Lemma indexOf_none_cons pattern c rest :
  JsString.indexOf pattern (String c rest) = None ->
  String.prefix pattern (String c rest) = false /\ JsString.indexOf pattern rest = None.
Proof.
  cbn [JsString.indexOf].
  destruct (String.prefix pattern (String c rest)); [discriminate|].
  destruct (JsString.indexOf pattern rest); [discriminate | auto].
Qed.

Lemma replace_go_absent pattern value before text :
  JsString.indexOf pattern text = None ->
  JsReplace.replace_go pattern value before 0 text = text.
Proof.
  revert before. induction text as [|c rest IH]; intros before H; [reflexivity|].
  apply indexOf_none_cons in H as [P N].
  cbn [JsReplace.replace_go]. rewrite P. f_equal. now apply IH.
Qed.

(** A text without the placeholder is left as it is, whatever the value. *)
Lemma replace_all_absent pattern value text :
  JsString.indexOf pattern text = None ->
  JsReplace.replace_all pattern value text = text.
Proof. apply replace_go_absent. Qed.

(** ** Values with and without substitution patterns *)

Lemma append_cons c (r b : string) : (String c r ++ b)%string = String c (r ++ b)%string.
Proof. reflexivity. Qed.

Lemma prefix_cons c r d t :
  String.prefix (String c r) (String d t) = true -> c = d /\ String.prefix r t = true.
Proof.
  simpl. destruct (Ascii.ascii_dec c d); [auto | discriminate].
Qed.

Lemma prefix_split p : forall text,
  String.prefix p text = true -> text = (p ++ JsString.slice (String.length p) text)%string.
Proof.
  induction p as [|c r IH]; intros text H.
  - now destruct text.
  - destruct text as [|d t]; [discriminate|].
    apply prefix_cons in H as [<- H]. rewrite append_cons. simpl. f_equal. now apply IH.
Qed.

Lemma prefix_app p b : String.prefix p (p ++ b) = true.
Proof.
  induction p as [|c r IH]; [now destruct b|].
  rewrite append_cons. simpl. now destruct (Ascii.ascii_dec c c).
Qed.

Lemma slice_app r b : JsString.slice (String.length r) (r ++ b) = b.
Proof.
  induction r as [|c r IH]; [now destruct b|]. rewrite append_cons. exact IH.
Qed.

Lemma slice_empty k : JsString.slice k "" = "".
Proof. now destruct k. Qed.

Lemma expand_ampersand matched before after :
  JsReplace.expand matched before after "$&" = matched.
Proof. cbn. apply append_nil_r. Qed.

(** With the value [$&] every match is put back. *)
Lemma replace_go_ampersand pattern :
  pattern <> "" ->
  forall text k before,
    JsReplace.replace_go pattern "$&" before k text = JsString.slice k text.
Proof.
  intros N content. induction content as [|c rest IH]; intros k before.
  - now rewrite slice_empty.
  - destruct k as [|k]; cbn [JsReplace.replace_go JsString.slice]; [|apply IH].
    destruct (String.prefix pattern (String c rest)) eqn:P.
    + rewrite expand_ampersand, IH.
      destruct pattern as [|d r]; [contradiction|].
      apply prefix_cons in P as [-> P].
      rewrite append_cons. f_equal. simpl. rewrite Nat.sub_0_r.
      symmetry. now apply prefix_split.
    + now rewrite IH.
Qed.

(** X12: the values are substitution patterns, and [$&] stands for the
    match itself: a placeholder whose value is [$&] (a command typed as
    [$&], for instance) is left in the description as it is, so that a
    call all of whose placeholders either have this value or do not occur
    in the template sends the template word for word. *)
Theorem ampersand_restores_placeholder template call :
  Forall (fun placeholder =>
            (fst placeholder <> "" /\ snd placeholder = "$&")
            \/ JsString.indexOf (fst placeholder) template = None)
         (subst call) ->
  describe template call = template.
Proof.
  unfold describe. induction 1 as [|[pattern value] rest H _ IH]; [reflexivity|].
  simpl. simpl in H. destruct H as [[N ->]|H].
  - unfold JsReplace.replace_all. rewrite (replace_go_ampersand _ N). exact IH.
  - rewrite (replace_all_absent _ _ _ H). exact IH.
Qed.

Lemma ampersand_restores_placeholder_witness :
  describe "No command {{command}}" (Responces.command_unknown (text "!$&") "$&" "!")
  = "No command {{command}}".
Proof.
  apply ampersand_restores_placeholder. constructor.
  - left. split; [discriminate | reflexivity].
  - constructor; [|constructor]. right. reflexivity.
Defined.

Lemma expand_plain matched before after value :
  JsReplace.plain value = true -> JsReplace.expand matched before after value = value.
Proof.
  induction value as [|c rest IH]; [reflexivity|].
  cbn [JsReplace.plain JsReplace.expand]. destruct (Ascii.eqb c "$"); [discriminate|].
  simpl. intros P. now rewrite IH.
Qed.

(** For a value without [$], neither the text read so far nor the
    characters still to skip matter beyond their number. *)
Lemma replace_go_plain pattern value :
  JsReplace.plain value = true ->
  forall text k before before',
    JsReplace.replace_go pattern value before k text
    = JsReplace.replace_go pattern value before' 0 (JsString.slice k text).
Proof.
  intros V content. induction content as [|c rest IH]; intros k before before'.
  - now rewrite slice_empty.
  - destruct k as [|k]; cbn [JsReplace.replace_go JsString.slice]; [|apply IH].
    rewrite !(expand_plain _ _ _ _ V).
    rewrite (IH (String.length pattern - 1)%nat (before ++ String c "")%string
               (before' ++ String c "")%string).
    rewrite (IH 0%nat (before ++ String c "")%string (before' ++ String c "")%string).
    cbn [JsString.slice].
    destruct (String.prefix pattern (String c rest)); [|reflexivity].
    f_equal. symmetry. apply IH.
Qed.

(** X13: a value without [$] is inserted as it is, at every occurrence,
    from left to right: where the first occurrence of the placeholder
    starts after [before], the result is [before], the value, and the
    rest of the text treated in the same way. *)
Theorem plain_value_fills_placeholder pattern value before after :
  JsReplace.plain value = true ->
  pattern <> "" ->
  JsString.indexOf pattern (before ++ pattern ++ after) = Some (String.length before) ->
  JsReplace.replace_all pattern value (before ++ pattern ++ after)
  = (before ++ value ++ JsReplace.replace_all pattern value after)%string.
Proof.
  intros V N. unfold JsReplace.replace_all.
  induction before as [|x a IH]; intros H.
  - change ("" ++ pattern ++ after)%string with (pattern ++ after)%string.
    change ("" ++ value ++ JsReplace.replace_go pattern value "" 0 after)%string
      with (value ++ JsReplace.replace_go pattern value "" 0 after)%string.
    destruct pattern as [|c r]; [contradiction|].
    rewrite append_cons. cbn [JsReplace.replace_go].
    assert (PA : String.prefix (String c r) (String c (r ++ after)) = true)
      by exact (prefix_app (String c r) after).
    rewrite PA, (expand_plain _ _ _ _ V). f_equal.
    rewrite (replace_go_plain _ _ V _ _ _ "").
    replace (String.length (String c r) - 1)%nat with (String.length r)
      by (simpl; lia).
    now rewrite slice_app.
  - rewrite append_cons in H |- *. cbn [JsString.indexOf] in H.
    destruct (String.prefix pattern (String x (a ++ pattern ++ after))) eqn:P;
      [discriminate|].
    destruct (JsString.indexOf pattern (a ++ pattern ++ after)) as [n|] eqn:I;
      [|discriminate].
    simpl in H. injection H as ->.
    cbn [JsReplace.replace_go]. rewrite P, append_cons. f_equal.
    rewrite (replace_go_plain _ _ V _ 0%nat _ ""). cbn [JsString.slice].
    now apply IH.
Qed.

Lemma plain_value_fills_placeholder_witness :
  JsReplace.replace_all "{{command}}" "foo" "No {{command}} here"
  = "No foo here".
Proof.
  apply (plain_value_fills_placeholder "{{command}}" "foo" "No " " here");
    [reflexivity | discriminate | reflexivity].
Defined.
(** ** The registry built by the loaders *)

Lemma get_set_eq {V} (c : Collection.t V) k v : Collection.get (Collection.set c k v) k = Some v.
Proof.
  induction c as [|[k' v'] r IH]; simpl.
  - now rewrite String.eqb_refl.
  - destruct (String.eqb_spec k k') as [->|N]; simpl.
    + now rewrite String.eqb_refl.
    + destruct (String.eqb_spec k k'); [contradiction | exact IH].
Qed.

Lemma get_set_ne {V} (c : Collection.t V) k v k' :
  k <> k' -> Collection.get (Collection.set c k v) k' = Collection.get c k'.
Proof.
  intros N. induction c as [|[k0 v0] r IH]; simpl.
  - destruct (String.eqb_spec k' k); [congruence | reflexivity].
  - destruct (String.eqb_spec k k0) as [->|N0]; simpl.
    + destruct (String.eqb_spec k' k0); [congruence | reflexivity].
    + destruct (String.eqb_spec k' k0); [reflexivity | exact IH].
Qed.

Lemma find_snoc {A} (p : A -> bool) l x :
  List.find p (l ++ [x])
  = match List.find p l with
    | Some y => Some y
    | None => if p x then Some x else None
    end.
Proof.
  induction l as [|y l IH]; simpl; [reflexivity|]. destruct (p y); [reflexivity | exact IH].
Qed.

Lemma fold_set_get {A V} (key_of : A -> string) (value_of : A -> V) modules c k :
  Collection.get
    (fold_left (fun t m => Collection.set t (key_of m) (value_of m)) modules c) k
  = match List.find (fun m => String.eqb k (key_of m)) (rev modules) with
    | Some m => Some (value_of m)
    | None => Collection.get c k
    end.
Proof.
  revert c. induction modules as [|m r IH]; intros c; simpl; [reflexivity|].
  rewrite IH, find_snoc.
  destruct (List.find _ (rev r)); [reflexivity|].
  destruct (String.eqb_spec k (key_of m)) as [->|N].
  - apply get_set_eq.
  - apply get_set_ne. congruence.
Qed.

(** In a table the entry of a key is the last module with that key. *)
Lemma table_get {A V} (key_of : A -> string) (value_of : A -> V) modules k :
  Collection.get (table key_of value_of modules) k
  = option_map value_of (List.find (fun m => String.eqb k (key_of m)) (rev modules)).
Proof.
  unfold table. rewrite fold_set_get. now destruct (List.find _ _).
Qed.

Lemma loadCommands_get files name :
  Collection.get (__loadCommands files) name
  = List.find (fun command => String.eqb name (Command.name command)) (rev files).
Proof.
  unfold __loadCommands. rewrite fold_set_get. now destruct (List.find _ _).
Qed.

(** X14: after [__loadCommands], the command found under a name is the
    module of the last file, in the order of the listing, that declares
    this name: a later module replaces an earlier one of the same name,
    and a name no module declares is not a key. *)
Theorem loaded_command_is_last files name :
  Collection.get (__loadCommands files) name
  = List.find (fun command => String.eqb name (Command.name command)) (rev files)
  /\ (Collection.has (__loadCommands files) name = true
      <-> exists command, In command files /\ Command.name command = name).
Proof.
  pose proof (loadCommands_get files name) as G.
  split; [exact G|]. unfold Collection.has. rewrite G. split.
  - destruct (List.find _ _) as [command|] eqn:F; [|discriminate]. intros _.
    apply find_some in F as [I E]. apply String.eqb_eq in E.
    exists command. split; [now apply in_rev | congruence].
  - intros (command & I & E).
    destruct (List.find _ _) eqn:F; [reflexivity|]. exfalso.
    apply in_rev in I. pose proof (find_none _ _ F command I) as Hn.
    simpl in Hn. rewrite E, String.eqb_refl in Hn. discriminate.
Qed.

Lemma loaded_command_is_last_witness :
  Collection.get (__loadCommands [help; plain "help" throws; eval_cmd]) "help"
  = Some (plain "help" throws).
Proof.
  exact (proj1 (loaded_command_is_last [help; plain "help" throws; eval_cmd] "help")).
Defined.

(** ** Case folding *)

Lemma lower_lower c : JsString.lower (JsString.lower c) = JsString.lower c.
Proof.
  destruct c as [[] [] [] [] [] [] [] []]; reflexivity.
Qed.

Lemma toLowerCase_idempotent text :
  JsString.toLowerCase (JsString.toLowerCase text) = JsString.toLowerCase text.
Proof.
  induction text as [|c r IH]; simpl; [reflexivity|]. now rewrite lower_lower, IH.
Qed.

(** X15: with a registry built by [__loadCommands], a command the guards
    authorize is one of the loaded modules, its name is the first token of
    the message in lower case, and so its name is left unchanged by
    [toLowerCase]: a module whose name has a capital letter is never
    dispatched, and neither is one that a later file of the same name
    replaced. *)
Theorem authorized_is_loaded toFixed1 bot files message now f command args f1 :
  Client.commands (client bot) = Some (__loadCommands files) ->
  guards toFixed1 bot message now f = (Normal (Authorize command args), f1) ->
  In command files /\
  Command.name command = command_name f1 /\
  JsString.toLowerCase (Command.name command) = Command.name command /\
  List.find (fun other => String.eqb (Command.name command) (Command.name other)) (rev files)
  = Some command.
Proof.
  intros C E.
  destruct (authorized_inversion _ _ _ _ _ _ _ _ E)
    as (_ & _ & prefix & first & commands & _ & _ & _ & _ & N & C' & G & _).
  rewrite C in C'. injection C' as <-.
  rewrite loadCommands_get in G. pose proof G as F.
  apply find_some in F as [I Eq]. apply String.eqb_eq in Eq.
  split; [now apply in_rev|]. split; [congruence|]. split.
  - rewrite <- Eq. apply toLowerCase_idempotent.
  - now rewrite <- Eq.
Qed.

Lemma authorized_is_loaded_witness :
  fst (guards half_up owned_bot (text_of "u1" [] "!EVAL 1") 0 (fresh empty_world))
  = Normal (Authorize eval_cmd ["1"]) /\
  In eval_cmd [help; eval_cmd; nowhere; purge] /\
  Command.name eval_cmd
  = command_name (snd (guards half_up owned_bot (text_of "u1" [] "!EVAL 1") 0
                         (fresh empty_world))) /\
  JsString.toLowerCase (Command.name eval_cmd) = Command.name eval_cmd /\
  List.find (fun other => String.eqb (Command.name eval_cmd) (Command.name other))
            (rev [help; eval_cmd; nowhere; purge])
  = Some eval_cmd.
Proof.
  assert (G : guards half_up owned_bot (text_of "u1" [] "!EVAL 1") 0 (fresh empty_world)
              = (Normal (Authorize eval_cmd ["1"]),
                 snd (guards half_up owned_bot (text_of "u1" [] "!EVAL 1") 0
                        (fresh empty_world))))
    by (vm_compute; reflexivity).
  split; [now rewrite G|].
  apply (authorized_is_loaded half_up owned_bot [help; eval_cmd; nowhere; purge]
           (text_of "u1" [] "!EVAL 1") 0 (fresh empty_world) eval_cmd ["1"] _
           eq_refl G).
Defined.
(** ** Messages before and after the commands are loaded *)






(** ** Modules that load and modules that do not *)


(** When every file loads, the loop requires them all, in order. *)
Lemma require_all_loaded {A} (require : string -> Error + A) path files modules :
  List.map (fun file => require (path ++ "/" ++ file)%string) files
  = List.map inr modules ->
  require_all require path files = (modules, None).
Proof.
  revert modules. induction files as [|file rest IH]; intros [|m modules] H;
    try discriminate; [reflexivity|].
  simpl in *. injection H as -> H. now rewrite (IH _ H).
Qed.

(** The error of the loop is the error of a file of the folder. *)
Lemma require_all_failure {A} (require : string -> Error + A) path files error :
  snd (require_all require path files) = Some error ->
  exists file, In file files /\ require (path ++ "/" ++ file)%string = inl error.
Proof.
  induction files as [|file rest IH]; simpl; [discriminate|].
  destruct (require (path ++ "/" ++ file)%string) as [e|m] eqn:R; simpl.
  - intros [= ->]. exists file. split; [now left | exact R].
  - destruct (require_all require path rest) as [modules failure]. simpl in *.
    intros H. destruct (IH H) as (f & I & E). exists f. split; [now right | exact E].
Qed.



(** ** Interactions *)

(** X18: an interaction never changes the cooldowns or the timers, sends
    no message response, and runs at most one handler: its trace is empty,
    the run of one handler, or that run followed by the error the handler
    threw.  A button or select menu interaction whose table exists never
    rejects, and an interaction of another kind does nothing. *)
Theorem interaction_contained bot interaction w :
  let o := __interaction bot interaction w in
  world_of o = w /\
  (trace o = []
   \/ exists id,
        (id = Interaction.commandName interaction \/ id = Interaction.customId interaction)
        /\ (trace o = [ExecuteInteraction id]
            \/ exists e, trace o = [ExecuteInteraction id; ConsoleError e])) /\
  (Interaction.kind interaction = IsButton ->
   Client.buttons (client bot) <> None -> escaped o = None) /\
  (Interaction.kind interaction = IsSelectMenu ->
   Client.selects (client bot) <> None -> escaped o = None) /\
  (Interaction.kind interaction = IsOther -> o = nothing w).
Proof.
  unfold __interaction, interaction_body, run, bind, try_catch, invoke.
  destruct (Interaction.kind interaction); simpl.
  - destruct (Client.slash (client bot)) as [slash|]; simpl;
      [|repeat split; try discriminate; now left].
    destruct (Collection.get slash _) as [command|]; simpl;
      [|repeat split; try discriminate; now left].
    unfold bind. simpl.
    destruct (Handler.execute command interaction) as [|e]; simpl.
    + repeat split; try discriminate. right. eexists. split; [now left|]. now left.
    + rewrite template_eq.
      destruct (template_error (data bot) Key.command_error); simpl.
      all: repeat split; try discriminate.
      all: right; eexists; split; [now left|]; right; now exists e.
  - destruct (Client.buttons (client bot)) as [buttons|]; simpl;
      [|repeat split; try discriminate; try congruence; now left].
    destruct (Collection.get buttons _) as [button|]; simpl;
      [|repeat split; try discriminate; now left].
    unfold bind. simpl.
    destruct (Handler.execute button interaction) as [|e]; simpl.
    + repeat split; try discriminate. right. eexists. split; [now right|]. now left.
    + repeat split; try discriminate.
      right. eexists. split; [now right|]. right. now exists e.
  - destruct (Client.selects (client bot)) as [selects|]; simpl;
      [|repeat split; try discriminate; try congruence; now left].
    destruct (Collection.get selects _) as [select|]; simpl;
      [|repeat split; try discriminate; now left].
    unfold bind. simpl.
    destruct (Handler.execute select interaction) as [|e]; simpl.
    + repeat split; try discriminate. right. eexists. split; [now right|]. now left.
    + repeat split; try discriminate.
      right. eexists. split; [now right|]. right. now exists e.
  - repeat split; try discriminate. now left.
Qed.

Lemma interaction_contained_witness :
  escaped (__interaction sample_bot (ping_interaction IsButton "ok") empty_world) = None /\
  world_of (__interaction sample_bot (ping_interaction IsButton "ok") empty_world)
  = empty_world.
Proof.
  destruct (interaction_contained sample_bot (ping_interaction IsButton "ok") empty_world)
    as (W & _ & B & _).
  split; [apply B; [reflexivity | discriminate] | exact W].
Defined.

(** X19: when the handler of a slash command throws, the error is written
    to the console and nothing is replied, for every bot and every error:
    the promise rejects with the [TypeError] of a catalog without a
    [command_error] template, and else with the [ReferenceError] of the
    assignment to the undeclared [msg]. *)
Theorem slash_error_never_replied bot interaction w slash command e :
  Interaction.kind interaction = IsCommand ->
  Client.slash (client bot) = Some slash ->
  Collection.get slash (Interaction.commandName interaction) = Some command ->
  Handler.execute command interaction = Throws e ->
  __interaction bot interaction w
  = {| escaped := Some match template_error (data bot) Key.command_error with
                       | Some missing => missing
                       | None => ReferenceError "msg is not defined"
                       end;
       world_of := w;
       trace := [ExecuteInteraction (Interaction.commandName interaction);
                 ConsoleError e] |}.
Proof.
  intros K S G X.
  unfold __interaction, interaction_body, run, bind, try_catch, invoke.
  rewrite K, S. simpl. rewrite G. unfold bind. simpl. rewrite X. simpl.
  rewrite template_eq.
  destruct (template_error (data bot) Key.command_error); reflexivity.
Qed.

Lemma slash_error_never_replied_witness :
  __interaction sample_bot (ping_interaction IsCommand "ping") empty_world
  = {| escaped := Some (ReferenceError "msg is not defined");
       world_of := empty_world;
       trace := [ExecuteInteraction "ping"; ConsoleError (HandlerError "boom")] |}.
Proof.
  apply (slash_error_never_replied sample_bot (ping_interaction IsCommand "ping")
           empty_world [("ping", ping_slash)] ping_slash (HandlerError "boom"));
    reflexivity.
Defined.

(** ** Buttons and select menus, from the folder to the interaction *)

Lemma component_outcome bot interaction w (modules : list Component.t) :
  (Interaction.kind interaction = IsButton
   /\ Client.buttons (client bot) = Some (table Component.id handler_of modules)
   \/ Interaction.kind interaction = IsSelectMenu
      /\ Client.selects (client bot) = Some (table Component.id handler_of modules)) ->
  __interaction bot interaction w
  = match List.find (fun m => String.eqb (Interaction.customId interaction) (Component.id m))
                    (rev modules) with
    | None => nothing w
    | Some m =>
        {| escaped := None; world_of := w;
           trace := ExecuteInteraction (Interaction.customId interaction)
                    :: match Component.execute m interaction with
                       | Returns => []
                       | Throws e => [ConsoleError e]
                       end |}
    end.
Proof.
  intros [[K T]|[K T]];
    unfold __interaction, interaction_body, run, bind, try_catch, invoke;
    rewrite K, T; simpl; rewrite table_get;
    (destruct (List.find _ _) as [m|]; simpl; [|reflexivity]);
    unfold bind; simpl; destruct (Component.execute m interaction); reflexivity.
Qed.

(** X20: after [__registerButtons] (or [__registerSelectMenus]) has read
    a folder, a button (select menu) interaction runs the handler of the
    last [.js] file of the folder whose module was required and has the
    custom id of the interaction, once; an error it throws is only
    written to the console; without such a module nothing happens.  The
    promise never rejects.  The modules required are those of all the
    [.js] files when they all load, and else those before the first file
    that does not. *)
Theorem registered_component_handled settings disk path rt names data interaction w rt' :
  Disk.readdirSync disk path = Some names ->
  (Interaction.kind interaction = IsButton
   /\ rt' = snd (__registerButtons settings disk path rt)
   \/ Interaction.kind interaction = IsSelectMenu
      /\ rt' = snd (__registerSelectMenus settings disk path rt)) ->
  let modules := fst (require_all (Disk.require_component disk) path (js_files names)) in
  (forall loaded,
     List.map (fun file => Disk.require_component disk (path ++ "/" ++ file))
              (js_files names)
     = List.map inr loaded ->
     modules = loaded) /\
  __interaction (bot_of data rt') interaction w
  = match List.find (fun m => String.eqb (Interaction.customId interaction) (Component.id m))
                    (rev modules) with
    | None => nothing w
    | Some m =>
        {| escaped := None; world_of := w;
           trace := ExecuteInteraction (Interaction.customId interaction)
                    :: match Component.execute m interaction with
                       | Returns => []
                       | Throws e => [ConsoleError e]
                       end |}
    end.
Proof.
  intros D H modules. split.
  { intros loaded L. subst modules. now rewrite (require_all_loaded _ _ _ _ L). }
  apply component_outcome. subst modules.
  destruct H as [[K ->]|[K ->]]; [left | right]; (split; [exact K|]);
    [unfold __registerButtons | unfold __registerSelectMenus]; rewrite D;
    now destruct (require_all (Disk.require_component disk) path (js_files names)).
Qed.

Lemma registered_component_handled_witness :
  __interaction (bot_of default_data
                   (snd (__registerButtons bare_settings broken_disk "./buttons" at_login)))
    (ping_interaction IsButton "ok") empty_world
  = {| escaped := None; world_of := empty_world;
       trace := [ExecuteInteraction "ok"; ConsoleError (HandlerError "boom")] |}.
Proof.
  apply (registered_component_handled bare_settings broken_disk "./buttons" at_login
           ["ok.js"; "late.js"] default_data (ping_interaction IsButton "ok") empty_world _
           eq_refl).
  left. split; reflexivity.
Defined.
(** ** The presence *)

Lemma or_else_not_blank o fallback : fallback <> "" -> or_else o fallback <> "".
Proof.
  intros F. unfold or_else, JsString.truthy.
  destruct o as [text|]; simpl; [|exact F].
  destruct (String.eqb_spec text ""); simpl; [exact F | assumption].
Qed.

Lemma append_not_blank a b : b <> "" -> (a ++ b)%string <> "".
Proof.
  intros B. destruct a as [|c r].
  - exact B.
  - change (String c (r ++ b)%string <> ""). discriminate.
Qed.

(** X21: whatever [Math.random] draws, [__status] picks an entry of a
    non-empty [data.statuses]; if that entry has a name, the presence is
    set and neither its activity name, nor its activity type, nor its
    status is the empty string, and its url is never the empty string: a
    name that is empty after the placeholders are filled is replaced by
    the first prefix followed by [help].  If the entry has no name,
    [__status] throws. *)
Theorem status_drawn_in_range data settings user statuses draw :
  Settings.statuses settings = Some statuses ->
  statuses <> [] ->
  exists status,
    In status statuses /\
    match Status.name status with
    | None => exists error, __status data settings user draw = inl error
    | Some name =>
        exists shown,
          __status data settings user draw = inr shown /\
          Presence.activity_name shown <> "" /\
          Presence.activity_type shown <> "" /\
          Presence.status shown <> "" /\
          Presence.activity_url shown <> Some "" /\
          (status_name data user name <> "" ->
           Presence.activity_name shown = status_name data user name)
    end.
Proof.
  intros S N. unfold __status. rewrite S.
  assert (B : (draw mod List.length statuses < List.length statuses)%nat).
  { apply Nat.mod_upper_bound. destruct statuses; [contradiction | discriminate]. }
  destruct (nth_error statuses (draw mod List.length statuses)) as [status|] eqn:E;
    [|apply nth_error_None in E; lia].
  exists status. split; [eapply nth_error_In; exact E|].
  destruct (Status.name status) as [name|]; [|eauto].
  eexists. split; [reflexivity|]. simpl. repeat split.
  - destruct (String.eqb_spec (status_name data user name) "") as [_|Hn]; [|exact Hn].
    now apply append_not_blank.
  - now apply or_else_not_blank.
  - now apply or_else_not_blank.
  - unfold JsString.truthy.
    destruct (Status.url status) as [url|]; simpl; [|discriminate].
    destruct (String.eqb_spec url ""); simpl; congruence.
  - intros Hn. now destruct (String.eqb_spec (status_name data user name) "").
Qed.

Lemma status_drawn_in_range_witness :
  exists shown,
    __status default_data quiet_settings sample_user 7 = inr shown /\
    Presence.activity_name shown = "!help".
Proof.
  destruct (status_drawn_in_range default_data quiet_settings sample_user
              [{| Status.name := Some ""; Status.type := None; Status.url := None;
                  Status.status := None |}] 7 eq_refl)
    as (status & I & H); [discriminate|].
  destruct I as [<-|[]]. simpl in H.
  destruct H as (shown & E & _). exists shown. split; [exact E|].
  vm_compute in E. injection E as <-. reflexivity.
Defined.

(** ** [__ready] *)

Lemma extends_refl settings rt : extends settings rt rt.
Proof.
  repeat split; try reflexivity.
  - exists []. now rewrite app_nil_r.
  - exists []. rewrite app_nil_r. repeat split. constructor.
Qed.

Lemma extends_trans settings rt1 rt2 rt3 :
  extends settings rt1 rt2 -> extends settings rt2 rt3 -> extends settings rt1 rt3.
Proof.
  intros (P1 & I1 & R1 & E1 & S1 & [a1 L1] & (l1 & G1 & F1 & Q1))
         (P2 & I2 & R2 & E2 & S2 & [a2 L2] & (l2 & G2 & F2 & Q2)).
  repeat split; try congruence.
  - exists (a1 ++ a2)%list. now rewrite L2, L1, app_assoc.
  - exists (l1 ++ l2)%list. rewrite G2, G1, app_assoc. repeat split.
    + apply Forall_app. now split.
    + intros Q. now rewrite (Q1 Q), (Q2 Q).
Qed.

Lemma log_lines_lines settings messages :
  Forall log_line (log_lines settings messages)
  /\ (silent settings = true -> log_lines settings messages = []).
Proof.
  unfold log_lines, silent.
  induction messages as [|m l [IH1 IH2]]; simpl; [split; [constructor | reflexivity]|].
  unfold __log at 1 3.
  destruct (Settings.dev settings && default true (Settings.logging settings)); simpl.
  - split; [|discriminate]. constructor; [apply prefix_app | exact IH1].
  - split; [exact IH1 | exact IH2].
Qed.

Lemma registering_lines settings what plural files names failure :
  Forall log_line (registering settings what plural files names failure)
  /\ (silent settings = true -> registering settings what plural files names failure = []).
Proof.
  unfold registering. destruct (_ <? _)%nat; [split; [constructor | reflexivity]|].
  apply log_lines_lines.
Qed.

Section Loaders.

Variable settings : Settings.t.
Variable disk : Disk.t.

Lemma loadCommands_extends path rt :
  extends settings rt (snd (loadCommands_at settings disk path rt))
  /\ forall error, fst (loadCommands_at settings disk path rt) = Some error ->
                   load_error disk error.
Proof.
  unfold loadCommands_at.
  destruct (Disk.readdirSync disk path) as [names|];
    [|split; [apply extends_refl | discriminate]].
  destruct (require_all (Disk.require_command disk) path (js_files names))
    as [modules failure] eqn:R.
  split.
  - repeat split; simpl.
    + exists []. now rewrite app_nil_r.
    + eexists. split; [reflexivity|]. apply registering_lines.
  - simpl. intros error ->.
    destruct (require_all_failure (Disk.require_command disk) path (js_files names) error)
      as (file & _ & Q); [now rewrite R|].
    eexists. left. exact Q.
Qed.

Lemma registerEvents_extends path rt :
  extends settings rt (snd (__registerEvents settings disk path rt))
  /\ forall error, fst (__registerEvents settings disk path rt) = Some error ->
                   load_error disk error.
Proof.
  unfold __registerEvents.
  destruct (Disk.readdirSync disk path) as [names|];
    [|split; [apply extends_refl | discriminate]].
  destruct (require_all (Disk.require_event disk) path (js_files names))
    as [modules failure] eqn:R.
  split.
  - repeat split; simpl.
    + now eexists.
    + eexists. split; [reflexivity|]. apply registering_lines.
  - simpl. intros error ->.
    destruct (require_all_failure (Disk.require_event disk) path (js_files names) error)
      as (file & _ & Q); [now rewrite R|].
    eexists. right. left. exact Q.
Qed.

Lemma registerButtons_extends path rt :
  extends settings rt (snd (__registerButtons settings disk path rt))
  /\ forall error, fst (__registerButtons settings disk path rt) = Some error ->
                   load_error disk error.
Proof.
  unfold __registerButtons.
  destruct (Disk.readdirSync disk path) as [names|];
    [|split; [apply extends_refl | discriminate]].
  destruct (require_all (Disk.require_component disk) path (js_files names))
    as [modules failure] eqn:R.
  split.
  - repeat split; simpl.
    + exists []. now rewrite app_nil_r.
    + eexists. split; [reflexivity|]. apply registering_lines.
  - simpl. intros error ->.
    destruct (require_all_failure (Disk.require_component disk) path (js_files names) error)
      as (file & _ & Q); [now rewrite R|].
    eexists. right. right. exact Q.
Qed.

Lemma registerSelectMenus_extends path rt :
  extends settings rt (snd (__registerSelectMenus settings disk path rt))
  /\ forall error, fst (__registerSelectMenus settings disk path rt) = Some error ->
                   load_error disk error.
Proof.
  unfold __registerSelectMenus.
  destruct (Disk.readdirSync disk path) as [names|];
    [|split; [apply extends_refl | discriminate]].
  destruct (require_all (Disk.require_component disk) path (js_files names))
    as [modules failure] eqn:R.
  split.
  - repeat split; simpl.
    + exists []. now rewrite app_nil_r.
    + eexists. split; [reflexivity|]. apply registering_lines.
  - simpl. intros error ->.
    destruct (require_all_failure (Disk.require_component disk) path (js_files names) error)
      as (file & _ & Q); [now rewrite R|].
    eexists. right. right. exact Q.
Qed.

(** [__deployCommands] writes no line, adds no listener and leaves the
    presence and the status loops alone. *)
Lemma deployCommands_keeps user path dev devId rt :
  let rt' := __deployCommands settings disk user path dev devId rt in
  Runtime.presence rt' = Runtime.presence rt /\
  Runtime.intervals rt' = Runtime.intervals rt /\
  Runtime.listeners rt' = Runtime.listeners rt /\
  Runtime.logged rt' = Runtime.logged rt /\
  (Settings.slash settings = false -> rt' = rt).
Proof.
  unfold __deployCommands.
  destruct (Settings.slash settings); simpl; [|now repeat split].
  destruct (Disk.readdirSync disk path) as [names|]; [|repeat split; discriminate].
  destruct (require_all (Disk.require_slash disk) path (js_files names)).
  repeat split. discriminate.
Qed.

End Loaders.

(** [__ready] once the first [__status] has returned: the loaders run in
    turn until one is left by the error of a module; if none is,
    [__deployCommands] runs and the start message is written. *)
Lemma ready_after_status data settings disk user draw rt shown :
  __status data settings user draw = inr shown ->
  exists loaded,
    extends settings (status_set settings shown rt) loaded /\
    ((exists error,
        __ready data settings disk user draw rt = (Some error, loaded)
        /\ load_error disk error)
     \/ exists deployed_,
          deployed_
          = __deployCommands settings disk user
              (folder settings (Settings.slashPath settings) "slash")
              (Settings.dev settings) (default "" (Settings.devId settings)) loaded
          /\ fst (__ready data settings disk user draw rt) = None
          /\ Runtime.client (snd (__ready data settings disk user draw rt))
             = Runtime.client deployed_
          /\ Runtime.logged (snd (__ready data settings disk user draw rt))
             = (Runtime.logged deployed_ ++ [started_line user])%list
          /\ Runtime.presence (snd (__ready data settings disk user draw rt))
             = Runtime.presence deployed_
          /\ Runtime.intervals (snd (__ready data settings disk user draw rt))
             = Runtime.intervals deployed_
          /\ Runtime.listeners (snd (__ready data settings disk user draw rt))
             = Runtime.listeners deployed_
          /\ Runtime.requests (snd (__ready data settings disk user draw rt))
             = Runtime.requests deployed_
          /\ Runtime.errors (snd (__ready data settings disk user draw rt))
             = Runtime.errors deployed_).
Proof.
  intros S. unfold __ready. rewrite S. cbv zeta. fold (status_set settings shown rt).
  set (rt1 := status_set settings shown rt).
  destruct (loadCommands_extends settings disk
              (folder settings (Settings.commandsPath settings) "commands") rt1) as [X2 F2].
  destruct (loadCommands_at settings disk _ rt1) as [[e2|] rt2]; simpl in *.
  { exists rt2. split; [exact X2|]. left. exists e2. split; [reflexivity | now apply F2]. }
  destruct (registerEvents_extends settings disk
              (folder settings (Settings.eventsPath settings) "events") rt2) as [X3 F3].
  destruct (__registerEvents settings disk _ rt2) as [[e3|] rt3]; simpl in *.
  { exists rt3. split; [eapply extends_trans; eassumption|].
    left. exists e3. split; [reflexivity | now apply F3]. }
  destruct (registerButtons_extends settings disk
              (folder settings (Settings.buttonsPath settings) "buttons") rt3) as [X4 F4].
  destruct (__registerButtons settings disk _ rt3) as [[e4|] rt4]; simpl in *.
  { exists rt4. split; [eauto using extends_trans|].
    left. exists e4. split; [reflexivity | now apply F4]. }
  destruct (registerSelectMenus_extends settings disk
              (folder settings (Settings.selectMenusPath settings) "selects") rt4)
    as [X5 F5].
  destruct (__registerSelectMenus settings disk _ rt4) as [[e5|] rt5]; simpl in *.
  { exists rt5. split; [eauto using extends_trans|].
    left. exists e5. split; [reflexivity | now apply F5]. }
  exists rt5. split; [eauto using extends_trans|].
  right. eexists. split; [reflexivity|]. repeat split.
Qed.




(** ** Logging *)

(** X24: unless [data.dev] is truthy and [data.logging] is not falsy, a
    start-up that succeeds writes one line to the console, the start
    message, whatever the folders hold: none of the loaders logs, and a
    missing folder is passed over without a word. *)
Theorem quiet_start data settings disk user draw rt :
  silent settings = true ->
  fst (__ready data settings disk user draw rt) = None ->
  Runtime.logged (snd (__ready data settings disk user draw rt))
  = (Runtime.logged rt ++ [started_line user])%list.
Proof.
  intros S N.
  destruct (__status data settings user draw) as [error|shown] eqn:St.
  { unfold __ready in N. rewrite St in N. discriminate. }
  destruct (ready_after_status data settings disk user draw rt shown St)
    as (loaded & (_ & _ & _ & _ & _ & _ & (lines & G & _ & Q)) & H).
  destruct H as [(error & E & _)|(rt6 & -> & _ & _ & G6 & _)];
    [rewrite E in N; discriminate|].
  destruct (deployCommands_keeps settings disk user
              (folder settings (Settings.slashPath settings) "slash")
              (Settings.dev settings) (default "" (Settings.devId settings)) loaded)
    as (_ & _ & _ & G7 & _).
  rewrite G6, G7, G, (Q S), app_nil_r. reflexivity.
Qed.

Lemma quiet_start_witness :
  Runtime.logged (snd (__ready default_data quiet_settings sample_disk sample_user 0 at_login))
  = [started_line sample_user].
Proof.
  apply (quiet_start default_data quiet_settings sample_disk sample_user 0 at_login);
    reflexivity.
Defined.

(** X25: [__ready] passes [data.dev] as [dev], and [__log] writes only
    when [data.dev] is truthy: so the line that reports a global
    registration of the slash commands is never written, and the only
    line the answer of the request can produce is the one of the
    development guild; a rejection is written to the error console and
    nothing else changes. *)
Theorem global_registration_never_logged settings answer rt :
  let rt' := deployed settings (Settings.dev settings) answer rt in
  Runtime.logged rt'
  = (Runtime.logged rt
     ++ match answer with
        | None =>
            if silent settings then []
            else ["[DBF] => Successfully registered application commands for development guild"]
        | Some _ => []
        end)%list /\
  Runtime.errors rt'
  = (Runtime.errors rt ++ match answer with None => [] | Some error => [error] end)%list /\
  Runtime.client rt' = Runtime.client rt /\
  Runtime.requests rt' = Runtime.requests rt.
Proof.
  unfold deployed, silent, __log. simpl.
  destruct answer; [now rewrite app_nil_r|].
  destruct (Settings.dev settings); simpl; [|now rewrite app_nil_r].
  now destruct (default true (Settings.logging settings)).
Qed.

(** ** Slash commands, from the folder to the interaction *)

(** X26: with [data.slash] falsy, [__deployCommands] returns at its first
    statement, and no other loader creates [client.slash]: after
    [__ready], whether it succeeded or not, a command interaction rejects
    with the [TypeError] of the look-up in the missing table, runs no
    handler and writes nothing. *)
Theorem slash_disabled_rejects data settings disk user draw rt interaction w :
  Settings.slash settings = false ->
  Client.slash (Runtime.client rt) = None ->
  Interaction.kind interaction = IsCommand ->
  __interaction (bot_of data (snd (__ready data settings disk user draw rt))) interaction w
  = {| escaped := Some (TypeError "client.slash is undefined"); world_of := w; trace := [] |}.
Proof.
  intros S C K.
  assert (N : Client.slash (Runtime.client (snd (__ready data settings disk user draw rt)))
              = None).
  { destruct (__status data settings user draw) as [error|shown] eqn:St.
    { unfold __ready. now rewrite St. }
    destruct (ready_after_status data settings disk user draw rt shown St)
      as (loaded & (_ & _ & _ & _ & L & _) & H).
    destruct H as [(error & -> & _)|(rt6 & -> & _ & -> & _)];
      [cbn [snd]; rewrite L; exact C|].
    destruct (deployCommands_keeps settings disk user
                (folder settings (Settings.slashPath settings) "slash")
                (Settings.dev settings) (default "" (Settings.devId settings)) loaded)
      as (_ & _ & _ & _ & Same).
    rewrite (Same S), L. exact C. }
  unfold __interaction, interaction_body, run, bind. rewrite K. simpl. rewrite N.
  reflexivity.
Qed.

Lemma slash_disabled_rejects_witness :
  __interaction
    (bot_of default_data
       (snd (__ready default_data quiet_settings sample_disk sample_user 0 at_login)))
    (ping_interaction IsCommand "ping") empty_world
  = {| escaped := Some (TypeError "client.slash is undefined");
       world_of := empty_world; trace := [] |}.
Proof.
  apply (slash_disabled_rejects default_data quiet_settings sample_disk sample_user 0
           at_login (ping_interaction IsCommand "ping") empty_world); reflexivity.
Defined.

(** X27: with [data.slash] truthy and a readable folder,
    [__deployCommands] fills [client.slash] whether or not a REST client
    was given: a command interaction then runs the handler of the last
    [.js] file whose module was required and has the name of the command,
    and nothing happens for another name.  The modules required are those
    of all the [.js] files when they all load; then, without
    [data.restApi] no request is sent and one [TypeError] is written to
    the console, and with it one request is sent, whose body lists the
    module of every [.js] file, in the order of the folder.  When a
    module does not load, the modules required are those before it, no
    request is sent and its error is written to the console. *)
Theorem deployed_slash_handled settings disk user path dev devId rt names data interaction w :
  Settings.slash settings = true ->
  Disk.readdirSync disk path = Some names ->
  Interaction.kind interaction = IsCommand ->
  let required_ := require_all (Disk.require_slash disk) path (js_files names) in
  let modules := fst required_ in
  let rt' := __deployCommands settings disk user path dev devId rt in
  (forall loaded,
     List.map (fun file => Disk.require_slash disk (path ++ "/" ++ file)) (js_files names)
     = List.map inr loaded ->
     required_ = (loaded, None)) /\
  (match List.find (fun m => String.eqb (Interaction.commandName interaction)
                                         (Slash.data_name m))
                   (rev modules) with
   | None => __interaction (bot_of data rt') interaction w = nothing w
   | Some m =>
       trace (__interaction (bot_of data rt') interaction w)
       = ExecuteInteraction (Interaction.commandName interaction)
         :: match Slash.execute m interaction with
            | Returns => []
            | Throws e => [ConsoleError e]
            end
       /\ (escaped (__interaction (bot_of data rt') interaction w) = None
           <-> Slash.execute m interaction = Returns)
   end) /\
  match snd required_ with
  | Some error =>
      Runtime.requests rt' = Runtime.requests rt
      /\ Runtime.errors rt' = (Runtime.errors rt ++ [error])%list
  | None =>
      if Settings.restApi settings
      then Runtime.errors rt' = Runtime.errors rt
           /\ exists route,
                Runtime.requests rt'
                = (Runtime.requests rt ++ [(route, List.map Slash.data_name modules)])%list
      else Runtime.requests rt' = Runtime.requests rt
           /\ Runtime.errors rt'
              = (Runtime.errors rt ++ [TypeError "rest is not a constructor"])%list
  end.
Proof.
  intros S D K required_ modules rt'. subst rt' modules required_.
  split; [intros loaded L; now apply require_all_loaded|].
  unfold __deployCommands. rewrite S, D. simpl.
  destruct (require_all (Disk.require_slash disk) path (js_files names))
    as [modules failure]. simpl. split.
  - unfold __interaction, interaction_body, run, bind, try_catch, invoke.
    rewrite K. simpl. rewrite table_get.
    destruct (List.find _ (rev modules)) as [m|]; simpl; [|reflexivity].
    unfold bind. simpl.
    destruct (Slash.execute m interaction) as [|e]; simpl.
    + split; [reflexivity|]. split; reflexivity.
    + rewrite template_eq.
      destruct (template_error data Key.command_error); simpl.
      all: split; [reflexivity|]; split; discriminate.
  - destruct failure as [error|].
    + split; [apply app_nil_r | reflexivity].
    + destruct (Settings.restApi settings).
      * split; [apply app_nil_r|]. now eexists.
      * split; [apply app_nil_r | reflexivity].
Qed.

Lemma deployed_slash_handled_witness :
  trace (__interaction
           (bot_of default_data
              (__deployCommands sample_settings sample_disk sample_user "./slash" false ""
                 at_login))
           (ping_interaction IsCommand "ping") empty_world)
  = [ExecuteInteraction "ping"] /\
  Runtime.requests
    (__deployCommands sample_settings sample_disk sample_user "./slash" false "" at_login)
  = [] /\
  Runtime.errors
    (__deployCommands sample_settings sample_disk sample_user "./slash" false "" at_login)
  = [TypeError "rest is not a constructor"].
Proof.
  destruct (deployed_slash_handled sample_settings sample_disk sample_user "./slash" false ""
              at_login ["ping.js"] default_data (ping_interaction IsCommand "ping")
              empty_world eq_refl eq_refl eq_refl) as (_ & [T _] & [R E]).
  split; [exact T|]. split; [exact R | exact E].
Defined.
(** ** The cooldown window *)

Lemma keeps_record_same toFixed1 bot name author_id w w' :
  keeps_record toFixed1 bot name author_id w w' ->
  record w' name author_id = record w name author_id.
Proof.
  intros [message now w0 H | t w0 _ H].
  - destruct (guards toFixed1 bot message now (fresh w0)) as [c f1] eqn:E.
    rewrite (world_after _ _ _ _ _ _ _ E).
    assert (Q : same_records w0 (world f1)).
    { apply (quiet_guards_with bot (chain toFixed1 bot)) in E as [_ Q];
        [exact Q | apply quiet_chain]. }
    destruct Q as [_ QR].
    destruct c as [[|call|command args]|error]; try apply QR.
    rewrite record_started_other; [apply QR|].
    destruct (H command args f1 eq_refl) as [N|N]; [left | right]; congruence.
  - rewrite record_fire. destruct (decide _) as [[B U]|_]; [|reflexivity].
    destruct H; contradiction.
Qed.

Lemma undisturbed_same toFixed1 bot name author_id w w' :
  undisturbed toFixed1 bot name author_id w w' ->
  record w' name author_id = record w name author_id.
Proof.
  induction 1 as [|w w' w'' _ IH K]; [reflexivity|].
  now rewrite (keeps_record_same _ _ _ _ _ _ K).
Qed.

(** The test of lines 529-532 in any world that holds the record [t] of
    the author for the command: the invocation is answered with
    [command_cooldown] before [t + cooldown_amount], and not from then
    on. *)
Lemma window_decision toFixed1 bot message now f command args f0 w' t now' :
  guards_with bot (before_cooldown bot) message now f
  = (Normal (Authorize command args), f0) ->
  record w' (Command.name command) (Message.author_id message) = Some t ->
  let amount := cooldown_amount command in
  let timestamps := default ∅ (cooldowns w' !! Command.name command) in
  (now' < t + amount ->
   remaining timestamps (Message.author_id message) now' amount = Some (t + amount - now')
   /\ rejection_of (guards toFixed1 bot message now' (fresh w')) = Some Key.command_cooldown)
  /\
  (t + amount <= now' ->
   remaining timestamps (Message.author_id message) now' amount = None
   /\ rejection_of (guards toFixed1 bot message now' (fresh w'))
      <> Some Key.command_cooldown).
Proof.
  intros E R amount timestamps.
  pose proof (guards_before_cooldown_anywhere _ _ _ _ _ _ _ now' w' E) as E2.
  destruct (guards_with_continue bot (before_cooldown bot)
              [guard_cooldown toFixed1; guard_guild_only; guard_dms_only;
               guard_owners_only bot; guard_permissions; guard_bot_permissions; guard_usage]
              _ _ _ _ _ _
              (steady_prefix toFixed1 bot (before_cooldown bot) _ eq_refl) E2)
    as (prefix & _ & G).
  change (guards_with bot (before_cooldown bot ++ _)) with (guards toFixed1 bot) in G.
  rewrite G. clear G.
  rewrite first_failing_cons, guard_cooldown_eq.
  cbn [ctx_of Ctx.command Ctx.message Ctx.command_name Ctx.now world].
  fold amount. fold timestamps.
  assert (T : timestamps !! Message.author_id message = Some t).
  { subst timestamps. unfold record in R.
    now destruct (cooldowns w' !! Command.name command). }
  split; intros H.
  - assert (Rm : remaining timestamps (Message.author_id message) now' amount
                 = Some (t + amount - now')).
    { unfold remaining. rewrite T. cbv zeta.
      destruct (Z.ltb_spec now' (t + amount)); [reflexivity | lia]. }
    split; [exact Rm|]. rewrite Rm. reflexivity.
  - assert (Rm : remaining timestamps (Message.author_id message) now' amount = None).
    { unfold remaining. rewrite T. cbv zeta.
      destruct (Z.ltb_spec now' (t + amount)); [lia | reflexivity]. }
    split; [exact Rm|]. rewrite Rm.
    match goal with
    | |- context [first_failing ?l ?c ?g] =>
        destruct (first_failing l c g) as [[[call|]|e] f2] eqn:F
    end; simpl; try discriminate.
    apply keys_after_cooldown in F. intros [= K]. rewrite K in F.
    simpl in F. intuition discriminate.
Qed.

(** C6, as the code has it: the cooldown of a command is the number of
    seconds it declares, and one second when it declares none or zero.
    When the guards authorize command [c] for user [u] at instant [now],
    the world after [__message] holds the record [(c, u) -> now] and an
    eviction timer of that delay.  In that world, and in every world
    reached from it by steps that neither fire a timer of [c] and [u] nor
    authorize [u] for [c] again, the record stands, the test of lines
    529-532 finds [amount - eps > 0] milliseconds left at [now + eps] for
    [0 <= eps < amount], when the same invocation is answered with
    [command_cooldown], and nothing left from [now + amount] on, when it
    no longer is; the timer removes the record.  When the guards do not
    authorize, the cooldown records and the timers are those of
    before. *)
Theorem cooldown_window toFixed1 bot message now w c f1 :
  guards toFixed1 bot message now (fresh w) = (c, f1) ->
  let o := __message toFixed1 bot message now w in
  let author_id := Message.author_id message in
  (forall command args, c = Normal (Authorize command args) ->
     let name := Command.name command in
     let seconds :=
       match Command.cooldown command with
       | Some declared => if declared =? 0 then 1 else declared
       | None => 1
       end in
     let amount := seconds * 1000 in
     let timer := {| armed := now; delay := amount; bucket := name; user := author_id |} in
     cooldown_amount command = amount /\
     record (world_of o) name author_id = Some now /\
     In timer (timers (world_of o)) /\
     (forall w', undisturbed toFixed1 bot name author_id (world_of o) w' ->
        let timestamps := default ∅ (cooldowns w' !! name) in
        record w' name author_id = Some now /\
        (forall eps, 0 <= eps < amount ->
           remaining timestamps author_id (now + eps) amount = Some (amount - eps)
           /\ 0 < amount - eps
           /\ rejection_of (guards toFixed1 bot message (now + eps) (fresh w'))
              = Some Key.command_cooldown) /\
        (forall eps, 0 <= eps ->
           remaining timestamps author_id (now + amount + eps) amount = None
           /\ rejection_of (guards toFixed1 bot message (now + amount + eps) (fresh w'))
              <> Some Key.command_cooldown)) /\
     record (fire timer (world_of o)) name author_id = None) /\
  ((forall command args, c <> Normal (Authorize command args)) ->
     same_records w (world_of o)).
Proof.
  intros E o author_id. split.
  - intros command args ->. cbv zeta.
    change (match Command.cooldown command with
            | Some declared => if declared =? 0 then 1 else declared
            | None => 1
            end * 1000) with (cooldown_amount command).
    assert (Rec : record (world_of o) (Command.name command) author_id = Some now).
    { subst o. rewrite (world_after _ _ _ _ _ _ _ E). apply record_started. }
    destruct (guards_with_initial bot (before_cooldown bot)
                [guard_cooldown toFixed1; guard_guild_only; guard_dms_only;
                 guard_owners_only bot; guard_permissions; guard_bot_permissions;
                 guard_usage]
                _ _ _ _ _ _ E) as [f0 E0].
    split; [reflexivity|]. split; [exact Rec|]. split; [|split].
    + subst o. rewrite (world_after _ _ _ _ _ _ _ E).
      unfold started. simpl. apply in_or_app. right. now left.
    + intros w' U.
      assert (Rec' : record w' (Command.name command) author_id = Some now).
      { now rewrite (undisturbed_same _ _ _ _ _ _ U). }
      split; [exact Rec'|]. split.
      * intros eps H.
        destruct (window_decision toFixed1 bot message now (fresh w) command args f0 w'
                    now (now + eps) E0 Rec') as [[Rm Rj] _]; [lia|].
        split; [etransitivity; [exact Rm | f_equal; lia]|]. split; [lia | exact Rj].
      * intros eps H.
        destruct (window_decision toFixed1 bot message now (fresh w) command args f0 w'
                    now (now + cooldown_amount command + eps) E0 Rec') as [_ [Rm Rj]];
          [lia|].
        split; [exact Rm | exact Rj].
    + subst o. rewrite (world_after _ _ _ _ _ _ _ E).
      exact (record_fired {| armed := now; delay := cooldown_amount command;
                             bucket := Command.name command; user := author_id |} _).
  - intros NA. subst o. rewrite (world_after _ _ _ _ _ _ _ E).
    assert (Q : same_records w (world f1)).
    { apply (quiet_guards_with bot (chain toFixed1 bot)) in E as [_ Q];
        [exact Q | apply quiet_chain]. }
    destruct c as [[|call|command args]|error]; try exact Q.
    now destruct (NA command args).
Qed.

Lemma cooldown_window_witness :
  fst (guards half_up sample_bot (text "!ban a b") 1000 (fresh empty_world))
  = Normal (Authorize ban ["a"; "b"]) /\
  cooldown_amount ban = 3000 /\
  let later :=
    world_of (__message half_up sample_bot (text "!help") 1500
                (world_of (__message half_up sample_bot (text "!ban a b") 1000
                             empty_world))) in
  record later "ban" "u1" = Some 1000 /\
  remaining (default ∅ (cooldowns later !! "ban")) "u1" (1000 + 2999) 3000
  = Some (3000 - 2999) /\
  rejection_of (guards half_up sample_bot (text "!ban a b") (1000 + 2999) (fresh later))
  = Some Key.command_cooldown /\
  remaining (default ∅ (cooldowns later !! "ban")) "u1" (1000 + 3000 + 1) 3000 = None.
Proof.
  assert (G : fst (guards half_up sample_bot (text "!ban a b") 1000 (fresh empty_world))
              = Normal (Authorize ban ["a"; "b"])) by (vm_compute; reflexivity).
  destruct (cooldown_window half_up sample_bot (text "!ban a b") 1000 empty_world
              _ _ (surjective_pairing _)) as [Authorized _].
  destruct (Authorized ban ["a"; "b"] G) as (Amount & _ & _ & Later & _).
  split; [exact G|]. split; [reflexivity|]. cbv zeta.
  destruct (Later
              (world_of (__message half_up sample_bot (text "!help") 1500
                           (world_of (__message half_up sample_bot (text "!ban a b") 1000
                                        empty_world)))))
    as (Rec & Active & Expired).
  - eapply undisturbed_step; [apply undisturbed_refl|].
    apply keeps_message. intros command args f1 H.
    assert (N : fst (guards half_up sample_bot (text "!help") 1500
                       (fresh (world_of (__message half_up sample_bot (text "!ban a b")
                                           1000 empty_world))))
                = Normal (Authorize help [])) by (vm_compute; reflexivity).
    rewrite H in N. injection N as -> _. left. discriminate.
  - split; [exact Rec|].
    destruct (Active 2999) as (Rm & _ & Rj); [simpl; lia|].
    split; [exact Rm|]. split; [exact Rj|].
    destruct (Expired 1) as [Rm' _]; [lia|]. exact Rm'.
Defined.

(** C6 fails as stated.  The command [purge] declares a cooldown of
    [0] seconds: after its dispatch at instant [0], half a second later,
    when nothing should be left, [500] milliseconds are left and the
    invocation is answered with [command_cooldown].  And the record of a
    dispatch does not always last for the cooldown: [ban], of cooldown
    [3] seconds, is dispatched at [0] and again at [3000]; the timer of
    the first dispatch, fired then, removes the record of the second, and
    at [3001] nothing is left and the invocation is authorized. *)
Lemma zero_cooldown_still_waits :
  (Command.cooldown purge = Some 0 /\
   fst (guards half_up owned_bot
          (text_of "u1" ["MANAGE_MESSAGES"; "ADMINISTRATOR"] "!purge") 0 (fresh empty_world))
   = Normal (Authorize purge []) /\
   let after :=
     world_of (__message half_up owned_bot
                 (text_of "u1" ["MANAGE_MESSAGES"; "ADMINISTRATOR"] "!purge") 0
                 empty_world) in
   remaining (default ∅ (cooldowns after !! "purge")) "u1" (0 + 0 * 1000 + 500)
             (cooldown_amount purge)
   = Some 500 /\
   rejection_of (guards half_up owned_bot
                   (text_of "u1" ["MANAGE_MESSAGES"; "ADMINISTRATOR"] "!purge")
                   (0 + 0 * 1000 + 500) (fresh after))
   = Some Key.command_cooldown) /\
  (Command.cooldown ban = Some 3 /\
   let first := world_of (__message half_up sample_bot (text "!ban a b") 0 empty_world) in
   let second := world_of (__message half_up sample_bot (text "!ban a b") 3000 first) in
   let stale := {| armed := 0; delay := 3000; bucket := "ban"; user := "u1" |} in
   record second "ban" "u1" = Some 3000 /\
   In stale (timers second) /\
   reachable half_up sample_bot (fire stale second) /\
   remaining (default ∅ (cooldowns (fire stale second) !! "ban")) "u1" (3000 + 1) 3000
   = None /\
   fst (guards half_up sample_bot (text "!ban a b") (3000 + 1) (fresh (fire stale second)))
   = Normal (Authorize ban ["a"; "b"])).
Proof.
  split.
  - repeat split; vm_compute; reflexivity.
  - split; [reflexivity|]. cbv zeta.
    split; [vm_compute; reflexivity|].
    assert (I : In {| armed := 0; delay := 3000; bucket := "ban"; user := "u1" |}
                   (timers (world_of (__message half_up sample_bot (text "!ban a b") 3000
                                        (world_of (__message half_up sample_bot
                                                     (text "!ban a b") 0 empty_world))))))
      by (vm_compute; left; reflexivity).
    split; [exact I|]. split.
    + eapply reachable_step; [|apply step_timer; exact I].
      eapply reachable_step; [|apply step_message].
      eapply reachable_step; [apply reachable_start | apply step_message].
    + split; vm_compute; reflexivity.
Qed.
